(** * flipkartpricing.py: the settlement-price stepping loop

    A shallow embedding of [PriceUpdateBot] (src/flipkartpricing.py):
    the adapter methods [_open_listing], [_open_pricing_modal],
    [_get_settlement] and [_set_and_apply], the stepping loop of
    [update_price_for], the batch loop of [run], and the process around
    them: [__init__], [quit] and [main].

    Python's [float] is IEEE 754 binary64.  It is modelled by the
    standard library's [spec_float] at precision 53 and maximal exponent
    1024, whose operations are the ones the primitive floats are
    specified by.  The browser is an abstract state with one operation per
    Selenium interaction; every operation may raise. *)

From Stdlib Require Import ZArith List String Ascii Bool Lia QArith Qabs.
From Stdlib Require Import Floats.PrimFloat Floats.SpecFloat Floats.FloatOps.
From Stdlib Require Import DecimalString DecimalN.
Import ListNotations.

Local Open Scope Z_scope.

(** ** Python floats *)

Module PyFloat.

Definition prec : Z := 53.
Definition emax : Z := 1024.

Definition mul : spec_float -> spec_float -> spec_float := SFmul prec emax.
Definition ltb : spec_float -> spec_float -> bool := SFltb.
Definition leb : spec_float -> spec_float -> bool := SFleb.
Definition eqb : spec_float -> spec_float -> bool := SFeqb.
(** [x > y] and [x >= y] are [y < x] and [y <= x], as in IEEE 754:
    both are false as soon as one side is NaN. *)
Definition gtb (x y : spec_float) : bool := SFltb y x.
Definition geb (x y : spec_float) : bool := SFleb y x.

(** A Python float is a valid binary64 datum. *)
Definition valid (x : spec_float) : bool := valid_binary prec emax x.

Definition is_nan (x : spec_float) : bool :=
  match x with S754_nan => true | _ => false end.

(** The number of binary digits of a mantissa. *)
Definition digits (p : positive) : Z := Zpos (digits2_pos p).

(** Strictly above zero: a positive finite number or plus infinity;
    at most zero: a zero, a negative finite number or minus infinity. *)
Definition positive_float (x : spec_float) : bool :=
  match x with
  | S754_finite false _ _ | S754_infinity false => true
  | _ => false
  end.

Definition nonpositive_float (x : spec_float) : bool :=
  match x with
  | S754_zero _ | S754_finite true _ _ | S754_infinity true => true
  | _ => false
  end.

(** A positive normal number: its mantissa has all 53 digits. *)
Definition normal_positive (x : spec_float) : bool :=
  match x with
  | S754_finite false m _ => digits m =? 53
  | _ => false
  end.

(** The place of a positive number among the valid positive numbers, in
    increasing order; plus infinity comes last. *)
Definition rank (x : spec_float) : Z :=
  match x with
  | S754_finite false m e => (e + 1074) * 2 ^ 53 + Zpos m
  | S754_infinity false => 2046 * 2 ^ 53
  | _ => 0
  end.

(** The literal [1.0199]: the binary64 number nearest to 10199/10000,
    0x1.05182a9930be1p+0. *)
Definition GROWTH_FACTOR : spec_float :=
  S754_finite false 4593221259955169 (-52).

(** A whole number as a float, as [float(105)] is. *)
Definition of_Z_literal (n : positive) : spec_float :=
  binary_round prec emax false n 0.

(** *** [f"{val:.2f}"]

    Fixed-point formatting with two decimals: the exact binary value is
    rounded to the nearest hundredth, ties to even. *)

Definition round_half_even (num den : Z) : Z :=
  let q := num / den in
  match 2 * (num mod den) ?= den with
  | Lt => q
  | Eq => if Z.even q then q else q + 1
  | Gt => q + 1
  end.

(** The number of hundredths nearest to [m * 2^e]. *)
Definition hundredths (m : positive) (e : Z) : Z :=
  match e with
  | Zneg p => round_half_even (100 * Zpos m) (2 ^ Zpos p)
  | _ => 100 * Zpos m * 2 ^ e
  end.

Definition digits_of (n : Z) : string :=
  NilZero.string_of_uint (N.to_uint (Z.to_N n)).

Definition two_digits (n : Z) : string :=
  if n <? 10 then ("0" ++ digits_of n)%string else digits_of n.

Definition fixed2 (s : bool) (h : Z) : string :=
  ((if s then "-" else "") ++ digits_of (h / 100) ++ "." ++
   two_digits (h mod 100))%string.

Definition format_2f (x : spec_float) : string :=
  match x with
  | S754_nan => "nan"%string
  | S754_infinity s => if s then "-inf"%string else "inf"%string
  | S754_zero s => fixed2 s 0
  | S754_finite s m e => fixed2 s (hundredths m e)
  end.

(** The exact value of a finite float, and the value a two-decimal
    string denotes. *)
Definition to_Q (x : spec_float) : Q :=
  match x with
  | S754_finite s m e =>
      let a := match e with
               | Zneg p => Qmake (Zpos m) (2 ^ p)%positive
               | _ => inject_Z (Zpos m * 2 ^ e)
               end in
      if s then Qopp a else a
  | _ => 0%Q
  end.

Definition sent_value (x : spec_float) : Q :=
  match x with
  | S754_finite s m e =>
      let a := Qmake (hundredths m e) 100 in
      if s then Qopp a else a
  | _ => 0%Q
  end.

End PyFloat.

Declare Scope pyfloat_scope.
Delimit Scope pyfloat_scope with py.
Infix "*" := PyFloat.mul : pyfloat_scope.
Infix "<?" := PyFloat.ltb : pyfloat_scope.
Infix "<=?" := PyFloat.leb : pyfloat_scope.
Infix ">?" := PyFloat.gtb : pyfloat_scope.
Infix ">=?" := PyFloat.geb : pyfloat_scope.
Infix "=?" := PyFloat.eqb : pyfloat_scope.

(** ** Reading a two-decimal text back *)

(** The text before the first point, and the text after it. *)
Fixpoint split_point (s : string) : option (string * string) :=
  match s with
  | String c r =>
      if Ascii.eqb c "." then Some (EmptyString, r)
      else
        match split_point r with
        | Some (a, b) => Some (String c a, b)
        | None => None
        end
  | EmptyString => None
  end.

(** The hundredths a text of digits, a point and two digits stands for. *)
Definition hundredths_of_text (s : string) : option Z :=
  match split_point s with
  | Some (whole, cents) =>
      match NilZero.uint_of_string whole, NilZero.uint_of_string cents with
      | Some a, Some b =>
          if (String.length cents =? 2)%nat
          then Some (100 * Z.of_N (N.of_uint a) + Z.of_N (N.of_uint b))
          else None
      | _, _ => None
      end
  | None => None
  end.

(** The number a text stands for, with its sign. *)
Definition amount (s : string) : option Q :=
  match s with
  | String c r =>
      if Ascii.eqb c "-"
      then option_map (fun h => Qopp (h # 100)) (hundredths_of_text r)
      else option_map (fun h => h # 100) (hundredths_of_text s)
  | EmptyString => None
  end.

Definition is_digit (c : ascii) : bool :=
  ((48 <=? N_of_ascii c) && (N_of_ascii c <=? 57))%N.

Fixpoint all_digits (s : string) : bool :=
  match s with
  | String c r => is_digit c && all_digits r
  | EmptyString => true
  end.

(** ** Strings: [str.strip] and the listing URL

    A Python [str] is a sequence of Unicode code points; it is modelled
    by its UTF-8 encoding, one [ascii] per byte. *)

(** The code points [str.isspace] holds of, the ones [str.strip()]
    removes: tab to carriage return, the separators 28 to 31, space,
    U+0085, U+00A0, U+1680, U+2000 to U+200A, U+2028, U+2029, U+202F,
    U+205F and U+3000. *)
Definition isspace (cp : N) : bool :=
  ((9 <=? cp) && (cp <=? 13) || (28 <=? cp) && (cp <=? 32) ||
   (cp =? 133) || (cp =? 160) || (cp =? 5760) ||
   (8192 <=? cp) && (cp <=? 8202) || (cp =? 8232) || (cp =? 8233) ||
   (cp =? 8239) || (cp =? 8287) || (cp =? 12288))%N.

(** The payload of a continuation byte [10xxxxxx]. *)
Definition continuation (c : ascii) : option N :=
  let n := N_of_ascii c in
  if ((128 <=? n) && (n <? 192))%N then Some (n - 128)%N else None.

(** The number of bytes of the white-space code point a string begins
    with, 0 when it begins with none.  A code point below U+0080 takes one
    byte, one below U+0800 two, one below U+10000 three; those above are
    no white space. *)
Definition space_width (s : string) : nat :=
  match s with
  | String a s1 =>
      let x := N_of_ascii a in
      if (x <? 128)%N then if isspace x then 1%nat else 0%nat
      else
        match s1 with
        | String b s2 =>
            match continuation b with
            | Some y =>
                if ((192 <=? x) && (x <? 224))%N then
                  let cp := ((x - 192) * 64 + y)%N in
                  if (128 <=? cp)%N && isspace cp then 2%nat else 0%nat
                else if ((224 <=? x) && (x <? 240))%N then
                  match s2 with
                  | String c _ =>
                      match continuation c with
                      | Some z =>
                          let cp := ((x - 224) * 4096 + y * 64 + z)%N in
                          if (2048 <=? cp)%N && isspace cp then 3%nat
                          else 0%nat
                      | None => 0%nat
                      end
                  | EmptyString => 0%nat
                  end
                else 0%nat
            | None => 0%nat
            end
        | EmptyString => 0%nat
        end
  | EmptyString => 0%nat
  end.

Fixpoint lstrip (s : string) : string :=
  match s with
  | String _ s1 =>
      match space_width s with
      | 0%nat => s
      | 1%nat => lstrip s1
      | 2%nat =>
          match s1 with
          | String _ s2 => lstrip s2
          | EmptyString => s
          end
      | _ =>
          match s1 with
          | String _ (String _ s3) => lstrip s3
          | _ => s
          end
      end
  | EmptyString => EmptyString
  end.

(** Does a string hold nothing but white space? *)
Fixpoint all_space (s : string) : bool :=
  match s with
  | String _ s1 =>
      match space_width s with
      | 0%nat => false
      | 1%nat => all_space s1
      | 2%nat =>
          match s1 with
          | String _ s2 => all_space s2
          | EmptyString => false
          end
      | _ =>
          match s1 with
          | String _ (String _ s3) => all_space s3
          | _ => false
          end
      end
  | EmptyString => true
  end.

(** [rstrip] cuts a string where nothing but white space follows. *)
Fixpoint rstrip (s : string) : string :=
  match s with
  | String c s' =>
      if all_space s then EmptyString else String c (rstrip s')
  | EmptyString => EmptyString
  end.

Definition strip (s : string) : string := rstrip (lstrip s).

Definition LISTING_URL (sku : string) : string :=
  ("https://seller.flipkart.com/index.html" ++
   "#dashboard/listings-management" ++
   "?listingState=ACTIVE&listingsSearchQuery=" ++ sku ++
   "&partnerContext=ALL")%string.

(** ** Exceptions, outcomes and the trace *)

(** The exceptions this program can meet; all of them derive from
    Python's [Exception]. *)
Inductive exn : Type :=
| TimeoutException
| NoSuchElementException
| WebDriverException
| ValueError
| TypeError
| AttributeError.

(** What a browser interaction answers. *)
Inductive reply (A : Type) : Type :=
| Ok (a : A)
| Err (e : exn).
Arguments Ok {A} a.
Arguments Err {A} e.

(** What running a piece of the program gives: a value, a raised
    exception, or a loop that is still running when the fuel is spent. *)
Inductive outcome (A : Type) : Type :=
| Val (a : A)
| Exc (e : exn)
| OutOfFuel.
Arguments Val {A} a.
Arguments Exc {A} e.
Arguments OutOfFuel {A}.

(** The lines written through [logging]; prices appear as [.2f] text. *)
Inductive log_line : Type :=
| Navigating (sku : string)
| Starting (current target : string)
| Bumping (next_val : string)
| Done (sku : string)
| Failed (sku : string) (e : exn).

(** What is observed of a run, in order: the adapter methods called with
    their arguments, the value a read came back with, the text typed into
    the settlement field, the exception a browser interaction raised, and
    the log.  Only the log is the program's own; the other events are the
    model's record of what the program did. *)
Inductive event : Type :=
| call_open_listing (sku : string)
| call_open_pricing_modal (sku : string)
| call_get_settlement
| got_settlement (v : spec_float)
| call_set_and_apply (val : spec_float)
| send_keys (text : string)
| raised (e : exn)
| Log (l : log_line).

Definition trace := list event.

(** A cell of the [SKU] column as [pd.read_excel] gives it under
    [dtype=str]: a [str], or the missing-value marker (a float NaN), which
    pandas gives for an empty cell and for a cell whose text is one of its
    default markers of a missing value, such as NA or N/A. *)
Inductive sku_cell : Type :=
| Text (s : string)
| Blank.

(** A row of the sheet; [FinalPrice] is read with [dtype=float], a
    blank cell being NaN. *)
Record row : Type := { SKU : sku_cell; FinalPrice : spec_float }.

(** ** The browser *)

Class Browser (W : Type) : Type := {
  (** [driver.get(url)] *)
  driver_get : string -> W -> W * reply unit;
  (** the row of the SKU, its icon and the "Continue to pricing" button,
      waited for and clicked *)
  pricing_modal : string -> W -> W * reply unit;
  (** [float(inp.get_attribute("value"))] on the awaited settlement field *)
  settlement_value : W -> W * reply spec_float;
  (** the settlement field awaited, cleared and typed into *)
  type_settlement : string -> W -> W * reply unit;
  (** the Apply button awaited and clicked *)
  click_apply : W -> W * reply unit
}.

(** ** The program monad: browser state, trace, exceptions, fuel *)

Section Program.

Context {W : Type} `{Browser W}.

Definition M (A : Type) : Type := W -> W * trace * outcome A.

Definition ret {A} (a : A) : M A := fun w => (w, [], Val a).

Definition bind {A B} (m : M A) (k : A -> M B) : M B :=
  fun w =>
    match m w with
    | (w1, t1, Val a) =>
        let '(w2, t2, o) := k a w1 in (w2, t1 ++ t2, o)
    | (w1, t1, Exc e) => (w1, t1, Exc e)
    | (w1, t1, OutOfFuel) => (w1, t1, OutOfFuel)
    end.

Definition raise {A} (e : exn) : M A := fun w => (w, [], Exc e).

Definition out_of_fuel {A} : M A := fun w => (w, [], OutOfFuel).

Definition emit (ev : event) : M unit := fun w => (w, [ev], Val tt).

Definition logging (l : log_line) : M unit := emit (Log l).

Definition interact {A} (op : W -> W * reply A) : M A :=
  fun w =>
    match op w with
    | (w1, Ok a) => (w1, [], Val a)
    | (w1, Err e) => (w1, [raised e], Exc e)
    end.

(** [try: body except Exception as e: handler e] *)
Definition try_except {A} (body : M A) (handler : exn -> M A) : M A :=
  fun w =>
    match body w with
    | (w1, t1, Exc e) =>
        let '(w2, t2, o) := handler e w1 in (w2, t1 ++ t2, o)
    | r => r
    end.

Notation "x <- m ;; k" := (bind m (fun x => k))
  (at level 61, m at next level, right associativity).
Notation "m ;; k" := (bind m (fun _ => k))
  (at level 61, right associativity).

(** ** The adapter methods

    The fixed delays the methods sleep after an interaction
    ([time.sleep(5)], [time.sleep(DELAY)], [time.sleep(1)],
    [time.sleep(3)]) raise nothing and change no value; they are not
    modelled. *)

Definition _open_listing (sku : string) : M unit :=
  emit (call_open_listing sku) ;;
  logging (Navigating sku) ;;
  interact (driver_get (LISTING_URL sku)).

Definition _open_pricing_modal (sku : string) : M unit :=
  emit (call_open_pricing_modal sku) ;;
  interact (pricing_modal sku).

Definition _get_settlement : M spec_float :=
  emit call_get_settlement ;;
  v <- interact settlement_value ;;
  emit (got_settlement v) ;;
  ret v.

Definition _set_and_apply (val : spec_float) : M unit :=
  emit (call_set_and_apply val) ;;
  interact (type_settlement (PyFloat.format_2f val)) ;;
  emit (send_keys (PyFloat.format_2f val)) ;;
  interact click_apply.

(** ** [update_price_for] *)

(** One pass of the loop body computes the value to apply. *)
Definition next_value (current target : spec_float) : spec_float :=
  let next_val := (current * PyFloat.GROWTH_FACTOR)%py in
  if (next_val >? target)%py then target else next_val.

(** [while current < target: ...]; each pass costs one unit of fuel. *)
Fixpoint stepping (fuel : nat) (current target : spec_float) : M unit :=
  if (current <? target)%py then
    match fuel with
    | O => out_of_fuel
    | S fuel' =>
        let next_val := next_value current target in
        logging (Bumping (PyFloat.format_2f next_val)) ;;
        _set_and_apply next_val ;;
        stepping fuel' next_val target
    end
  else ret tt.

Definition update_price_for (fuel : nat) (sku : string)
    (target : spec_float) : M unit :=
  try_except
    (_open_listing sku ;;
     _open_pricing_modal sku ;;
     current <- _get_settlement ;;
     logging (Starting (PyFloat.format_2f current)
                       (PyFloat.format_2f target)) ;;
     stepping fuel current target ;;
     logging (Done sku))
    (fun e => logging (Failed sku e)).

(** ** [run] *)

(** [r["SKU"].strip()]: a float has no [strip]. *)
Definition strip_cell (c : sku_cell) : M string :=
  match c with
  | Text s => ret (strip s)
  | Blank => raise AttributeError
  end.

Fixpoint iterrows (fuel : nat) (df : list row) : M unit :=
  match df with
  | [] => ret tt
  | r :: rest =>
      sku <- strip_cell (SKU r) ;;
      update_price_for fuel sku (FinalPrice r) ;;
      iterrows fuel rest
  end.

(** [sheet] is what [pd.read_excel] gives: the rows, or the exception
    it raises. *)
Definition run (fuel : nat) (sheet : reply (list row)) : M unit :=
  match sheet with
  | Ok df => iterrows fuel df
  | Err e => raise e
  end.

End Program.

Arguments M W A : clear implicits.

(** ** What a trace shows *)

(** The values passed to [_set_and_apply], in order. *)
Fixpoint applied (tr : trace) : list spec_float :=
  match tr with
  | call_set_and_apply v :: tr' => v :: applied tr'
  | _ :: tr' => applied tr'
  | [] => []
  end.

(** The texts typed into the settlement field, in order. *)
Fixpoint typed (tr : trace) : list string :=
  match tr with
  | send_keys s :: tr' => s :: typed tr'
  | _ :: tr' => typed tr'
  | [] => []
  end.

(** The values the reads came back with, in order. *)
Fixpoint reads (tr : trace) : list spec_float :=
  match tr with
  | got_settlement v :: tr' => v :: reads tr'
  | _ :: tr' => reads tr'
  | [] => []
  end.

(** The number of calls to [_get_settlement]. *)
Fixpoint read_calls (tr : trace) : nat :=
  match tr with
  | call_get_settlement :: tr' => S (read_calls tr')
  | _ :: tr' => read_calls tr'
  | [] => O
  end.

(** The tasks that were started, by the SKU [_open_listing] was called
    with. *)
Fixpoint attempted (tr : trace) : list string :=
  match tr with
  | call_open_listing sku :: tr' => sku :: attempted tr'
  | _ :: tr' => attempted tr'
  | [] => []
  end.

(** The tasks that ended, by their closing log line: [Done] or
    [Failed]. *)
Inductive verdict : Type := Succeeded | FailedWith (e : exn).

Fixpoint reported (tr : trace) : list (string * verdict) :=
  match tr with
  | Log (Done sku) :: tr' => (sku, Succeeded) :: reported tr'
  | Log (Failed sku e) :: tr' => (sku, FailedWith e) :: reported tr'
  | _ :: tr' => reported tr'
  | [] => []
  end.

(** ** A simulated seller dashboard

    Listings with their settlement values; the pricing modal of a SKU
    that has no listing never shows, and the page keeps what is typed. *)

Module Sim.

Record page : Type := {
  listings : list (string * spec_float);
  opened : option spec_float;
  field : list string
}.

Fixpoint lookup (sku : string) (l : list (string * spec_float))
  : option spec_float :=
  match l with
  | [] => None
  | (k, v) :: l' => if String.eqb k sku then Some v else lookup sku l'
  end.

Definition get (url : string) (p : page) : page * reply unit :=
  ({| listings := listings p; opened := None; field := field p |}, Ok tt).

Definition modal (sku : string) (p : page) : page * reply unit :=
  match lookup sku (listings p) with
  | Some v =>
      ({| listings := listings p; opened := Some v; field := field p |},
       Ok tt)
  | None => (p, Err TimeoutException)
  end.

Definition value (p : page) : page * reply spec_float :=
  match opened p with
  | Some v => (p, Ok v)
  | None => (p, Err TimeoutException)
  end.

Definition type (s : string) (p : page) : page * reply unit :=
  match opened p with
  | Some _ =>
      ({| listings := listings p; opened := opened p;
          field := field p ++ [s] |}, Ok tt)
  | None => (p, Err TimeoutException)
  end.

Definition apply (p : page) : page * reply unit := (p, Ok tt).

#[global] Instance browser : Browser page := {
  driver_get := get;
  pricing_modal := modal;
  settlement_value := value;
  type_settlement := type;
  click_apply := apply
}.

Definition dashboard (l : list (string * spec_float)) : page :=
  {| listings := l; opened := None; field := [] |}.

End Sim.


(** ** Runs and their shape *)

Definition trace_of {W A : Type} (r : W * trace * outcome A) : trace :=
  snd (fst r).

Definition outcome_of {W A : Type} (r : W * trace * outcome A) : outcome A :=
  snd r.

(** The events of one pass of the loop body that applies [v]. *)
Definition pass (v : spec_float) : trace :=
  [Log (Bumping (PyFloat.format_2f v)); call_set_and_apply v;
   send_keys (PyFloat.format_2f v)].

(** The shapes a run of the stepping loop can have, from the tracked value
    [c]: the guard fails; the fuel is spent; typing or clicking raises; or
    a pass completes and the loop goes on from the applied value. *)
Inductive loop_run (target : spec_float)
  : spec_float -> trace -> outcome unit -> Prop :=
| loop_exit (c : spec_float) :
    (c <? target)%py = false ->
    loop_run target c [] (Val tt)
| loop_spent (c : spec_float) :
    (c <? target)%py = true ->
    loop_run target c [] OutOfFuel
| loop_type_raises (c : spec_float) (e : exn) :
    (c <? target)%py = true ->
    loop_run target c
      [Log (Bumping (PyFloat.format_2f (next_value c target)));
       call_set_and_apply (next_value c target); raised e] (Exc e)
| loop_click_raises (c : spec_float) (e : exn) :
    (c <? target)%py = true ->
    loop_run target c (pass (next_value c target) ++ [raised e]) (Exc e)
| loop_pass (c : spec_float) (tr : trace) (o : outcome unit) :
    (c <? target)%py = true ->
    loop_run target (next_value c target) tr o ->
    loop_run target c (pass (next_value c target) ++ tr) o.

(** [chain target c l]: the values [l] are what the loop applies from the
    tracked value [c], each computed from the one applied before it. *)
Inductive chain (target : spec_float)
  : spec_float -> list spec_float -> Prop :=
| chain_nil (c : spec_float) : chain target c []
| chain_cons (c : spec_float) (l : list spec_float) :
    (c <? target)%py = true ->
    chain target (next_value c target) l ->
    chain target c (next_value c target :: l).

Fixpoint nondecreasing (l : list spec_float) : Prop :=
  match l with
  | a :: (b :: _) as l' => (a <=? b)%py = true /\ nondecreasing l'
  | _ => True
  end.

(** Every value of [l] is at most the growth factor times the value before
    it ([c] for the first), and is that product unless it is the target. *)
Fixpoint step_bounded (target c : spec_float) (l : list spec_float) : Prop :=
  match l with
  | v :: l' =>
      (v <=? c * PyFloat.GROWTH_FACTOR)%py = true /\
      (v = (c * PyFloat.GROWTH_FACTOR)%py \/ v = target) /\
      step_bounded target v l'
  | [] => True
  end.

(** Is the first adapter call of [tr] a read (rather than another apply,
    or none)? *)
Fixpoint read_comes_next (tr : trace) : bool :=
  match tr with
  | call_get_settlement :: _ => true
  | call_set_and_apply _ :: _ => false
  | _ :: tr' => read_comes_next tr'
  | [] => false
  end.

(** Is every apply followed by a read before the tracked value is used
    again? *)
Fixpoint reread_after_apply (tr : trace) : bool :=
  match tr with
  | call_set_and_apply _ :: tr' => read_comes_next tr' && reread_after_apply tr'
  | _ :: tr' => reread_after_apply tr'
  | [] => true
  end.

(** Is some apply followed, anywhere later, by a call to
    [_get_settlement]? *)
Fixpoint read_after_apply (tr : trace) : bool :=
  match tr with
  | call_set_and_apply _ :: tr' =>
      negb (Nat.eqb (read_calls tr') 0) || read_after_apply tr'
  | _ :: tr' => read_after_apply tr'
  | [] => false
  end.

(** Does the SKU cell of a row hold text, and the SKU its task is then run
    with. *)
Definition has_text (r : row) : bool :=
  match SKU r with
  | Text _ => true
  | Blank => false
  end.

Definition sku_of (r : row) : string :=
  match SKU r with
  | Text s => strip s
  | Blank => EmptyString
  end.

(** The events of a task up to its loop, and what closes it. *)
Definition task_head (sku : string) (c target : spec_float) : trace :=
  [call_open_listing sku; Log (Navigating sku);
   call_open_pricing_modal sku; call_get_settlement; got_settlement c;
   Log (Starting (PyFloat.format_2f c) (PyFloat.format_2f target))].

Definition closing (sku : string) (o : outcome unit) : trace :=
  match o with
  | Val _ => [Log (Done sku)]
  | Exc e => [Log (Failed sku e)]
  | OutOfFuel => []
  end.

(** [except Exception] turns a raised exception into a normal return. *)
Definition contained (o : outcome unit) : outcome unit :=
  match o with
  | OutOfFuel => OutOfFuel
  | _ => Val tt
  end.

(** The shapes a run of [update_price_for] can have: one of the three
    calls before the loop raises, or the read gives [c] and the loop
    runs. *)
Inductive task_run (sku : string) (target : spec_float)
  : trace -> outcome unit -> Prop :=
| task_get_raises (e : exn) :
    task_run sku target
      [call_open_listing sku; Log (Navigating sku); raised e;
       Log (Failed sku e)]
      (Val tt)
| task_modal_raises (e : exn) :
    task_run sku target
      [call_open_listing sku; Log (Navigating sku);
       call_open_pricing_modal sku; raised e; Log (Failed sku e)]
      (Val tt)
| task_read_raises (e : exn) :
    task_run sku target
      [call_open_listing sku; Log (Navigating sku);
       call_open_pricing_modal sku; call_get_settlement; raised e;
       Log (Failed sku e)]
      (Val tt)
| task_loop (c : spec_float) (tr : trace) (o : outcome unit) :
    loop_run target c tr o ->
    task_run sku target (task_head sku c target ++ tr ++ closing sku o)
             (contained o).

(** ** The scenario values *)

Definition price_0 : spec_float := S754_zero false.
Definition price_99 : spec_float := Eval vm_compute in PyFloat.of_Z_literal 99.
Definition price_100 : spec_float := Eval vm_compute in PyFloat.of_Z_literal 100.
Definition price_105 : spec_float := Eval vm_compute in PyFloat.of_Z_literal 105.
Definition NaN : spec_float := S754_nan.

(** The scenario from 100 to 105: 100 * 1.0199, and that times 1.0199. *)
Definition step_1 : spec_float := S754_finite false 7176908218679952 (-46).
Definition step_2 : spec_float := S754_finite false 7319728692231683 (-46).

Definition one_listing (v : spec_float) : Sim.page :=
  Sim.dashboard [("SKU1"%string, v)].

(** The sheets of the examples: a SKU that has no listing between two that
    have one, and a blank SKU cell before a good row. *)
Definition two_listings : Sim.page :=
  Sim.dashboard [("SKU1"%string, price_100); ("SKU3"%string, price_100)].

Definition three_rows : list row :=
  [{| SKU := Text " SKU1 "; FinalPrice := price_105 |};
   {| SKU := Text "SKU2"; FinalPrice := price_105 |};
   {| SKU := Text "SKU3"; FinalPrice := price_99 |}].

Definition blank_then_good : list row :=
  [{| SKU := Blank; FinalPrice := price_105 |};
   {| SKU := Text "SKU1"; FinalPrice := price_105 |}].


(** ** More of what a trace shows *)

(** The adapter methods, as called. *)
Inductive adapter_call : Type :=
| OpenListing (sku : string)
| OpenPricingModal (sku : string)
| GetSettlement
| SetAndApply (val : spec_float).

Fixpoint calls (tr : trace) : list adapter_call :=
  match tr with
  | call_open_listing sku :: tr' => OpenListing sku :: calls tr'
  | call_open_pricing_modal sku :: tr' => OpenPricingModal sku :: calls tr'
  | call_get_settlement :: tr' => GetSettlement :: calls tr'
  | call_set_and_apply v :: tr' => SetAndApply v :: calls tr'
  | _ :: tr' => calls tr'
  | [] => []
  end.

(** The lines of the log, in order. *)
Fixpoint logged (tr : trace) : list log_line :=
  match tr with
  | Log l :: tr' => l :: logged tr'
  | _ :: tr' => logged tr'
  | [] => []
  end.

(** The log line that closes a reported task. *)
Definition closing_line (r : string * verdict) : log_line :=
  match snd r with
  | Succeeded => Done (fst r)
  | FailedWith e => Failed (fst r) e
  end.

(** Each value strictly below the next one; each value at least the next
    one. *)
Fixpoint increasing (l : list spec_float) : Prop :=
  match l with
  | a :: (b :: _) as l' => (a <? b)%py = true /\ increasing l'
  | _ => True
  end.

Fixpoint nonincreasing (l : list spec_float) : Prop :=
  match l with
  | a :: (b :: _) as l' => (b <=? a)%py = true /\ nonincreasing l'
  | _ => True
  end.

(** A zero or a finite number: what [.2f] writes with digits. *)
Definition finite (x : spec_float) : bool :=
  match x with
  | S754_zero _ | S754_finite _ _ _ => true
  | _ => false
  end.

(** The shapes a run of the batch loop can have over the rows [df]: the
    rows are exhausted; the SKU cell of the first row is blank; the loop of
    the first row's task outlasts the fuel; or the first row's task ends and
    the loop goes on with the rows after it. *)
Inductive batch_run : list row -> trace -> outcome unit -> Prop :=
| batch_end : batch_run [] [] (Val tt)
| batch_blank (r : row) (rest : list row) :
    has_text r = false ->
    batch_run (r :: rest) [] (Exc AttributeError)
| batch_spent (r : row) (rest : list row) (tr : trace) :
    has_text r = true ->
    task_run (sku_of r) (FinalPrice r) tr OutOfFuel ->
    batch_run (r :: rest) tr OutOfFuel
| batch_next (r : row) (rest : list row) (tr tr' : trace)
    (o : outcome unit) :
    has_text r = true ->
    task_run (sku_of r) (FinalPrice r) tr (Val tt) ->
    batch_run rest tr' o ->
    batch_run (r :: rest) (tr ++ tr') o.

(** ** The process: [__init__], [quit] and [main] *)

Definition EXCEL_PATH : string := "input.xlsx".

Definition SELENIUM_PROFILE : string :=
  "C:\Users\DELL\AppData\Local\Google\Chrome\SeleniumProfile".

(** The Chrome options: the command-line arguments and the experimental
    options. *)
Record Options : Type := {
  arguments : list string;
  experimental_options : list (string * list string)
}.

(** What [argparse] hands to [main]: [--excel], [--login-wait] (an [int])
    and [--no-headless]. *)
Record Namespace : Type := {
  excel : string;
  login_wait : Z;
  no_headless : bool
}.

(** The command line with no option given. *)
Definition no_option : Namespace :=
  {| excel := EXCEL_PATH; login_wait := 60; no_headless := false |}.

(** What the machine answers outside the browser session:
    [os.makedirs(path, exist_ok=True)] succeeds or raises [OSError];
    [webdriver.Chrome(service=service, options=opts)] gives a session or
    raises; [pd.read_excel(path, dtype=...)] gives the rows or raises;
    [driver.quit()] may raise. *)
Class Host (W : Type) : Type := {
  os_makedirs : string -> bool;
  Chrome : Options -> reply W;
  read_excel : string -> reply (list row);
  driver_quit : W -> W * reply unit
}.

(** An exception that leaves [main]: [OSError] or [OverflowError], which
    are not among those of [exn], or one of those. *)
Inductive uncaught : Type :=
| OSError
| OverflowError
| Exn (e : exn).

(** [time.sleep(secs)] on an [int]: the length is taken in nanoseconds as
    a signed 64-bit integer, and [OverflowError] is raised when it does not
    fit; a negative length raises [ValueError]; otherwise the call
    returns. *)
Definition time_sleep (secs : Z) : option uncaught :=
  let ns := secs * 10 ^ 9 in
  if (ns <? - 2 ^ 63) || (2 ^ 63 - 1 <? ns) then Some OverflowError
  else if secs <? 0 then Some (Exn ValueError)
  else None.

(** How the process ends: [main] returns, an exception leaves it, or a
    loop is still running when the fuel is spent. *)
Inductive ending : Type :=
| Returned
| Traceback (e : uncaught)
| Running.

Inductive info_line : Type :=
| Launching
| LoginWithin (seconds : Z)
| ClosingChrome.

(** What is observed of the process, in order: the calls made outside the
    task loop, the session coming to life, the events of the task loop, and
    the lines logged outside it.  [login_sleep] is the call
    [time.sleep(login_wait)] of [__init__] and no other: the fixed delays
    that the adapter methods sleep after a browser interaction are not
    events of the model. *)
Inductive process_event : Type :=
| call_makedirs (path : string)
| call_Chrome (opts : Options)
| chrome_running
| login_sleep (seconds : Z)
| call_read_excel (path : string)
| in_session (ev : event)
| call_quit
| Info (l : info_line).

Record PriceUpdateBot (W : Type) : Type := {
  excel_path : string;
  driver : W
}.
Arguments excel_path {W} _.
Arguments driver {W} _.

(** What a constructor call gives. *)
Inductive constructed (A : Type) : Type :=
| Built (a : A)
| Died (e : uncaught).
Arguments Built {A} a.
Arguments Died {A} e.

Definition chrome_options (headless : bool) : Options :=
  {| arguments :=
       [("--user-data-dir=" ++ SELENIUM_PROFILE)%string] ++
       (if headless then ["--headless=new"%string] else []) ++
       ["--disable-blink-features=AutomationControlled"%string;
        "--password-store=basic"%string];
     experimental_options :=
       [("excludeSwitches"%string, ["enable-automation"%string])] |}.

Section Process.

Context {W : Type} `{Browser W} `{Host W}.

Definition __init__ (path : string) (login_wait : Z) (headless : bool)
  : list process_event * constructed (PriceUpdateBot W) :=
  let opts := chrome_options headless in
  if os_makedirs SELENIUM_PROFILE then
    match Chrome opts with
    | Ok w =>
        let t := [call_makedirs SELENIUM_PROFILE; Info Launching;
                  call_Chrome opts; chrome_running;
                  Info (LoginWithin login_wait); login_sleep login_wait] in
        match time_sleep login_wait with
        | Some e => (t, Died e)
        | None => (t, Built {| excel_path := path; driver := w |})
        end
    | Err e =>
        ([call_makedirs SELENIUM_PROFILE; Info Launching; call_Chrome opts],
         Died (Exn e))
    end
  else ([call_makedirs SELENIUM_PROFILE], Died OSError).

(** The method [run], on the bot: the sheet is read, then the rows are
    gone through. *)
Definition bot_run (fuel : nat) (bot : PriceUpdateBot W)
  : PriceUpdateBot W * list process_event * outcome unit :=
  let '(w1, tr, o) := run fuel (read_excel (excel_path bot)) (driver bot) in
  ({| excel_path := excel_path bot; driver := w1 |},
   call_read_excel (excel_path bot) :: map in_session tr, o).

Definition quit (bot : PriceUpdateBot W)
  : PriceUpdateBot W * list process_event * outcome unit :=
  let '(w1, r) := driver_quit (driver bot) in
  ({| excel_path := excel_path bot; driver := w1 |},
   [Info ClosingChrome; call_quit],
   match r with
   | Ok _ => Val tt
   | Err e => Exc e
   end).

(** [try: body finally: final]: [final] runs when [body] returns and when
    it raises; an exception raised by [final] is the one that goes on. *)
Definition try_finally {St A : Type}
    (body : St -> St * list process_event * outcome A)
    (final : St -> St * list process_event * outcome unit)
  : St -> St * list process_event * outcome A :=
  fun s =>
    match body s with
    | (s1, t1, OutOfFuel) => (s1, t1, OutOfFuel)
    | (s1, t1, o) =>
        match final s1 with
        | (s2, t2, Val _) => (s2, t1 ++ t2, o)
        | (s2, t2, Exc e) => (s2, t1 ++ t2, Exc e)
        | (s2, t2, OutOfFuel) => (s2, t1 ++ t2, OutOfFuel)
        end
    end.

Definition main (fuel : nat) (args : Namespace)
  : list process_event * ending :=
  match __init__ (excel args) (login_wait args) (negb (no_headless args)) with
  | (t0, Died e) => (t0, Traceback e)
  | (t0, Built bot) =>
      let '(_, t1, o) := try_finally (bot_run fuel) quit bot in
      (t0 ++ t1,
       match o with
       | Val _ => Returned
       | Exc e => Traceback (Exn e)
       | OutOfFuel => Running
       end)
  end.

End Process.

(** What the trace of the process shows: the events of the task loop, the
    lengths of the login waits slept, the options Chrome was started with,
    the numbers of sessions started and of calls to [driver.quit], and the
    sheets read. *)
Fixpoint session_events (t : list process_event) : trace :=
  match t with
  | in_session ev :: t' => ev :: session_events t'
  | _ :: t' => session_events t'
  | [] => []
  end.

Fixpoint login_sleeps (t : list process_event) : list Z :=
  match t with
  | login_sleep n :: t' => n :: login_sleeps t'
  | _ :: t' => login_sleeps t'
  | [] => []
  end.

Fixpoint launches (t : list process_event) : list Options :=
  match t with
  | call_Chrome opts :: t' => opts :: launches t'
  | _ :: t' => launches t'
  | [] => []
  end.

Fixpoint sessions (t : list process_event) : nat :=
  match t with
  | chrome_running :: t' => S (sessions t')
  | _ :: t' => sessions t'
  | [] => O
  end.

Fixpoint quit_calls (t : list process_event) : nat :=
  match t with
  | call_quit :: t' => S (quit_calls t')
  | _ :: t' => quit_calls t'
  | [] => O
  end.

Fixpoint sheets_read (t : list process_event) : list string :=
  match t with
  | call_read_excel path :: t' => path :: sheets_read t'
  | _ :: t' => sheets_read t'
  | [] => []
  end.

(** A machine on which everything outside the session succeeds: Chrome
    opens on the dashboard with the listings [l], and the sheet holds
    [sheet]. *)
Definition sim_host (l : list (string * spec_float))
    (sheet : reply (list row)) : Host Sim.page :=
  {| os_makedirs := fun _ => true;
     Chrome := fun _ => Ok (Sim.dashboard l);
     read_excel := fun _ => sheet;
     driver_quit := fun p => (p, Ok tt) |}.

(** One ulp is [2^-46] at 100: the second number above 100. *)
Definition price_100_and_2_ulp : spec_float :=
  S754_finite false 7036874417766402 (-46).

Definition price_minus_100 : spec_float :=
  S754_finite true 7036874417766400 (-46).

(** A machine on which Chrome does not start. *)
Definition no_chrome : Host Sim.page :=
  {| os_makedirs := fun _ => true;
     Chrome := fun _ => Err WebDriverException;
     read_excel := fun _ => Ok [];
     driver_quit := fun p => (p, Ok tt) |}.

(** The sheet of one row, and the command lines that make the login wait
    negative and too long for [time.sleep]. *)
Definition one_row : list row :=
  [{| SKU := Text "SKU1"; FinalPrice := price_105 |}].

Definition negative_wait : Namespace :=
  {| excel := EXCEL_PATH; login_wait := -1; no_headless := false |}.

Definition endless_wait : Namespace :=
  {| excel := EXCEL_PATH; login_wait := 9223372037; no_headless := false |}.

(** White space that is not ASCII, in UTF-8: the no-break space U+00A0,
    the next line U+0085 and the em space U+2003; and the zero-width space
    U+200B, which is no white space. *)
Definition nbsp : string :=
  String (ascii_of_nat 194) (String (ascii_of_nat 160) EmptyString).
Definition nel : string :=
  String (ascii_of_nat 194) (String (ascii_of_nat 133) EmptyString).
Definition emsp : string :=
  String (ascii_of_nat 226)
    (String (ascii_of_nat 128) (String (ascii_of_nat 131) EmptyString)).
Definition zwsp : string :=
  String (ascii_of_nat 226)
    (String (ascii_of_nat 128) (String (ascii_of_nat 139) EmptyString)).

(** The machine of the examples: one listing at 100, and a sheet of one
    row that asks for 105. *)
Definition desk : Host Sim.page :=
  sim_host [("SKU1"%string, price_100)] (Ok one_row).


(** * Facts *)

(** ** Facts about binary64 comparison and multiplication *)

Module PyFloatFacts.
Import PyFloat.

(** The constants are the ones the machine computes with: the primitive
    floats of the kernel read the literals and multiply as written here. *)

Example growth_factor_literal :
  Prim2SF 0x1.05182a9930be1p+0%float = GROWTH_FACTOR.
Proof. reflexivity. Qed.

(** No binary64 number is nearer to 10199/10000: the distance is at most
    half a unit in the last place, [2^-53]. *)
Example growth_factor_nearest :
  match GROWTH_FACTOR with
  | S754_finite false m (-52) =>
      2 * Z.abs (Zpos m * 10000 - 10199 * 2 ^ 52) <= 10000
  | _ => False
  end.
Proof. apply Z.leb_le. reflexivity. Qed.

Example growth_factor_valid : valid GROWTH_FACTOR = true.
Proof. reflexivity. Qed.

Example scenario_values_primitive :
  Prim2SF 100%float = price_100 /\
  Prim2SF 105%float = price_105 /\
  Prim2SF (100 * 0x1.05182a9930be1p+0)%float = step_1 /\
  Prim2SF (100 * 0x1.05182a9930be1p+0 * 0x1.05182a9930be1p+0)%float
    = step_2.
Proof. repeat split; reflexivity. Qed.

Example scenario_values_modelled :
  (price_100 * GROWTH_FACTOR)%py = step_1 /\
  (step_1 * GROWTH_FACTOR)%py = step_2 /\
  (step_2 * GROWTH_FACTOR >? price_105)%py = true.
Proof. repeat split; reflexivity. Qed.

Lemma compare_antisym (x y : spec_float) (c : comparison) :
  SFcompare x y = Some c -> SFcompare y x = Some (CompOpp c).
Proof.
  destruct x as [sx|sx| |sx mx ex], y as [sy|sy| |sy my ey]; simpl;
    try discriminate;
    try (destruct sx); try (destruct sy); simpl;
    try (intros [= <-]; reflexivity).
  - intros [= <-]. rewrite (Z.compare_antisym ey ex).
    destruct (ey ?= ex); simpl; try reflexivity.
    rewrite (Pos.compare_cont_antisym mx my Eq). reflexivity.
  - intros [= <-]. rewrite (Z.compare_antisym ey ex).
    destruct (ey ?= ex); simpl; try reflexivity.
    rewrite (Pos.compare_cont_antisym mx my Eq). reflexivity.
Qed.

Lemma compare_total (x y : spec_float) :
  is_nan x = false -> is_nan y = false ->
  exists c, SFcompare x y = Some c.
Proof.
  destruct x, y; simpl; try discriminate; intros _ _; eexists; reflexivity.
Qed.

Lemma compare_nan (x y : spec_float) (c : comparison) :
  SFcompare x y = Some c -> is_nan x = false /\ is_nan y = false.
Proof.
  destruct x, y; simpl; try discriminate; auto.
Qed.

Lemma ltb_not_nan (x y : spec_float) :
  ltb x y = true -> is_nan x = false /\ is_nan y = false.
Proof.
  unfold ltb, SFltb. destruct (SFcompare x y) as [c|] eqn:E; [|discriminate].
  intros _. exact (compare_nan _ _ _ E).
Qed.

(** Without NaN the order is total: [not (y < x)] is [x <= y]. *)
Lemma not_ltb_leb (x y : spec_float) :
  is_nan x = false -> is_nan y = false ->
  ltb y x = false -> leb x y = true.
Proof.
  intros Hx Hy. destruct (compare_total y x Hy Hx) as [c E].
  unfold ltb, leb, SFltb, SFleb. rewrite E, (compare_antisym _ _ _ E).
  destruct c; simpl; congruence.
Qed.

Lemma ltb_leb (x y : spec_float) : ltb x y = true -> leb x y = true.
Proof.
  unfold ltb, leb, SFltb, SFleb. destruct (SFcompare x y) as [[]|]; congruence.
Qed.

Lemma leb_not_ltb (x y : spec_float) : leb x y = true -> ltb y x = false.
Proof.
  unfold ltb, leb, SFltb, SFleb.
  destruct (SFcompare x y) as [c|] eqn:E; [|discriminate].
  rewrite (compare_antisym _ _ _ E). destruct c; simpl; congruence.
Qed.

Lemma leb_refl (x : spec_float) : is_nan x = false -> leb x x = true.
Proof.
  unfold leb, SFleb. destruct x as [s|s| |s m e]; simpl; try discriminate;
    intros _; try (destruct s; reflexivity).
  destruct s; rewrite Z.compare_refl, Pos.compare_cont_refl; reflexivity.
Qed.

(** *** Shifting keeps a mantissa non-negative *)

Lemma shr_1_nonneg (mrs : shr_record) :
  0 <= shr_m mrs -> 0 <= shr_m (shr_1 mrs).
Proof.
  destruct mrs as [m r s]. simpl.
  destruct m as [|[p|p|]|p]; simpl; lia.
Qed.

Lemma iter_shr_1_nonneg (p : positive) (mrs : shr_record) :
  0 <= shr_m mrs -> 0 <= shr_m (iter_pos shr_1 p mrs).
Proof.
  revert mrs. induction p as [p IH|p IH|]; simpl; intros mrs Hm.
  - apply IH, IH, shr_1_nonneg, Hm.
  - apply IH, IH, Hm.
  - apply shr_1_nonneg, Hm.
Qed.

Lemma shr_record_of_loc_m (m : Z) (l : location) :
  shr_m (shr_record_of_loc m l) = m.
Proof. destruct l as [|[]]; reflexivity. Qed.

Lemma shr_nonneg (mrs : shr_record) (e n : Z) :
  0 <= shr_m mrs -> 0 <= shr_m (fst (shr mrs e n)).
Proof.
  intros Hm. destruct n; simpl; trivial. apply iter_shr_1_nonneg, Hm.
Qed.

Lemma shr_fexp_nonneg (m e : Z) (l : location) :
  0 <= m -> 0 <= shr_m (fst (shr_fexp prec emax m e l)).
Proof.
  intros Hm. unfold shr_fexp. apply shr_nonneg.
  rewrite shr_record_of_loc_m. exact Hm.
Qed.

Lemma round_nearest_even_nonneg (m : Z) (l : location) :
  0 <= m -> 0 <= round_nearest_even m l.
Proof.
  intros Hm. destruct l as [|[]]; simpl; try lia.
  destruct (Z.even m); lia.
Qed.

Lemma binary_round_aux_not_nan (s : bool) (m : positive) (e : Z) (l : location) :
  is_nan (binary_round_aux prec emax s (Zpos m) e l) = false.
Proof.
  unfold binary_round_aux.
  pose proof (shr_fexp_nonneg (Zpos m) e l ltac:(lia)) as H1.
  destruct (shr_fexp prec emax (Zpos m) e l) as [mrs' e'].
  simpl in H1.
  pose proof (shr_fexp_nonneg
                (round_nearest_even (shr_m mrs') (loc_of_shr_record mrs'))
                e' loc_Exact
                (round_nearest_even_nonneg _ _ H1)) as H2.
  destruct (shr_fexp prec emax _ e' loc_Exact) as [mrs'' e''].
  simpl in H2.
  destruct (shr_m mrs'') as [|p|p]; simpl.
  - reflexivity.
  - destruct (_ <=? _); reflexivity.
  - lia.
Qed.

(** Multiplying by the growth factor never produces a NaN out of a
    number. *)
Lemma mul_growth_not_nan (x : spec_float) :
  is_nan x = false -> is_nan (mul x GROWTH_FACTOR) = false.
Proof.
  destruct x as [s|s| |s m e]; simpl; try discriminate; intros _;
    try reflexivity.
  apply binary_round_aux_not_nan.
Qed.

End PyFloatFacts.

(** ** Rounding a product to binary64 *)

Module RoundingFacts.
Import PyFloat PyFloatFacts.

Lemma digits2_pos_size (p : positive) : digits2_pos p = Pos.size p.
Proof. induction p as [p IH|p IH|]; simpl; rewrite ?IH; reflexivity. Qed.

Lemma digits_pos (p : positive) : 0 < digits p.
Proof. unfold digits. lia. Qed.

(** [p] has [digits p] binary digits. *)
Lemma digits_bounds (p : positive) :
  2 ^ (digits p - 1) <= Zpos p < 2 ^ digits p.
Proof.
  unfold digits. rewrite digits2_pos_size. split.
  - pose proof (Pos.size_le p) as Hle.
    apply Pos2Z.pos_le_pos in Hle.
    rewrite Pos2Z.inj_pow in Hle.
    replace (Zpos (Pos.size p)) with (Z.succ (Zpos (Pos.size p) - 1))
      in Hle by lia.
    rewrite Z.pow_succ_r in Hle by lia.
    change (Zpos p~0) with (2 * Zpos p) in Hle. lia.
  - pose proof (Pos.size_gt p) as Hgt.
    apply Pos2Z.pos_lt_pos in Hgt.
    rewrite Pos2Z.inj_pow in Hgt. exact Hgt.
Qed.

Lemma digits_unique (p : positive) (d : Z) :
  2 ^ (d - 1) <= Zpos p < 2 ^ d -> digits p = d.
Proof.
  intros [Hlo Hhi]. destruct (digits_bounds p) as [Hlo' Hhi'].
  pose proof (digits_pos p) as Hd.
  assert (0 < d).
  { destruct (Z.lt_trichotomy d 0) as [Hn|[Hz|Hp]]; [| |exact Hp].
    - rewrite Z.pow_neg_r in Hhi by lia. lia.
    - subst d. simpl in Hhi. lia. }
  assert (d - 1 < digits p).
  { apply (Z.pow_lt_mono_r_iff 2); lia. }
  assert (digits p - 1 < d).
  { apply (Z.pow_lt_mono_r_iff 2); lia. }
  lia.
Qed.

Lemma digits_le (p q : positive) :
  (p <= q)%positive -> digits p <= digits q.
Proof.
  intros Hpq. destruct (digits_bounds p) as [Hlo _].
  destruct (digits_bounds q) as [_ Hhi].
  pose proof (digits_pos q).
  assert (digits p - 1 < digits q).
  { apply (Z.pow_lt_mono_r_iff 2); lia. }
  lia.
Qed.

(** Dropping [n] low digits of a number that has more than [n]. *)
Lemma digits_div_pow2 (p q : positive) (n : Z) :
  0 <= n < digits p ->
  Zpos q = Zpos p / 2 ^ n ->
  digits q = digits p - n.
Proof.
  intros Hn Hq. destruct (digits_bounds p) as [Hlo Hhi].
  assert (Hpow : 0 < 2 ^ n) by (apply Z.pow_pos_nonneg; lia).
  apply digits_unique. rewrite Hq. split.
  - apply Z.div_le_lower_bound; [exact Hpow|].
    rewrite <- Z.pow_add_r by lia.
    replace (n + (digits p - n - 1)) with (digits p - 1) by lia.
    exact Hlo.
  - apply Z.div_lt_upper_bound; [exact Hpow|].
    rewrite <- Z.pow_add_r by lia.
    replace (n + (digits p - n)) with (digits p) by lia.
    exact Hhi.
Qed.

(** *** Shifting right divides by a power of two *)

Lemma shr_1_m (mrs : shr_record) :
  0 <= shr_m mrs -> shr_m (shr_1 mrs) = shr_m mrs / 2.
Proof.
  destruct mrs as [m r s]. simpl.
  destruct m as [|[p|p|]|p]; simpl; intros Hm; try reflexivity; try lia.
  - apply (Z.div_unique (Zpos p~1) 2 (Zpos p) 1); lia.
  - apply (Z.div_unique (Zpos p~0) 2 (Zpos p) 0); lia.
Qed.

Lemma iter_shr_1_m (p : positive) (mrs : shr_record) :
  0 <= shr_m mrs ->
  shr_m (iter_pos shr_1 p mrs) = shr_m mrs / 2 ^ Zpos p.
Proof.
  revert mrs. induction p as [p IH|p IH|]; intros mrs Hm; simpl iter_pos.
  - rewrite IH, IH, shr_1_m; trivial;
      [|apply shr_1_nonneg, Hm|apply iter_shr_1_nonneg, shr_1_nonneg, Hm].
    rewrite !Z.div_div by (try apply Z.pow_pos_nonneg; lia).
    f_equal. rewrite <- Z.pow_add_r, <- Z.pow_succ_r by lia.
    f_equal. lia.
  - rewrite IH, IH; trivial; [|apply iter_shr_1_nonneg, Hm].
    rewrite !Z.div_div by (try apply Z.pow_pos_nonneg; lia).
    f_equal. rewrite <- Z.pow_add_r by lia. f_equal. lia.
  - rewrite shr_1_m by exact Hm. reflexivity.
Qed.

(** [shr] on a non-negative mantissa, by cases on the shift. *)
Lemma shr_spec (m e n : Z) (l : location) :
  0 <= m ->
  (n <= 0 /\ shr (shr_record_of_loc m l) e n = (shr_record_of_loc m l, e)) \/
  (0 < n /\ snd (shr (shr_record_of_loc m l) e n) = e + n /\
   shr_m (fst (shr (shr_record_of_loc m l) e n)) = m / 2 ^ n).
Proof.
  intros Hm. destruct n as [|p|p]; simpl.
  - left. split; [lia|reflexivity].
  - right. split; [lia|]. split; [reflexivity|].
    rewrite iter_shr_1_m; rewrite shr_record_of_loc_m; trivial.
  - left. split; [lia|reflexivity].
Qed.

Lemma round_nearest_even_cases (m : Z) (l : location) :
  round_nearest_even m l = m \/ round_nearest_even m l = m + 1.
Proof.
  destruct l as [|[]]; simpl; auto. destruct (Z.even m); auto.
Qed.

End RoundingFacts.

Module ProductFacts.
Import PyFloat PyFloatFacts RoundingFacts.

Lemma fexp_eq (z : Z) : fexp prec emax z = Z.max (z - 53) (-1074).
Proof. reflexivity. Qed.

Lemma bounded_eq (m : positive) (e : Z) :
  bounded prec emax m e = true <->
  Z.max (digits m + e - 53) (-1074) = e /\ e <= 971.
Proof.
  unfold bounded, canonical_mantissa. rewrite fexp_eq.
  change (emax - prec) with 971. fold (digits m).
  rewrite andb_true_iff, Z.eqb_eq, Z.leb_le. reflexivity.
Qed.

Lemma shr_fexp_spec (q : positive) (e : Z) (l : location) :
  let n := Z.max (digits q + e - 53) (-1074) - e in
  (n <= 0 /\
   shr_fexp prec emax (Zpos q) e l = (shr_record_of_loc (Zpos q) l, e)) \/
  (0 < n /\
   snd (shr_fexp prec emax (Zpos q) e l) = e + n /\
   shr_m (fst (shr_fexp prec emax (Zpos q) e l)) = Zpos q / 2 ^ n).
Proof.
  intros n. unfold shr_fexp. rewrite fexp_eq.
  change (Zdigits2 (Zpos q)) with (digits q). fold n.
  apply shr_spec. lia.
Qed.

(** The digits of a product with a 53-digit factor. *)
Lemma digits_mul_53 (m g : positive) :
  2 ^ 52 <= Zpos g < 2 ^ 53 ->
  digits m + 52 <= digits (m * g).
Proof.
  intros [Hlo Hhi]. destruct (digits_bounds m) as [Hm _].
  destruct (digits_bounds (m * g)) as [_ HM].
  pose proof (digits_pos m). pose proof (digits_pos (m * g)).
  rewrite Pos2Z.inj_mul in HM.
  assert (Hp : 2 ^ (digits m - 1) * 2 ^ 52 <= Zpos m * Zpos g)
    by (apply Z.mul_le_mono_nonneg; lia).
  rewrite <- Z.pow_add_r in Hp by lia.
  assert (digits m - 1 + 52 < digits (m * g)).
  { apply (Z.pow_lt_mono_r_iff 2); lia. }
  lia.
Qed.

(** Dropping the 52 low digits of a product by a 53-digit factor. *)
Lemma product_quotient_ge (m g : positive) :
  2 ^ 52 <= Zpos g -> Zpos m <= Zpos (m * g) / 2 ^ 52.
Proof.
  intros Hg. apply Z.div_le_lower_bound; [lia|].
  rewrite Pos2Z.inj_mul. nia.
Qed.

Lemma product_quotient_gt (m g : positive) :
  2 ^ 52 < Zpos g -> 2 ^ 52 <= Zpos m -> Zpos m < Zpos (m * g) / 2 ^ 52.
Proof.
  intros Hg Hm.
  enough (Zpos m + 1 <= Zpos (m * g) / 2 ^ 52) by lia.
  apply Z.div_le_lower_bound; [lia|].
  rewrite Pos2Z.inj_mul. nia.
Qed.

(** Rounding the product of a valid positive number [m * 2^e] by a factor
    [g * 2^-52] with [1 <= g * 2^-52 < 2]: the result is plus infinity or a
    valid number that is not below [m * 2^e]: its exponent is greater, or
    the same with a mantissa that is at least the quotient of the product
    by [2^52]. *)
Lemma round_product (m g : positive) (e : Z) :
  bounded prec emax m e = true ->
  2 ^ 52 <= Zpos g < 2 ^ 53 ->
  binary_round_aux prec emax false (Zpos (m * g)) (e + -52) loc_Exact
    = S754_infinity false \/
  exists m' e',
    binary_round_aux prec emax false (Zpos (m * g)) (e + -52) loc_Exact
      = S754_finite false m' e' /\
    bounded prec emax m' e' = true /\
    (e < e' \/ (e = e' /\ Zpos (m * g) / 2 ^ 52 <= Zpos m')).
Proof.
  intros Hb Hg. apply bounded_eq in Hb as [Hcan Hmax].
  pose proof (digits_mul_53 m g Hg) as HdM.
  pose proof (digits_pos m) as Hdm.
  unfold binary_round_aux.
  (* the first shift *)
  pose proof (shr_fexp_spec (m * g) (e + -52) loc_Exact) as H1.
  cbv zeta in H1.
  set (dM := digits (m * g)) in *.
  set (n1 := Z.max (dM + (e + -52) - 53) (-1074) - (e + -52)) in *.
  destruct H1 as [[Hn1 _]|(Hn1 & He1 & Hm1)]; [lia|].
  destruct (shr_fexp prec emax (Zpos (m * g)) (e + -52) loc_Exact)
    as [mrs1 e1].
  simpl in He1, Hm1. subst e1.
  assert (Hn1d : n1 < dM) by lia.
  assert (Hpow1 : 0 < 2 ^ n1) by (apply Z.pow_pos_nonneg; lia).
  assert (Hm1pos : 0 < shr_m mrs1).
  { rewrite Hm1. apply Z.div_str_pos. split; [exact Hpow1|].
    destruct (digits_bounds (m * g)) as [Hlo _]. fold dM in Hlo.
    apply Z.le_trans with (2 ^ (dM - 1)); [|exact Hlo].
    apply Z.pow_le_mono_r; lia. }
  (* rounding *)
  set (m2 := round_nearest_even (shr_m mrs1) (loc_of_shr_record mrs1)).
  assert (Hm2 : shr_m mrs1 <= m2).
  { unfold m2.
    destruct (round_nearest_even_cases (shr_m mrs1)
                (loc_of_shr_record mrs1)) as [->| ->]; lia. }
  destruct (shr_m mrs1) as [|q1|q1] eqn:Eq1; try lia.
  destruct m2 as [|q2|q2] eqn:Eq2; try lia.
  assert (Hd1 : digits q1 = dM - n1).
  { apply (digits_div_pow2 (m * g) q1 n1); [lia|exact Hm1]. }
  assert (Hd2 : digits q1 <= digits q2) by (apply digits_le; lia).
  (* the second shift *)
  pose proof (shr_fexp_spec q2 (e + -52 + n1) loc_Exact) as H2.
  cbv zeta in H2.
  set (n2 := Z.max (digits q2 + (e + -52 + n1) - 53) (-1074)
             - (e + -52 + n1)) in *.
  destruct H2 as [[Hn2 E2]|(Hn2 & He2 & Hm3)].
  - rewrite E2. simpl.
    destruct (e + -52 + n1 <=? 971) eqn:Hle; [right|left; reflexivity].
    apply Z.leb_le in Hle.
    exists q2, (e + -52 + n1). split; [reflexivity|].
    split; [apply bounded_eq; lia|].
    destruct (Z.eq_dec (e + -52 + n1) e) as [Heq|Hne]; [right|left; lia].
    split; [lia|].
    assert (Hn52 : n1 = 52) by lia.
    assert (Zpos (m * g) / 2 ^ 52 = Zpos q1)
      by (rewrite Hm1, Hn52; reflexivity).
    lia.
  - destruct (shr_fexp prec emax (Zpos q2) (e + -52 + n1) loc_Exact)
      as [mrs3 e3].
    simpl in He2, Hm3. subst e3.
    assert (Hn2d : n2 < digits q2) by lia.
    assert (Hpow2 : 0 < 2 ^ n2) by (apply Z.pow_pos_nonneg; lia).
    assert (Hm3pos : 0 < shr_m mrs3).
    { rewrite Hm3. apply Z.div_str_pos. split; [exact Hpow2|].
      destruct (digits_bounds q2) as [Hlo _].
      apply Z.le_trans with (2 ^ (digits q2 - 1)); [|exact Hlo].
      apply Z.pow_le_mono_r; lia. }
    destruct (shr_m mrs3) as [|q3|q3] eqn:Eq3; try lia.
    change (emax - prec) with 971.
    destruct (e + -52 + n1 + n2 <=? 971) eqn:Hle; [right|left; reflexivity].
    apply Z.leb_le in Hle.
    exists q3, (e + -52 + n1 + n2). split; [reflexivity|].
    assert (Hd3 : digits q3 = digits q2 - n2).
    { apply (digits_div_pow2 q2 q3 n2); [lia|exact Hm3]. }
    split; [apply bounded_eq; lia|]. left. lia.
Qed.

End ProductFacts.

(** ** Multiplying by the growth factor *)

Module GrowthFacts.
Import PyFloat PyFloatFacts RoundingFacts ProductFacts.

Lemma growth_mantissa : 2 ^ 52 <= 4593221259955169 < 2 ^ 53.
Proof. split; [apply Z.leb_le|apply Z.ltb_lt]; reflexivity. Qed.

(** The sign given to [binary_round_aux] only signs its result. *)
Lemma binary_round_aux_opp (m : positive) (e : Z) (l : location) :
  binary_round_aux prec emax true (Zpos m) e l
    = SFopp (binary_round_aux prec emax false (Zpos m) e l).
Proof.
  unfold binary_round_aux.
  destruct (shr_fexp prec emax (Zpos m) e l) as [mrs1 e1].
  destruct (shr_fexp prec emax _ e1 loc_Exact) as [mrs2 e2].
  destruct (shr_m mrs2); try reflexivity.
  destruct (e2 <=? emax - prec); reflexivity.
Qed.

Lemma mul_growth_opp (m : positive) (e : Z) :
  mul (S754_finite true m e) GROWTH_FACTOR
    = SFopp (mul (S754_finite false m e) GROWTH_FACTOR).
Proof. apply binary_round_aux_opp. Qed.

Lemma compare_opp (x y : spec_float) :
  SFcompare (SFopp x) (SFopp y) = SFcompare y x.
Proof.
  destruct x as [sx|sx| |sx mx ex], y as [sy|sy| |sy my ey]; simpl;
    try reflexivity;
    try (destruct sx); try (destruct sy); simpl; try reflexivity.
  - rewrite (Z.compare_antisym ex ey).
    destruct (ex ?= ey); simpl; try reflexivity.
    rewrite (Pos.compare_cont_antisym my mx Eq). reflexivity.
  - rewrite (Z.compare_antisym ex ey).
    destruct (ex ?= ey); simpl; try reflexivity.
    rewrite (Pos.compare_cont_antisym mx my Eq). reflexivity.
Qed.

Lemma leb_opp (x y : spec_float) : leb (SFopp x) (SFopp y) = leb y x.
Proof. unfold leb, SFleb. rewrite compare_opp. reflexivity. Qed.

(** A valid positive number grows, or stays, when multiplied by the growth
    factor, and the product is a valid positive number or plus infinity. *)
Lemma mul_growth_positive (m : positive) (e : Z) :
  valid (S754_finite false m e) = true ->
  valid (mul (S754_finite false m e) GROWTH_FACTOR) = true /\
  positive_float (mul (S754_finite false m e) GROWTH_FACTOR) = true /\
  leb (S754_finite false m e) (mul (S754_finite false m e) GROWTH_FACTOR)
    = true.
Proof.
  intros Hv.
  destruct (round_product m 4593221259955169 e Hv growth_mantissa)
    as [E|(m' & e' & E & Hb & Hle)];
    unfold mul, GROWTH_FACTOR; cbn [SFmul xorb]; rewrite E.
  - repeat split; reflexivity.
  - split; [exact Hb|]. split; [reflexivity|].
    unfold leb, SFleb. cbn [SFcompare].
    destruct Hle as [Hlt|[<- Hq]].
    + apply Z.compare_lt_iff in Hlt. rewrite Hlt. reflexivity.
    + rewrite Z.compare_refl.
      change (Pos.compare_cont Eq m m') with (Pos.compare m m').
      pose proof (product_quotient_ge m 4593221259955169
                    (proj1 growth_mantissa)).
      destruct (Pos.compare_spec m m'); try reflexivity. lia.
Qed.

(** A valid negative number shrinks, or stays, and the product is a valid
    negative number or minus infinity. *)
Lemma mul_growth_negative (m : positive) (e : Z) :
  valid (S754_finite true m e) = true ->
  valid (mul (S754_finite true m e) GROWTH_FACTOR) = true /\
  nonpositive_float (mul (S754_finite true m e) GROWTH_FACTOR) = true /\
  leb (mul (S754_finite true m e) GROWTH_FACTOR) (S754_finite true m e)
    = true.
Proof.
  intros Hv. rewrite mul_growth_opp.
  destruct (mul_growth_positive m e Hv) as (Hv' & Hp & Hle).
  change (S754_finite true m e) with (SFopp (S754_finite false m e)).
  rewrite leb_opp.
  destruct (mul (S754_finite false m e) GROWTH_FACTOR) as [s|s| |s m' e'];
    try discriminate; destruct s; try discriminate.
  - repeat split; try reflexivity; try assumption.
  - repeat split; try reflexivity; try assumption.
Qed.

End GrowthFacts.

(** ** The order of binary64 numbers is transitive *)

Module OrderFacts.
Import PyFloat PyFloatFacts.

Ltac compare_cases :=
  repeat match goal with
         | H : context [Pos.compare_cont Eq ?a ?b] |- _ =>
             change (Pos.compare_cont Eq a b) with (Pos.compare a b) in H
         | |- context [Pos.compare_cont Eq ?a ?b] =>
             change (Pos.compare_cont Eq a b) with (Pos.compare a b)
         end;
  repeat match goal with
         | H : context [Z.compare ?a ?b] |- _ =>
             destruct (Z.compare_spec a b); simpl in H
         | H : context [Pos.compare ?a ?b] |- _ =>
             destruct (Pos.compare_spec a b); simpl in H
         end;
  try discriminate;
  repeat match goal with
         | |- context [Z.compare ?a ?b] =>
             destruct (Z.compare_spec a b); simpl
         | |- context [Pos.compare ?a ?b] =>
             destruct (Pos.compare_spec a b); simpl
         end;
  try reflexivity; try discriminate; try lia.

Lemma leb_ltb_trans (x y z : spec_float) :
  leb x y = true -> ltb y z = true -> ltb x z = true.
Proof.
  unfold leb, ltb, SFleb, SFltb.
  destruct x as [sx|sx| |sx mx ex], y as [sy|sy| |sy my ey],
           z as [sz|sz| |sz mz ez];
    try (destruct sx); try (destruct sy); try (destruct sz);
    simpl; try discriminate; try reflexivity;
    intros Hxy Hyz; compare_cases.
Qed.

(** Equal in the order and not zero: the same number. *)
Lemma compare_eq_positive (x y : spec_float) :
  positive_float x = true -> SFcompare x y = Some Eq -> x = y.
Proof.
  destruct x as [sx|sx| |sx mx ex], y as [sy|sy| |sy my ey];
    try (destruct sx); try (destruct sy);
    simpl; try discriminate; try reflexivity.
  intros _ [= Hc].
  destruct (Z.compare_spec ex ey); try discriminate. subst ey.
  change (Pos.compare_cont Eq mx my) with (Pos.compare mx my) in Hc.
  apply Pos.compare_eq in Hc. subst my. reflexivity.
Qed.

(** What is above a positive number is positive. *)
Lemma ltb_positive (x y : spec_float) :
  positive_float x = true -> ltb x y = true -> positive_float y = true.
Proof.
  unfold ltb, SFltb.
  destruct x as [sx|sx| |sx mx ex], y as [sy|sy| |sy my ey];
    try (destruct sx); try (destruct sy);
    simpl; try discriminate; try reflexivity.
Qed.

End OrderFacts.

(** ** Rank: how many numbers lie between two positive ones *)

Module TerminationFacts.
Import PyFloat PyFloatFacts RoundingFacts ProductFacts GrowthFacts OrderFacts.

Lemma valid_mantissa (s : bool) (m : positive) (e : Z) :
  valid (S754_finite s m e) = true ->
  Zpos m < 2 ^ 53 /\ -1074 <= e <= 971 /\ (digits m = 53 \/ e = -1074).
Proof.
  intros Hv. apply bounded_eq in Hv as [Hcan Hmax].
  destruct (digits_bounds m) as [_ Hhi]. pose proof (digits_pos m).
  assert (digits m <= 53) by lia.
  split; [|lia].
  apply Z.lt_le_trans with (2 ^ digits m); [exact Hhi|].
  apply Z.pow_le_mono_r; lia.
Qed.

(** Below in the order, before in rank. *)
Lemma ltb_rank (x y : spec_float) :
  valid x = true -> valid y = true ->
  positive_float x = true -> ltb x y = true -> rank x < rank y.
Proof.
  unfold ltb, SFltb.
  destruct x as [sx|[]| |[] mx ex], y as [sy|[]| |[] my ey];
    simpl; try discriminate; intros Hx Hy _ Hlt.
  - destruct (valid_mantissa false _ _ Hx) as (Hm & He & _).
    change (2 ^ 53) with 9007199254740992 in *. lia.
  - destruct (valid_mantissa false _ _ Hx) as (Hm & He & _).
    destruct (valid_mantissa false _ _ Hy) as (Hm' & He' & _).
    change (2 ^ 53) with 9007199254740992 in *.
    destruct (Z.compare_spec ex ey); try discriminate; [|nia].
    subst ey.
    change (Pos.compare_cont Eq mx my) with (Pos.compare mx my) in Hlt.
    destruct (Pos.compare_spec mx my); try discriminate. lia.
Qed.

(** A valid positive normal number strictly grows when multiplied by the
    growth factor: the product is plus infinity, or a valid positive
    normal number further in rank. *)
Lemma mul_growth_strict (m : positive) (e : Z) :
  valid (S754_finite false m e) = true ->
  normal_positive (S754_finite false m e) = true ->
  mul (S754_finite false m e) GROWTH_FACTOR = S754_infinity false \/
  (valid (mul (S754_finite false m e) GROWTH_FACTOR) = true /\
   normal_positive (mul (S754_finite false m e) GROWTH_FACTOR) = true /\
   rank (S754_finite false m e)
     < rank (mul (S754_finite false m e) GROWTH_FACTOR)).
Proof.
  intros Hv Hn. cbn [normal_positive] in Hn. apply Z.eqb_eq in Hn.
  destruct (valid_mantissa _ _ _ Hv) as (Hm & He & _).
  destruct (digits_bounds m) as [Hlo _]. rewrite Hn in Hlo.
  change (2 ^ (53 - 1)) with (2 ^ 52) in Hlo.
  destruct (round_product m 4593221259955169 e Hv growth_mantissa)
    as [E|(m' & e' & E & Hb & Hle)];
    unfold mul, GROWTH_FACTOR; cbn [SFmul xorb]; rewrite E;
    [left; reflexivity|right].
  split; [exact Hb|].
  destruct (valid_mantissa false _ _ Hb) as (Hm' & He' & Hd').
  cbn [normal_positive rank]. change (2 ^ 53) with 9007199254740992 in *.
  change (2 ^ 52) with 4503599627370496 in *.
  destruct Hle as [Hlt|[<- Hq]].
  - split; [apply Z.eqb_eq; lia|nia].
  - assert (Hgt : Zpos m < Zpos m').
    { pose proof (product_quotient_gt m 4593221259955169) as Hp.
      change (2 ^ 52) with 4503599627370496 in Hp. lia. }
    split; [|lia]. apply Z.eqb_eq.
    destruct Hd' as [Hd'|Hd']; [exact Hd'|].
    assert (digits m <= digits m') by (apply digits_le; lia).
    apply bounded_eq in Hb as [Hcan _]. lia.
Qed.

End TerminationFacts.

(** ** Facts about traces *)

Section TraceFacts.

Lemma applied_app (a b : trace) : applied (a ++ b) = applied a ++ applied b.
Proof.
  induction a as [|ev a IH]; simpl; [reflexivity|].
  destruct ev; simpl; rewrite IH; reflexivity.
Qed.

Lemma typed_app (a b : trace) : typed (a ++ b) = typed a ++ typed b.
Proof.
  induction a as [|ev a IH]; simpl; [reflexivity|].
  destruct ev; simpl; rewrite IH; reflexivity.
Qed.

Lemma reads_app (a b : trace) : reads (a ++ b) = reads a ++ reads b.
Proof.
  induction a as [|ev a IH]; simpl; [reflexivity|].
  destruct ev; simpl; rewrite IH; reflexivity.
Qed.

Lemma read_calls_app (a b : trace) :
  read_calls (a ++ b) = (read_calls a + read_calls b)%nat.
Proof.
  induction a as [|ev a IH]; simpl; [reflexivity|].
  destruct ev; simpl; rewrite IH; reflexivity.
Qed.

Lemma attempted_app (a b : trace) :
  attempted (a ++ b) = attempted a ++ attempted b.
Proof.
  induction a as [|ev a IH]; simpl; [reflexivity|].
  destruct ev; simpl; rewrite IH; reflexivity.
Qed.

Lemma reported_app (a b : trace) :
  reported (a ++ b) = reported a ++ reported b.
Proof.
  induction a as [|ev a IH]; simpl; [reflexivity|].
  destruct ev as [| | | | | | |[]]; simpl; rewrite ?IH; reflexivity.
Qed.

End TraceFacts.

Ltac split_trace :=
  rewrite ?applied_app, ?typed_app, ?reads_app, ?read_calls_app,
    ?attempted_app, ?reported_app.

(** ** The loop and the task, unfolded *)

Section ProgramFacts.

Context {W : Type} `{Browser W}.

Lemma stepping_exit (fuel : nat) (c target : spec_float) (w : W) :
  (c <? target)%py = false ->
  stepping fuel c target w = (w, [], Val tt).
Proof.
  intros Hc. destruct fuel; simpl; rewrite Hc; reflexivity.
Qed.

Lemma stepping_spent (c target : spec_float) (w : W) :
  (c <? target)%py = true ->
  stepping 0 c target w = (w, [], OutOfFuel).
Proof.
  intros Hc. simpl. rewrite Hc. reflexivity.
Qed.

Lemma stepping_pass (fuel : nat) (c target : spec_float) (w : W) :
  (c <? target)%py = true ->
  stepping (S fuel) c target w =
    let v := next_value c target in
    match type_settlement (PyFloat.format_2f v) w with
    | (w1, Err e) =>
        (w1, [Log (Bumping (PyFloat.format_2f v)); call_set_and_apply v;
              raised e],
         Exc e)
    | (w1, Ok _) =>
        match click_apply w1 with
        | (w2, Err e) => (w2, pass v ++ [raised e], Exc e)
        | (w2, Ok _) =>
            let '(w3, tr, o) := stepping fuel v target w2 in
            (w3, pass v ++ tr, o)
        end
    end.
Proof.
  intros Hc. cbn [stepping]. rewrite Hc.
  unfold bind, logging, _set_and_apply, bind, emit, interact. cbn zeta.
  destruct (type_settlement _ w) as [w1 [[]|e]]; [|reflexivity].
  destruct (click_apply w1) as [w2 [[]|e]]; [|reflexivity].
  destruct (stepping fuel _ target w2) as [[w3 tr] o].
  destruct o; reflexivity.
Qed.

(** Every run of the loop has one of the shapes of [loop_run]. *)
Lemma stepping_loop_run (fuel : nat) (c target : spec_float) (w : W) :
  loop_run target c (trace_of (stepping fuel c target w))
                    (outcome_of (stepping fuel c target w)).
Proof.
  revert c w. induction fuel as [|fuel IH]; intros c w.
  - destruct (c <? target)%py eqn:Hc.
    + rewrite stepping_spent by assumption. now apply loop_spent.
    + rewrite stepping_exit by assumption. now apply loop_exit.
  - destruct (c <? target)%py eqn:Hc.
    + rewrite stepping_pass by assumption. cbn zeta.
      destruct (type_settlement _ w) as [w1 [[]|e]];
        [|now apply loop_type_raises].
      destruct (click_apply w1) as [w2 [[]|e]];
        [|now apply loop_click_raises].
      specialize (IH (next_value c target) w2).
      destruct (stepping fuel _ target w2) as [[w3 tr] o].
      now apply loop_pass.
    + rewrite stepping_exit by assumption. now apply loop_exit.
Qed.

(** The task, case by case on what the browser answers. *)
Lemma update_price_for_unfold (fuel : nat) (sku : string)
    (target : spec_float) (w : W) :
  update_price_for fuel sku target w =
    let pre := [call_open_listing sku; Log (Navigating sku)] in
    match driver_get (LISTING_URL sku) w with
    | (w1, Err e) => (w1, pre ++ [raised e; Log (Failed sku e)], Val tt)
    | (w1, Ok _) =>
        match pricing_modal sku w1 with
        | (w2, Err e) =>
            (w2, pre ++ [call_open_pricing_modal sku; raised e;
                         Log (Failed sku e)],
             Val tt)
        | (w2, Ok _) =>
            match settlement_value w2 with
            | (w3, Err e) =>
                (w3, pre ++ [call_open_pricing_modal sku;
                             call_get_settlement; raised e;
                             Log (Failed sku e)],
                 Val tt)
            | (w3, Ok c) =>
                let head :=
                  pre ++ [call_open_pricing_modal sku; call_get_settlement;
                          got_settlement c;
                          Log (Starting (PyFloat.format_2f c)
                                        (PyFloat.format_2f target))] in
                match stepping fuel c target w3 with
                | (w4, tr, Val _) => (w4, head ++ tr ++ [Log (Done sku)], Val tt)
                | (w4, tr, Exc e) =>
                    (w4, head ++ tr ++ [Log (Failed sku e)], Val tt)
                | (w4, tr, OutOfFuel) => (w4, head ++ tr, OutOfFuel)
                end
            end
        end
    end.
Proof.
  unfold update_price_for, try_except, bind, _open_listing,
    _open_pricing_modal, _get_settlement, bind, logging, emit, interact, ret.
  cbn zeta.
  destruct (driver_get _ w) as [w1 [[]|e]]; [|reflexivity].
  destruct (pricing_modal sku w1) as [w2 [[]|e]]; [|reflexivity].
  destruct (settlement_value w2) as [w3 [c|e]]; [|reflexivity].
  destruct (stepping fuel c target w3) as [[w4 tr] [[]|e|]]; simpl;
    rewrite ?app_nil_r; reflexivity.
Qed.

(** Every run of the task has one of the shapes of [task_run]. *)
Lemma update_price_for_task_run (fuel : nat) (sku : string)
    (target : spec_float) (w : W) :
  task_run sku target (trace_of (update_price_for fuel sku target w))
                      (outcome_of (update_price_for fuel sku target w)).
Proof.
  rewrite update_price_for_unfold. cbn zeta.
  destruct (driver_get _ w) as [w1 [[]|e]]; [|apply task_get_raises].
  destruct (pricing_modal sku w1) as [w2 [[]|e]]; [|apply task_modal_raises].
  destruct (settlement_value w2) as [w3 [c|e]]; [|apply task_read_raises].
  pose proof (stepping_loop_run fuel c target w3) as Hl.
  destruct (stepping fuel c target w3) as [[w4 tr] o].
  unfold trace_of, outcome_of in Hl. simpl in Hl.
  pose proof (task_loop sku target c tr o Hl) as Ht.
  destruct o as [[]|e|]; simpl in Ht |- *;
    rewrite ?app_nil_r in Ht; exact Ht.
Qed.

End ProgramFacts.

(** ** What one pass computes *)

Section NextValue.
Import PyFloat PyFloatFacts.

Variables c target : spec_float.
Hypothesis guard : (c <? target)%py = true.

Lemma next_value_not_nan : is_nan (next_value c target) = false.
Proof.
  destruct (ltb_not_nan _ _ guard) as [Hc Ht].
  unfold next_value. destruct (_ >? _)%py; [exact Ht|].
  apply mul_growth_not_nan, Hc.
Qed.

Lemma next_value_le_target : (next_value c target <=? target)%py = true.
Proof.
  destruct (ltb_not_nan _ _ guard) as [Hc Ht].
  unfold next_value. destruct (_ >? _)%py eqn:E.
  - apply leb_refl, Ht.
  - apply not_ltb_leb; [apply mul_growth_not_nan, Hc|exact Ht|exact E].
Qed.

Lemma next_value_le_product :
  (next_value c target <=? c * GROWTH_FACTOR)%py = true.
Proof.
  destruct (ltb_not_nan _ _ guard) as [Hc Ht].
  unfold next_value. destruct (_ >? _)%py eqn:E.
  - apply ltb_leb, E.
  - apply leb_refl, mul_growth_not_nan, Hc.
Qed.

Lemma next_value_cases :
  next_value c target = (c * GROWTH_FACTOR)%py \/ next_value c target = target.
Proof.
  unfold next_value. destruct (_ >? _)%py; auto.
Qed.

End NextValue.

(** ** What the shapes tell *)

Section ShapeFacts.
Import PyFloat PyFloatFacts.

Variable target : spec_float.

Lemma last_nonempty {A : Type} (a : A) (l : list A) (d d' : A) :
  last (a :: l) d = last (a :: l) d'.
Proof.
  revert a. induction l as [|b l IH]; intros a; [reflexivity|].
  change (last (b :: l) d = last (b :: l) d'). apply IH.
Qed.

Lemma applied_pass (v : spec_float) : applied (pass v) = [v].
Proof. reflexivity. Qed.

Lemma loop_run_chain (c : spec_float) (tr : trace) (o : outcome unit) :
  loop_run target c tr o -> chain target c (applied tr).
Proof.
  induction 1; simpl; try apply chain_nil.
  - apply chain_cons; [assumption|apply chain_nil].
  - apply chain_cons; [assumption|apply chain_nil].
  - apply chain_cons; assumption.
Qed.

(** The loop reads nothing, opens nothing and closes no task. *)
Lemma loop_run_quiet (c : spec_float) (tr : trace) (o : outcome unit) :
  loop_run target c tr o ->
  reads tr = [] /\ read_calls tr = O /\ attempted tr = [] /\
  reported tr = [].
Proof.
  induction 1; simpl; auto.
Qed.

(** When the loop ends normally, every pass has typed its value and the
    last tracked value is not below the target. *)
Lemma loop_run_done (c : spec_float) (tr : trace) :
  loop_run target c tr (Val tt) ->
  typed tr = map format_2f (applied tr) /\
  (last (applied tr) c <? target)%py = false.
Proof.
  intros Hl. remember (Val tt) as o eqn:Ho.
  induction Hl; try discriminate; simpl.
  - auto.
  - split_trace. simpl. destruct (IHHl Ho) as [IH1 IH2]. split.
    + f_equal. exact IH1.
    + destruct (applied tr) as [|a l]; [exact IH2|].
      rewrite (last_nonempty a l c (next_value c target)). exact IH2.
Qed.

(** What was typed is the [.2f] text of the values applied, the last of
    which may not have been typed yet when the field could not be
    reached. *)
Lemma loop_run_typed (c : spec_float) (tr : trace) (o : outcome unit) :
  loop_run target c tr o ->
  typed tr = map format_2f (firstn (List.length (typed tr)) (applied tr)).
Proof.
  induction 1; simpl; try reflexivity.
  split_trace. simpl. f_equal. exact IHloop_run.
Qed.

Lemma chain_le_target (c : spec_float) (l : list spec_float) :
  chain target c l -> Forall (fun v => (v <=? target)%py = true) l.
Proof.
  induction 1; constructor; [|assumption].
  apply next_value_le_target. assumption.
Qed.

Lemma chain_step_bounded (c : spec_float) (l : list spec_float) :
  chain target c l -> step_bounded target c l.
Proof.
  induction 1; simpl; [exact I|].
  repeat split; [apply next_value_le_product|apply next_value_cases|];
    assumption.
Qed.

End ShapeFacts.

Lemma chain_inv (target c : spec_float) (l : list spec_float) :
  chain target c l ->
  l = [] \/
  ((c <? target)%py = true /\
   exists l', l = next_value c target :: l' /\
              chain target (next_value c target) l').
Proof.
  intros [c'|c' l' Hg Hc]; [left; reflexivity|right].
  split; [exact Hg|]. exists l'. split; [reflexivity|exact Hc].
Qed.

(** ** One pass, from a positive value and from one that is not *)

Section Passes.
Import PyFloat PyFloatFacts GrowthFacts OrderFacts.

Lemma float_sign_cases (x : spec_float) :
  is_nan x = false ->
  positive_float x = true \/ nonpositive_float x = true.
Proof. destruct x as [s|[]| |[] m e]; simpl; auto; discriminate. Qed.

Lemma mul_growth_nonpositive (c : spec_float) :
  valid c = true -> nonpositive_float c = true ->
  valid (c * GROWTH_FACTOR)%py = true /\
  nonpositive_float (c * GROWTH_FACTOR)%py = true /\
  (c * GROWTH_FACTOR <=? c)%py = true.
Proof.
  destruct c as [s|[]| |[] m e]; try discriminate; intros Hv _.
  - repeat split; try reflexivity.
  - repeat split; reflexivity.
  - apply mul_growth_negative, Hv.
Qed.

Variables c target : spec_float.
Hypothesis c_valid : valid c = true.
Hypothesis target_valid : valid target = true.
Hypothesis guard : (c <? target)%py = true.

(** From a positive value the pass applies a valid positive value that is
    not below it. *)
Lemma next_value_positive :
  positive_float c = true ->
  valid (next_value c target) = true /\
  positive_float (next_value c target) = true /\
  (c <=? next_value c target)%py = true.
Proof.
  intros Hp. pose proof (ltb_positive _ _ Hp guard) as Ht.
  unfold next_value. destruct (_ >? _)%py.
  - split; [exact target_valid|]. split; [exact Ht|].
    apply ltb_leb, guard.
  - destruct c as [s|[]| |[] m e]; try discriminate.
    + repeat split; reflexivity.
    + apply mul_growth_positive, c_valid.
Qed.

(** From a value that is not positive the pass applies the product, which
    is not positive either and is still below the target. *)
Lemma next_value_nonpositive :
  nonpositive_float c = true ->
  valid (next_value c target) = true /\
  nonpositive_float (next_value c target) = true /\
  (next_value c target <? target)%py = true.
Proof.
  intros Hn.
  destruct (mul_growth_nonpositive c c_valid Hn) as (Hv & Hn' & Hle).
  pose proof (leb_ltb_trans _ _ _ Hle guard) as Hlt.
  unfold next_value, gtb. fold (ltb target (c * GROWTH_FACTOR)%py).
  rewrite (leb_not_ltb _ _ (ltb_leb _ _ Hlt)). auto.
Qed.

End Passes.

Section Chains.
Import PyFloat PyFloatFacts GrowthFacts OrderFacts.

Variable target : spec_float.
Hypothesis target_valid : valid target = true.

Lemma last_cons {A : Type} (a : A) (l : list A) (d : A) :
  last (a :: l) d = last l a.
Proof.
  revert a. induction l as [|b l IH]; intros a; [reflexivity|].
  change (last (b :: l) d = last (b :: l) a). apply last_nonempty.
Qed.

Lemma last_In {A : Type} (l : list A) (d : A) :
  l <> [] -> In (last l d) l.
Proof.
  induction l as [|a l IH]; intros Hl; [contradiction Hl; reflexivity|].
  destruct l as [|b l]; [left; reflexivity|].
  right. apply IH. discriminate.
Qed.

(** From a valid positive value the loop applies valid positive values,
    none below the one before it. *)
Lemma chain_positive (c : spec_float) (l : list spec_float) :
  chain target c l ->
  valid c = true -> positive_float c = true ->
  nondecreasing (c :: l) /\
  Forall (fun v => positive_float v = true) l.
Proof.
  induction 1 as [c|c l Hg Hc IH]; intros Hv Hp.
  - split; [exact I|constructor].
  - destruct (next_value_positive c target Hv target_valid Hg Hp)
      as (Hv' & Hp' & Hle).
    destruct (IH Hv' Hp') as [Hnd Hall].
    split; [split; assumption|constructor; assumption].
Qed.

(** From a valid value that is not positive the loop never reaches the
    target. *)
Lemma chain_nonpositive (c : spec_float) (l : list spec_float) :
  chain target c l ->
  valid c = true -> nonpositive_float c = true ->
  (c <? target)%py = true ->
  (last l c <? target)%py = true.
Proof.
  induction 1 as [c|c l Hg Hc IH]; intros Hv Hn Hlt.
  - exact Hlt.
  - destruct (next_value_nonpositive c target Hv Hg Hn)
      as (Hv' & Hn' & Hlt').
    rewrite last_cons. apply IH; assumption.
Qed.

Lemma nondecreasing_tail (a : spec_float) (l : list spec_float) :
  nondecreasing (a :: l) -> nondecreasing l.
Proof. destruct l as [|b l]; [intros _; exact I|intros [_ Hl]; exact Hl]. Qed.

End Chains.

(** ** What a task shows, shape by shape *)

Section TaskFacts.
Import PyFloat PyFloatFacts.

Variables (sku : string) (target : spec_float).

Lemma applied_closing (o : outcome unit) : applied (closing sku o) = [].
Proof. destruct o; reflexivity. Qed.

Lemma typed_closing (o : outcome unit) : typed (closing sku o) = [].
Proof. destruct o; reflexivity. Qed.

Lemma reported_closing (o : outcome unit) :
  reported (closing sku o) =
    match o with
    | Val _ => [(sku, Succeeded)]
    | Exc e => [(sku, FailedWith e)]
    | OutOfFuel => []
    end.
Proof. destruct o; reflexivity. Qed.

(** A task either stops before any value is read, with a failure
    reported and nothing applied, or reads [c] once and runs the loop. *)
Lemma task_run_observed (tr : trace) (o : outcome unit) :
  task_run sku target tr o ->
  attempted tr = [sku] /\
  ((reads tr = [] /\ applied tr = [] /\ typed tr = [] /\
    (read_calls tr <= 1)%nat /\ o = Val tt /\
    exists e, reported tr = [(sku, FailedWith e)]) \/
   (exists c ltr lo,
      loop_run target c ltr lo /\
      reads tr = [c] /\ read_calls tr = 1%nat /\
      applied tr = applied ltr /\ typed tr = typed ltr /\
      reported tr = reported (closing sku lo) /\ o = contained lo)).
Proof.
  intros [e|e|e|c ltr lo Hl]; (split; [|]);
    try reflexivity;
    try (left; simpl; repeat split; solve [lia | eexists; reflexivity]).
  - split_trace. simpl.
    destruct (loop_run_quiet target c ltr lo Hl) as (_ & _ & -> & _).
    destruct lo; reflexivity.
  - right. exists c, ltr, lo.
    destruct (loop_run_quiet target c ltr lo Hl) as (Hr & Hn & _ & Hp).
    split; [exact Hl|]. split_trace. simpl.
    rewrite Hr, Hn, Hp, applied_closing, typed_closing, !app_nil_r.
    destruct lo; simpl; repeat split; reflexivity.
Qed.

End TaskFacts.

(** ** The batch *)

Section BatchFacts.

Context {W : Type} `{Browser W}.

(** A task ends reported, or its loop outlasts the fuel; it never raises. *)
Lemma update_price_for_contained (fuel : nat) (sku : string)
    (target : spec_float) (w : W) :
  attempted (trace_of (update_price_for fuel sku target w)) = [sku] /\
  ((outcome_of (update_price_for fuel sku target w) = Val tt /\
    exists v, reported (trace_of (update_price_for fuel sku target w))
              = [(sku, v)]) \/
   (outcome_of (update_price_for fuel sku target w) = OutOfFuel /\
    reported (trace_of (update_price_for fuel sku target w)) = [])).
Proof.
  destruct (task_run_observed _ _ _ _
              (update_price_for_task_run fuel sku target w))
    as [Ha [(_ & _ & _ & _ & Ho & e & Hp)|
            (c & ltr & lo & _ & _ & _ & _ & _ & Hp & Ho)]];
    (split; [exact Ha|]).
  - left. split; [exact Ho|]. exists (FailedWith e). exact Hp.
  - rewrite Hp, Ho, reported_closing.
    destruct lo as [[]|e|]; simpl.
    + left. split; [reflexivity|]. eexists. reflexivity.
    + left. split; [reflexivity|]. eexists. reflexivity.
    + right. split; reflexivity.
Qed.

Lemma iterrows_text (fuel : nat) (r : row) (rest : list row) (w : W) :
  has_text r = true ->
  iterrows fuel (r :: rest) w =
    match update_price_for fuel (sku_of r) (FinalPrice r) w with
    | (w1, t1, Val _) =>
        let '(w2, t2, o) := iterrows fuel rest w1 in (w2, t1 ++ t2, o)
    | (w1, t1, Exc e) => (w1, t1, Exc e)
    | (w1, t1, OutOfFuel) => (w1, t1, OutOfFuel)
    end.
Proof.
  destruct r as [[s|] p]; [intros _|discriminate].
  cbn [iterrows SKU FinalPrice strip_cell]. unfold sku_of, bind, ret.
  cbn [SKU].
  destruct (update_price_for fuel (strip s) p w) as [[w1 t1] [[]|e|]];
    try reflexivity.
  destruct (iterrows fuel rest w1) as [[w2 t2] o]. reflexivity.
Qed.

Lemma iterrows_blank (fuel : nat) (r : row) (rest : list row) (w : W) :
  has_text r = false ->
  iterrows fuel (r :: rest) w = (w, [], Exc AttributeError).
Proof.
  destruct r as [[s|] p]; [discriminate|intros _]. reflexivity.
Qed.

(** The rows [pre], all with text, followed by [rest]: either every task
    of [pre] is attempted and reported and the run goes on with [rest],
    or the loop of one of them outlasts the fuel, the tasks before it
    having been attempted and reported. *)
Lemma iterrows_app (fuel : nat) (pre rest : list row) (w : W) :
  forallb has_text pre = true ->
  (exists w1 t1 w2 t2 o,
     iterrows fuel rest w1 = (w2, t2, o) /\
     iterrows fuel (pre ++ rest) w = (w2, t1 ++ t2, o) /\
     attempted t1 = map sku_of pre /\
     map fst (reported t1) = map sku_of pre) \/
  (exists w1 t1 k,
     iterrows fuel (pre ++ rest) w = (w1, t1, OutOfFuel) /\
     (k < List.length pre)%nat /\
     attempted t1 = firstn (S k) (map sku_of pre) /\
     map fst (reported t1) = firstn k (map sku_of pre)).
Proof.
  revert w. induction pre as [|r pre IH]; intros w Hpre.
  - left. destruct (iterrows fuel rest w) as [[w2 t2] o] eqn:E.
    exists w, [], w2, t2, o. simpl. rewrite E. auto.
  - simpl in Hpre. apply andb_prop in Hpre as [Hr Hpre].
    simpl app. rewrite (iterrows_text fuel r (pre ++ rest) w Hr).
    destruct (update_price_for_contained fuel (sku_of r) (FinalPrice r) w)
      as [Ha [(Ho & v & Hp)|(Ho & Hp)]];
      destruct (update_price_for fuel (sku_of r) (FinalPrice r) w)
        as [[w0 t0] o0];
      unfold trace_of, outcome_of in Ha, Ho, Hp; simpl in Ha, Ho, Hp;
      subst o0.
    + destruct (IH w0 Hpre)
        as [(w1 & t1 & w2 & t2 & o & E1 & E2 & Ha1 & Hp1)|
            (w1 & t1 & k & E & Hk & Ha1 & Hp1)].
      * left. exists w1, (t0 ++ t1), w2, t2, o.
        rewrite E2, app_assoc. split_trace.
        rewrite Ha, Hp, Ha1, map_app, Hp1. auto.
      * right. exists w1, (t0 ++ t1), (S k).
        rewrite E. split_trace. rewrite Ha, Hp, Ha1, map_app, Hp1.
        simpl. repeat split; auto. lia.
    + right. exists w0, t0, O. rewrite Ha, Hp. simpl.
      repeat split; auto. lia.
Qed.

End BatchFacts.

(** *** An exception raised by the browser is the one reported *)

Lemma loop_run_raised (target c : spec_float) (tr : trace)
    (o : outcome unit) (e : exn) :
  loop_run target c tr o -> In (raised e) tr -> o = Exc e.
Proof.
  induction 1 as [c Hg|c Hg|c e' Hg|c e' Hg|c tr o Hg Hl IH]; simpl.
  - intros [].
  - intros [].
  - intros [Hin|[Hin|[Hin|[]]]]; try discriminate. congruence.
  - intros [Hin|[Hin|[Hin|[Hin|[]]]]]; try discriminate. congruence.
  - intros [Hin|[Hin|[Hin|Hin]]]; try discriminate. apply IH, Hin.
Qed.

Lemma task_run_raised (sku : string) (target : spec_float) (tr : trace)
    (o : outcome unit) (e : exn) :
  task_run sku target tr o -> In (raised e) tr ->
  reported tr = [(sku, FailedWith e)] /\ o = Val tt.
Proof.
  intros [e'|e'|e'|c ltr lo Hl]; simpl.
  - intros [Hin|[Hin|[Hin|[Hin|[]]]]]; try discriminate.
    injection Hin as ->. auto.
  - intros [Hin|[Hin|[Hin|[Hin|[Hin|[]]]]]]; try discriminate.
    injection Hin as ->. auto.
  - intros [Hin|[Hin|[Hin|[Hin|[Hin|[Hin|[]]]]]]]; try discriminate.
    injection Hin as ->. auto.
  - intros [Hin|[Hin|[Hin|[Hin|[Hin|[Hin|Hin]]]]]]; try discriminate.
    destruct (loop_run_quiet target c ltr lo Hl) as (_ & _ & _ & Hp).
    rewrite reported_app, Hp. simpl.
    apply in_app_or in Hin as [Hin|Hin].
    + rewrite (loop_run_raised _ _ _ _ _ Hl Hin). auto.
    + destruct lo as [[]|e'|]; simpl in Hin; try contradiction;
        destruct Hin as [Hin|[]]; discriminate.
Qed.

(** ** Reads, and what is typed *)

Section ReadFacts.

Variable target : spec_float.

(** No read is made in the loop: if none comes next after it, none comes
    next from its start. *)
Lemma loop_run_no_read_next (c : spec_float) (tr tail : trace)
    (o : outcome unit) :
  loop_run target c tr o ->
  read_comes_next tail = false -> read_comes_next (tr ++ tail) = false.
Proof.
  intros [c' Hg|c' Hg|c' e Hg|c' e Hg|c' tr' o' Hg Hl] Ht;
    simpl; auto.
Qed.

Lemma loop_run_no_reread (c : spec_float) (tr tail : trace)
    (o : outcome unit) :
  loop_run target c tr o ->
  applied tr <> [] ->
  read_comes_next tail = false ->
  reread_after_apply (tr ++ tail) = false.
Proof.
  intros [c' Hg|c' Hg|c' e Hg|c' e Hg|c' tr' o' Hg Hl] Ha Ht; simpl.
  - contradiction Ha. reflexivity.
  - contradiction Ha. reflexivity.
  - rewrite Ht. reflexivity.
  - rewrite Ht. reflexivity.
  - rewrite (loop_run_no_read_next _ _ tail _ Hl Ht). reflexivity.
Qed.

Lemma no_read_no_read_after_apply (tr : trace) :
  read_calls tr = O -> read_after_apply tr = false.
Proof.
  induction tr as [|ev tr IH]; [reflexivity|].
  destruct ev; simpl; try exact IH; try discriminate.
  intros Hn. rewrite Hn, (IH Hn). reflexivity.
Qed.

End ReadFacts.

(** *** Rounding to hundredths *)

Section Rounding.
Import PyFloat.

Lemma round_half_even_error (n d : Z) :
  0 < d -> 2 * Z.abs (n - round_half_even n d * d) <= d.
Proof.
  intros Hd. unfold round_half_even.
  pose proof (Z.div_mod n d ltac:(lia)) as Hn.
  pose proof (Z.mod_pos_bound n d Hd) as Hr.
  set (q := n / d) in *. set (r := n mod d) in *.
  assert (E0 : n - q * d = r) by lia.
  assert (E1 : n - (q + 1) * d = r - d) by lia.
  destruct (Z.compare_spec (2 * r) d) as [E|E|E].
  - destruct (Z.even q); [rewrite E0|rewrite E1]; lia.
  - rewrite E0. lia.
  - rewrite E1. lia.
Qed.

(** The text typed for a finite value stands for a number within half a
    hundredth of it. *)
Lemma format_2f_error (s : bool) (m : positive) (e : Z) :
  (Qabs (to_Q (S754_finite s m e) - sent_value (S754_finite s m e))
   <= 1 # 200)%Q.
Proof.
  assert (Hpos :
    (Qabs (match e with
           | Zneg p => Qmake (Zpos m) (2 ^ p)%positive
           | _ => inject_Z (Zpos m * 2 ^ e)
           end - Qmake (hundredths m e) 100) <= 1 # 200)%Q).
  { apply Qabs_Qle_condition. destruct e as [|p|p]; unfold hundredths.
    - unfold Qle, Qminus, Qplus, Qopp, inject_Z. cbn [Qnum Qden].
      generalize (2 ^ 0). intros P. lia.
    - unfold Qle, Qminus, Qplus, Qopp, inject_Z. cbn [Qnum Qden].
      generalize (2 ^ Z.pos p). intros P. lia.
    - pose proof (round_half_even_error (100 * Zpos m) (2 ^ Zpos p)
                    (Z.pow_pos_nonneg 2 (Zpos p) ltac:(lia) ltac:(lia)))
        as Hh.
      unfold Qle, Qminus, Qplus, Qopp. cbn [Qnum Qden].
      rewrite !Pos2Z.inj_mul, Pos2Z.inj_pow.
      assert (Hd : 0 < 2 ^ Zpos p) by (apply Z.pow_pos_nonneg; lia).
      revert Hh Hd.
      generalize (round_half_even (100 * Z.pos m) (2 ^ Z.pos p)).
      generalize (2 ^ Z.pos p). intros d h Hh Hd.
      split; nia. }
  unfold to_Q, sent_value. destruct s; [|exact Hpos].
  set (a := match e with Zneg p => _ | _ => _ end) in *.
  set (b := Qmake (hundredths m e) 100) in *.
  assert (E : (- a - - b == - (a - b))%Q) by ring.
  rewrite E, Qabs_opp. exact Hpos.
Qed.

End Rounding.

(** ** The loop ends from a positive normal value *)

Section Termination.
Import PyFloat PyFloatFacts GrowthFacts OrderFacts TerminationFacts.

Context {W : Type} `{Browser W}.

Variable target : spec_float.
Hypothesis target_valid : valid target = true.

(** With more fuel than there are numbers between the tracked value and
    the target, the loop does not run out of it. *)
Lemma stepping_ends (n : nat) (c : spec_float) (w : W) :
  (c <? target)%py = false \/
  (valid c = true /\ normal_positive c = true /\
   rank target - rank c < Z.of_nat n) ->
  outcome_of (stepping n c target w) <> OutOfFuel.
Proof.
  revert c w. induction n as [|n IH]; intros c w Hc;
    destruct (c <? target)%py eqn:Hg;
    try (rewrite stepping_exit by assumption; discriminate);
    destruct Hc as [Hc|(Hv & Hn & Hr)]; try discriminate.
  - assert (Hp : positive_float c = true)
      by (destruct c as [s|s| |[] m e]; try discriminate; reflexivity).
    pose proof (ltb_rank c target Hv target_valid Hp Hg). lia.
  - rewrite stepping_pass by assumption. cbn zeta.
    destruct (type_settlement _ w) as [w1 [[]|e]]; [|discriminate].
    destruct (click_apply w1) as [w2 [[]|e]]; [|discriminate].
    assert (Hnext : (next_value c target <? target)%py = false \/
                    (valid (next_value c target) = true /\
                     normal_positive (next_value c target) = true /\
                     rank target - rank (next_value c target)
                       < Z.of_nat n)).
    { unfold next_value. destruct (_ >? _)%py eqn:Hclamp.
      - left. apply leb_not_ltb, leb_refl.
        apply (ltb_not_nan _ _ Hg).
      - destruct (c * GROWTH_FACTOR <? target)%py eqn:Hlt;
          [right|left; reflexivity].
        destruct c as [s|s| |[] m e]; try discriminate.
        destruct (mul_growth_strict m e Hv Hn) as [E|(Hv' & Hn' & Hr')].
        + rewrite E in Hlt. destruct target as [?|[]| |[] ? ?];
            discriminate.
        + split; [exact Hv'|]. split; [exact Hn'|]. lia. }
    specialize (IH (next_value c target) w2 Hnext).
    destruct (stepping n (next_value c target) target w2) as [[w3 tr] o].
    exact IH.
Qed.

(** A task that reads a positive normal value ends, reported as done or
    as failed, once the fuel exceeds the count of numbers between the
    value read and the target. *)
Theorem task_ends_from_a_normal_price (fuel : nat) (sku : string)
    (c : spec_float) (w : W) :
  valid c = true -> normal_positive c = true ->
  reads (trace_of (update_price_for fuel sku target w)) = [c] ->
  rank target - rank c < Z.of_nat fuel ->
  outcome_of (update_price_for fuel sku target w) = Val tt.
Proof.
  intros Hv Hn Hr Hfuel. rewrite update_price_for_unfold in Hr |- *.
  cbn zeta in Hr |- *.
  destruct (driver_get _ w) as [w1 [[]|e]]; [|reflexivity].
  destruct (pricing_modal sku w1) as [w2 [[]|e]]; [|reflexivity].
  destruct (settlement_value w2) as [w3 [c0|e]]; [|reflexivity].
  pose proof (stepping_ends fuel c0 w3) as Hends.
  pose proof (stepping_loop_run fuel c0 target w3) as Hl.
  destruct (stepping fuel c0 target w3) as [[w4 tr] [[]|e|]];
    try reflexivity.
  unfold trace_of, outcome_of in *. simpl in Hr, Hl, Hends.
  rewrite ?reads_app in Hr. simpl in Hr.
  destruct (loop_run_quiet _ _ _ _ Hl) as (Hq & _). rewrite Hq in Hr.
  injection Hr as ->. exfalso. apply Hends; auto.
Qed.

End Termination.

(** ** More facts about traces *)
Section MoreTraceFacts.


Lemma logged_app (a b : trace) : logged (a ++ b) = logged a ++ logged b.
Proof.
  induction a as [|ev a IH]; simpl; [reflexivity|].
  destruct ev; simpl; rewrite IH; reflexivity.
Qed.

Lemma last_map_cons {A B : Type} (f : A -> B) (l : list A) (a : A) (d : B) :
  last (map f (a :: l)) d = f (last (a :: l) a).
Proof.
  revert a. induction l as [|b l IH]; intros a; [reflexivity|].
  change (last (map f (b :: l)) d = f (last (b :: l) a)).
  rewrite (last_nonempty b l a b). apply IH.
Qed.

Variable target : spec_float.

(** In the loop the only adapter method called is [_set_and_apply], and
    each call is announced in the log. *)
Lemma loop_run_calls (c : spec_float) (tr : trace) (o : outcome unit) :
  loop_run target c tr o ->
  calls tr = map SetAndApply (applied tr) /\
  logged tr = map (fun v => Bumping (PyFloat.format_2f v)) (applied tr).
Proof.
  induction 1 as [c Hg|c Hg|c e Hg|c e Hg|c tr o Hg Hl [IH1 IH2]]; simpl;
    auto.
  rewrite IH1, IH2. auto.
Qed.

(** Every pass types the text of its value, but a pass in which the
    typing itself raises, which is then the last one. *)
Lemma loop_run_typed_all (c : spec_float) (tr : trace) (o : outcome unit) :
  loop_run target c tr o ->
  typed tr = map PyFloat.format_2f (applied tr) \/
  (exists e, o = Exc e /\ applied tr <> [] /\
             typed tr = map PyFloat.format_2f (removelast (applied tr))).
Proof.
  induction 1 as [c Hg|c Hg|c e Hg|c e Hg|c tr o Hg Hl IH].
  - left. reflexivity.
  - left. reflexivity.
  - right. exists e. repeat split. discriminate.
  - left. reflexivity.
  - rewrite typed_app, applied_app. cbn [pass typed applied app].
    destruct IH as [IH|(e & Ho & Hne & IH)].
    + left. rewrite IH. reflexivity.
    + right. exists e. split; [exact Ho|]. split; [discriminate|].
      rewrite IH. destruct (applied tr) as [|a l];
        [contradiction Hne; reflexivity|reflexivity].
Qed.

End MoreTraceFacts.

(** ** The task, call by call and line by line *)

Section TaskObserved.
Import PyFloat PyFloatFacts.

Variables (sku : string) (target : spec_float).


Lemma task_run_logged (tr : trace) (o : outcome unit) :
  task_run sku target tr o ->
  logged tr
    = Navigating sku
      :: map (fun c => Starting (format_2f c) (format_2f target)) (reads tr)
      ++ map (fun v => Bumping (format_2f v)) (applied tr)
      ++ map closing_line (reported tr).
Proof.
  intros [e|e|e|c ltr lo Hl]; try reflexivity.
  destruct (loop_run_calls target c ltr lo Hl) as [_ Hlog].
  destruct (loop_run_quiet target c ltr lo Hl) as (Hr & _ & _ & Hp).
  assert (Hcl : logged (closing sku lo) = map closing_line
                                             (reported (closing sku lo)) /\
                reads (closing sku lo) = [])
    by (destruct lo as [[]|e|]; split; reflexivity).
  destruct Hcl as [Hcl Hcl'].
  rewrite !logged_app, !reads_app, !applied_app, !reported_app, Hlog, Hr, Hp,
    Hcl, Hcl', applied_closing, !app_nil_r.
  reflexivity.
Qed.

(** A task that has read [c] has run the loop from [c]. *)
Lemma task_run_loop (tr : trace) (o : outcome unit) (c : spec_float) :
  task_run sku target tr o ->
  reads tr = [c] ->
  exists ltr lo,
    loop_run target c ltr lo /\
    applied tr = applied ltr /\ typed tr = typed ltr /\
    reported tr = reported (closing sku lo) /\ o = contained lo.
Proof.
  intros Ht Hr.
  destruct (task_run_observed _ _ _ _ Ht)
    as [_ [(Hr' & _)|(c' & ltr & lo & Hl & Hr' & _ & Ha & Hk & Hp & Ho)]].
  - rewrite Hr' in Hr. discriminate.
  - rewrite Hr' in Hr. injection Hr as ->. exists ltr, lo. auto.
Qed.

End TaskObserved.

(** ** The values applied, from a positive read and from one that is not *)

Section MoreChains.
Import PyFloat PyFloatFacts GrowthFacts OrderFacts TerminationFacts.

Variable target : spec_float.
Hypothesis target_valid : valid target = true.

Lemma ltb_irrefl (x : spec_float) : (x <? x)%py = false.
Proof.
  destruct (is_nan x) eqn:E.
  - destruct x; try discriminate. reflexivity.
  - apply leb_not_ltb, leb_refl, E.
Qed.

(** One pass from a positive normal value: the value applied is strictly
    above it, and is again normal unless the loop stops there. *)
Lemma next_value_increases (c : spec_float) :
  valid c = true -> normal_positive c = true ->
  (c <? target)%py = true ->
  (c <? next_value c target)%py = true /\
  ((next_value c target <? target)%py = true ->
   valid (next_value c target) = true /\
   normal_positive (next_value c target) = true).
Proof.
  intros Hv Hn Hg. unfold next_value. destruct (_ >? _)%py eqn:Hclamp.
  - split; [exact Hg|]. rewrite ltb_irrefl. discriminate.
  - destruct c as [s|s| |[] m e]; try discriminate.
    destruct (mul_growth_positive m e Hv) as (Hv' & Hp' & Hle).
    destruct (mul_growth_strict m e Hv Hn) as [E|(_ & Hn' & Hr)].
    + rewrite E. split; [reflexivity|].
      destruct target as [?|[]| |[] ? ?]; discriminate.
    + split; [|auto].
      unfold ltb, SFltb. unfold leb, SFleb in Hle.
      destruct (SFcompare (S754_finite false m e)
                  (S754_finite false m e * GROWTH_FACTOR)%py)
        as [[]|] eqn:Hcmp; try discriminate; try reflexivity.
      apply compare_eq_positive in Hcmp; [|reflexivity].
      rewrite <- Hcmp in Hr. lia.
Qed.

Lemma chain_increasing (c : spec_float) (l : list spec_float) :
  chain target c l ->
  valid c = true -> normal_positive c = true ->
  increasing (c :: l).
Proof.
  induction 1 as [c|c l Hg Hc IH]; intros Hv Hn; [exact I|].
  destruct (next_value_increases c Hv Hn Hg) as [Hlt Hnext].
  split; [exact Hlt|].
  destruct (chain_inv _ _ _ Hc) as [->|(Hg' & _)]; [exact I|].
  destruct (Hnext Hg') as [Hv' Hn']. apply IH; assumption.
Qed.

(** One pass from a value that is not positive applies the product, which
    is not above it. *)
Lemma next_value_falls (c : spec_float) :
  valid c = true -> nonpositive_float c = true ->
  (c <? target)%py = true ->
  (next_value c target <=? c)%py = true.
Proof.
  intros Hv Hn Hg.
  destruct (mul_growth_nonpositive c Hv Hn) as (_ & _ & Hle).
  pose proof (leb_ltb_trans _ _ _ Hle Hg) as Hlt.
  unfold next_value, gtb. fold (ltb target (c * GROWTH_FACTOR)%py).
  rewrite (leb_not_ltb _ _ (ltb_leb _ _ Hlt)). exact Hle.
Qed.

Lemma chain_nonincreasing (c : spec_float) (l : list spec_float) :
  chain target c l ->
  valid c = true -> nonpositive_float c = true ->
  nonincreasing (c :: l).
Proof.
  induction 1 as [c|c l Hg Hc IH]; intros Hv Hn; [exact I|].
  destruct (next_value_nonpositive c target Hv Hg Hn) as (Hv' & Hn' & _).
  split; [apply next_value_falls; assumption|].
  apply IH; assumption.
Qed.

(** When the loop ends from a valid value below the target, it has applied
    something and the last value applied is the target. *)
Lemma chain_reaches_target (c : spec_float) (l : list spec_float) :
  chain target c l ->
  valid c = true ->
  (c <? target)%py = true ->
  (last l c <? target)%py = false ->
  l <> [] /\ last l c = target.
Proof.
  intros Hc Hv Hg Hlast.
  destruct (float_sign_cases c (proj1 (ltb_not_nan _ _ Hg))) as [Hpos|Hneg].
  - destruct (chain_positive target target_valid c l Hc Hv Hpos)
      as [_ Hall].
    assert (Hne : l <> []).
    { intros E. rewrite E in Hlast. simpl in Hlast. congruence. }
    split; [exact Hne|].
    pose proof (last_In l c Hne) as Hin.
    pose proof (chain_le_target target c l Hc) as Hle.
    rewrite Forall_forall in Hall, Hle.
    specialize (Hall _ Hin). specialize (Hle _ Hin).
    apply compare_eq_positive; [exact Hall|].
    unfold leb, SFleb in Hle. unfold ltb, SFltb in Hlast.
    destruct (SFcompare (last l c) target) as [[]|];
      try discriminate; reflexivity.
  - pose proof (chain_nonpositive target c l Hc Hv Hneg Hg) as Hlt.
    congruence.
Qed.

End MoreChains.

(** ** The amount typed grows with the value *)

Section Cents.
Import PyFloat PyFloatFacts RoundingFacts GrowthFacts OrderFacts
  TerminationFacts.

Lemma round_half_even_mono (a b d : Z) :
  0 < d -> a <= b -> round_half_even a d <= round_half_even b d.
Proof.
  intros Hd Hab. unfold round_half_even.
  pose proof (Z.div_mod a d ltac:(lia)) as Ha.
  pose proof (Z.div_mod b d ltac:(lia)) as Hb.
  pose proof (Z.mod_pos_bound a d Hd) as Hra.
  pose proof (Z.mod_pos_bound b d Hd) as Hrb.
  pose proof (Z.div_le_mono a b d Hd Hab) as Hq.
  set (qa := a / d) in *. set (ra := a mod d) in *.
  set (qb := b / d) in *. set (rb := b mod d) in *.
  destruct (Z.eq_dec qa qb) as [E|E].
  - assert (Hr : ra <= rb) by (rewrite E in Ha; lia).
    rewrite E.
    destruct (Z.compare_spec (2 * ra) d), (Z.compare_spec (2 * rb) d);
      destruct (Z.even qb); lia.
  - destruct (Z.compare_spec (2 * ra) d), (Z.compare_spec (2 * rb) d);
      destruct (Z.even qa), (Z.even qb); lia.
Qed.

Lemma round_half_even_scale (n d k : Z) :
  0 < d -> 0 < k ->
  round_half_even (n * k) (d * k) = round_half_even n d.
Proof.
  intros Hd Hk. unfold round_half_even.
  rewrite Z.div_mul_cancel_r, Z.mul_mod_distr_r by lia.
  set (r := n mod d).
  destruct (Z.compare_spec (2 * (r * k)) (d * k)),
           (Z.compare_spec (2 * r) d); try reflexivity; nia.
Qed.

Lemma round_half_even_exact (q d : Z) :
  0 < d -> round_half_even (q * d) d = q.
Proof.
  intros Hd. unfold round_half_even.
  rewrite Z.div_mul, Z.mod_mul by lia.
  destruct (Z.compare_spec (2 * 0) d); try reflexivity; lia.
Qed.

Lemma round_half_even_nonneg (n d : Z) :
  0 <= n -> 0 < d -> 0 <= round_half_even n d.
Proof.
  intros Hn Hd. unfold round_half_even.
  pose proof (Z.div_pos n d Hn Hd).
  destruct (_ ?= _); [destruct (Z.even _)| |]; lia.
Qed.

Lemma hundredths_nonneg (m : positive) (e : Z) : 0 <= hundredths m e.
Proof.
  destruct e as [|p|p]; unfold hundredths.
  - lia.
  - pose proof (Z.pow_pos_nonneg 2 (Zpos p) ltac:(lia) ltac:(lia)). nia.
  - apply round_half_even_nonneg; [lia|].
    apply Z.pow_pos_nonneg; lia.
Qed.

(** The hundredths of a number, from its multiple of [2^-1074]. *)
Lemma hundredths_scaled (m : positive) (e : Z) :
  -1074 <= e ->
  hundredths m e
    = round_half_even (100 * (Zpos m * 2 ^ (e + 1074))) (2 ^ 1074).
Proof.
  intros He.
  assert (HD : 0 < 2 ^ 1074) by (apply Z.pow_pos_nonneg; lia).
  assert (Hk : 0 < 2 ^ (e + 1074)) by (apply Z.pow_pos_nonneg; lia).
  destruct e as [|p|p]; unfold hundredths.
  - rewrite <- (round_half_even_exact (100 * Zpos m * 2 ^ 0) _ HD).
    f_equal. change (0 + 1074) with 1074. change (2 ^ 0) with 1. lia.
  - rewrite <- (round_half_even_exact (100 * Zpos m * 2 ^ Zpos p) _ HD).
    f_equal. rewrite Z.pow_add_r by lia. lia.
  - rewrite <- (round_half_even_scale (100 * Zpos m) (2 ^ Zpos p)
                  (2 ^ (Zneg p + 1074)))
      by (try apply Z.pow_pos_nonneg; lia).
    rewrite <- Z.pow_add_r by lia.
    replace (Zpos p + (Zneg p + 1074)) with 1074 by lia.
    f_equal. lia.
Qed.

(** The order of two valid positive numbers is the order of their
    multiples of [2^-1074]. *)
Lemma leb_scaled (mx my : positive) (ex ey : Z) :
  valid (S754_finite false mx ex) = true ->
  valid (S754_finite false my ey) = true ->
  leb (S754_finite false mx ex) (S754_finite false my ey) = true ->
  Zpos mx * 2 ^ (ex + 1074) <= Zpos my * 2 ^ (ey + 1074).
Proof.
  intros Hx Hy. unfold leb, SFleb. cbn [SFcompare].
  destruct (valid_mantissa false _ _ Hx) as (Hmx & Hex & _).
  destruct (valid_mantissa false _ _ Hy) as (Hmy & Hey & Hdy).
  destruct (Z.compare_spec ex ey) as [E|E|E]; try discriminate.
  - subst ey.
    change (Pos.compare_cont Eq mx my) with (Pos.compare mx my).
    intros Hc.
    assert (Zpos mx <= Zpos my)
      by (destruct (Pos.compare_spec mx my); try discriminate; lia).
    apply Z.mul_le_mono_nonneg_r; [apply Z.pow_nonneg; lia|assumption].
  - intros _. destruct Hdy as [Hdy|Hdy]; [|lia].
    destruct (digits_bounds my) as [Hlo _]. rewrite Hdy in Hlo.
    change (2 ^ (53 - 1)) with (2 ^ 52) in Hlo.
    assert (Hk : 0 < 2 ^ (ex + 1074)) by (apply Z.pow_pos_nonneg; lia).
    assert (Hk' : 0 < 2 ^ (ey + 1074)) by (apply Z.pow_pos_nonneg; lia).
    apply Z.le_trans with (2 ^ 53 * 2 ^ (ex + 1074));
      [apply Z.mul_le_mono_nonneg_r; lia|].
    apply Z.le_trans with (2 ^ 52 * 2 ^ (ey + 1074));
      [|apply Z.mul_le_mono_nonneg_r; lia].
    rewrite <- !Z.pow_add_r by lia.
    apply Z.pow_le_mono_r; lia.
Qed.

Lemma hundredths_mono (mx my : positive) (ex ey : Z) :
  valid (S754_finite false mx ex) = true ->
  valid (S754_finite false my ey) = true ->
  leb (S754_finite false mx ex) (S754_finite false my ey) = true ->
  hundredths mx ex <= hundredths my ey.
Proof.
  intros Hx Hy Hle.
  destruct (valid_mantissa false _ _ Hx) as (_ & Hex & _).
  destruct (valid_mantissa false _ _ Hy) as (_ & Hey & _).
  rewrite !hundredths_scaled by lia.
  apply round_half_even_mono; [apply Z.pow_pos_nonneg; lia|].
  pose proof (leb_scaled mx my ex ey Hx Hy Hle). lia.
Qed.

(** Of two valid numbers written with digits, the one that is not above
    the other is typed as an amount that is not above the other's. *)
Lemma sent_value_mono (x y : spec_float) :
  valid x = true -> valid y = true ->
  finite x = true -> finite y = true ->
  leb x y = true ->
  (sent_value x <= sent_value y)%Q.
Proof.
  destruct x as [sx|sx| |sx mx ex], y as [sy|sy| |sy my ey];
    try discriminate; intros Hx Hy _ _ Hle; unfold sent_value.
  - destruct sy; [destruct sx; discriminate|].
    pose proof (hundredths_nonneg my ey).
    unfold Qle. cbn [Qnum Qden]. lia.
  - destruct sx; [|destruct sy; discriminate].
    pose proof (hundredths_nonneg mx ex).
    unfold Qle, Qopp. cbn [Qnum Qden]. lia.
  - destruct sx, sy; try discriminate.
    + change (S754_finite true mx ex) with (SFopp (S754_finite false mx ex))
        in Hle.
      change (S754_finite true my ey) with (SFopp (S754_finite false my ey))
        in Hle.
      rewrite leb_opp in Hle.
      pose proof (hundredths_mono my mx ey ex Hy Hx Hle).
      unfold Qle, Qopp. cbn [Qnum Qden]. lia.
    + pose proof (hundredths_nonneg mx ex).
      pose proof (hundredths_nonneg my ey).
      unfold Qle, Qopp. cbn [Qnum Qden]. lia.
    + pose proof (hundredths_mono mx my ex ey Hx Hy Hle).
      unfold Qle. cbn [Qnum Qden]. lia.
Qed.

(** The values the loop applies are valid binary64 numbers. *)
Lemma next_value_valid (c target : spec_float) :
  valid c = true -> valid target = true ->
  valid (next_value c target) = true.
Proof.
  intros Hc Ht. unfold next_value. destruct (_ >? _)%py; [exact Ht|].
  destruct c as [s|s| |[] m e]; try reflexivity.
  - apply mul_growth_negative, Hc.
  - apply mul_growth_positive, Hc.
Qed.

Lemma chain_valid (target c : spec_float) (l : list spec_float) :
  chain target c l ->
  valid c = true -> valid target = true ->
  Forall (fun v => valid v = true) l.
Proof.
  induction 1 as [c|c l Hg Hc IH]; intros Hv Ht; constructor.
  - apply next_value_valid; assumption.
  - apply IH; [apply next_value_valid|]; assumption.
Qed.

End Cents.

(** ** What is typed reads back as the rounded value *)

Section AmountFacts.
Import PyFloat.

Lemma string_of_uint_digits (d : Decimal.uint) :
  all_digits (NilEmpty.string_of_uint d) = true.
Proof. induction d; simpl; auto. Qed.

Lemma digits_of_digits (n : Z) :
  all_digits (digits_of n) = true /\ digits_of n <> EmptyString.
Proof.
  unfold digits_of. destruct (N.to_uint (Z.to_N n)) as [|d|d|d|d|d|d|d|d|d|d];
    (split; [try reflexivity; apply (string_of_uint_digits (_ d))
            |try discriminate]).
Qed.

Lemma digit_is_no_sign (c : ascii) :
  is_digit c = true -> Ascii.eqb c "." = false /\ Ascii.eqb c "-" = false.
Proof.
  intros Hc. split.
  - destruct (Ascii.eqb_spec c "."); [subst; discriminate|reflexivity].
  - destruct (Ascii.eqb_spec c "-"); [subst; discriminate|reflexivity].
Qed.

Lemma split_point_digits (a b : string) :
  all_digits a = true ->
  split_point (a ++ "." ++ b) = Some (a, b).
Proof.
  induction a as [|c a IH]; [reflexivity|].
  cbn [all_digits]. intros Ha. apply andb_prop in Ha as [Hc Ha].
  change ((String c a ++ "." ++ b)%string) with (String c (a ++ "." ++ b)).
  cbn [split_point]. rewrite (proj1 (digit_is_no_sign c Hc)), (IH Ha).
  reflexivity.
Qed.

(** The digits written for a whole number read back as that number. *)
Lemma digits_of_read (n : Z) :
  0 <= n ->
  exists d, NilZero.uint_of_string (digits_of n) = Some d /\
            Z.of_N (N.of_uint d) = n.
Proof.
  intros Hn. unfold digits_of.
  pose proof (DecimalN.Unsigned.of_to (Z.to_N n)) as Hof.
  assert (Hd : exists d,
            NilZero.uint_of_string
              (NilZero.string_of_uint (N.to_uint (Z.to_N n))) = Some d /\
            N.of_uint d = N.of_uint (N.to_uint (Z.to_N n))).
  { destruct (N.to_uint (Z.to_N n)) as [|d|d|d|d|d|d|d|d|d|d];
      [exists (Decimal.D0 Decimal.Nil);
       split; [apply NilZero.usu_nil|reflexivity]|..];
      (eexists; split; [apply NilZero.usu; discriminate|reflexivity]). }
  destruct Hd as (d & Hd & E). exists d. split; [exact Hd|].
  rewrite E, Hof. lia.
Qed.

(** The two digits written for hundredths read back as that number. *)
Lemma two_digits_read (n : Z) :
  0 <= n < 100 ->
  exists d, NilZero.uint_of_string (two_digits n) = Some d /\
            Z.of_N (N.of_uint d) = n /\
            String.length (two_digits n) = 2%nat.
Proof.
  intros Hn.
  assert (Hall :
    forallb (fun k =>
               match NilZero.uint_of_string (two_digits (Z.of_nat k)) with
               | Some d =>
                   (Z.of_N (N.of_uint d) =? Z.of_nat k) &&
                   Nat.eqb (String.length (two_digits (Z.of_nat k))) 2
               | None => false
               end) (seq 0 100) = true) by (vm_compute; reflexivity).
  rewrite forallb_forall in Hall.
  specialize (Hall (Z.to_nat n)).
  rewrite Z2Nat.id in Hall by lia.
  assert (Hin : In (Z.to_nat n) (seq 0 100)) by (apply in_seq; lia).
  specialize (Hall Hin).
  destruct (NilZero.uint_of_string (two_digits n)) as [d|]; [|discriminate].
  apply andb_prop in Hall as [E1 E2].
  exists d. split; [reflexivity|].
  split; [apply Z.eqb_eq, E1|apply Nat.eqb_eq, E2].
Qed.

Lemma hundredths_of_text_fixed2 (h : Z) :
  0 <= h ->
  hundredths_of_text (digits_of (h / 100) ++ "." ++ two_digits (h mod 100))
    = Some h.
Proof.
  intros Hh. unfold hundredths_of_text.
  rewrite split_point_digits by apply digits_of_digits.
  destruct (digits_of_read (h / 100)) as (a & -> & Ha);
    [apply Z.div_pos; lia|].
  destruct (two_digits_read (h mod 100)) as (b & -> & Hb & ->);
    [apply Z.mod_pos_bound; lia|].
  cbn [Nat.eqb]. rewrite Ha, Hb. f_equal.
  pose proof (Z.div_mod h 100 ltac:(lia)). lia.
Qed.

(** The text typed for a finite value reads back as the value rounded to
    hundredths. *)
Lemma amount_format_2f (s : bool) (m : positive) (e : Z) :
  amount (format_2f (S754_finite s m e))
    = Some (sent_value (S754_finite s m e)).
Proof.
  pose proof (hundredths_nonneg m e) as Hh.
  pose proof (hundredths_of_text_fixed2 _ Hh) as Ht.
  unfold format_2f, fixed2, sent_value. destruct s.
  - change (("-" ++ digits_of (hundredths m e / 100) ++ "." ++
             two_digits (hundredths m e mod 100))%string)
      with (String "-" (digits_of (hundredths m e / 100) ++ "." ++
                        two_digits (hundredths m e mod 100))).
    cbn [amount]. change (Ascii.eqb "-" "-") with true. cbv iota.
    rewrite Ht. reflexivity.
  - change (("" ++ digits_of (hundredths m e / 100) ++ "." ++
             two_digits (hundredths m e mod 100))%string)
      with ((digits_of (hundredths m e / 100) ++ "." ++
             two_digits (hundredths m e mod 100))%string).
    destruct (digits_of_digits (hundredths m e / 100)) as [Hd Hne].
    destruct (digits_of (hundredths m e / 100)) as [|c r] eqn:E;
      [contradiction Hne; reflexivity|].
    cbn [all_digits] in Hd. apply andb_prop in Hd as [Hc _].
    change ((String c r ++ "." ++ two_digits (hundredths m e mod 100))%string)
      with (String c (r ++ "." ++ two_digits (hundredths m e mod 100)))
      in Ht |- *.
    cbn [amount]. rewrite (proj2 (digit_is_no_sign c Hc)), Ht. reflexivity.
Qed.

(** So does the text typed for a zero; and what the text reads back as is
    within five thousandths of the value. *)
Lemma amount_format_2f_finite (v : spec_float) :
  finite v = true ->
  exists q, amount (format_2f v) = Some q /\
            (q == sent_value v)%Q /\
            (Qabs (to_Q v - q) <= 1 # 200)%Q.
Proof.
  destruct v as [[]|?| |s m e]; try discriminate; intros _.
  - exists (- (0 # 100))%Q. repeat split; vm_compute; discriminate.
  - exists (0 # 100)%Q. repeat split; vm_compute; discriminate.
  - exists (sent_value (S754_finite s m e)).
    split; [apply amount_format_2f|]. split; [apply Qeq_refl|].
    apply format_2f_error.
Qed.

End AmountFacts.

(** ** [strip] *)

Section StripFacts.

Lemma string_strong_ind (P : string -> Prop) :
  (forall s, (forall t, (String.length t < String.length s)%nat -> P t) -> P s) ->
  forall s, P s.
Proof.
  intros Hstep s.
  enough (H : forall n t, (String.length t < n)%nat -> P t)
    by (apply (H (S (String.length s))); lia).
  induction n as [|n IH]; intros t Ht; [lia|].
  apply Hstep. intros u Hu. apply IH. lia.
Qed.

(** What [space_width] counts is at the head of the string. *)
Lemma space_width_bytes (s : string) :
  match space_width s with
  | 0%nat => True
  | 1%nat => exists a s1, s = String a s1
  | 2%nat => exists a b s2, s = String a (String b s2)
  | _ => exists a b c s3, s = String a (String b (String c s3))
  end /\ (space_width s <= 3)%nat.
Proof.
  destruct s as [|a [|b [|c s3]]]; cbn [space_width]; cbv zeta.
  - auto.
  - destruct (_ <? _)%N; [destruct (isspace _)|]; split; eauto.
  - destruct (_ <? _)%N; [destruct (isspace _); split; eauto|].
    destruct (continuation b); [|auto].
    destruct (_ && _); [destruct (_ && _); split; eauto|].
    destruct (_ && _); auto.
  - destruct (_ <? _)%N; [destruct (isspace _); split; eauto|].
    destruct (continuation b); [|auto].
    destruct (_ && _); [destruct (_ && _); split; eauto|].
    destruct (_ && _); [|auto].
    destruct (continuation c); [|auto].
    destruct (_ && _); split; eauto 6.
Qed.

(** The white space a string begins with is still there when something
    is appended. *)
Lemma space_width_app (s r : string) :
  space_width s <> 0%nat -> space_width (s ++ r) = space_width s.
Proof.
  destruct s as [|a [|b [|c s3]]]; cbn [space_width append]; cbv zeta;
    try (intros Hs; contradiction Hs; reflexivity).
  - destruct (_ <? _)%N; [reflexivity|].
    intros Hs; contradiction Hs; reflexivity.
  - destruct (_ <? _)%N; [reflexivity|].
    destruct (continuation b); [|reflexivity].
    destruct (_ && _); [reflexivity|].
    destruct (_ && _); [|reflexivity].
    intros Hs; contradiction Hs; reflexivity.
  - reflexivity.
Qed.

(** A string that begins with no white space has no prefix that does. *)
Lemma space_width_prefix (s r : string) :
  space_width (s ++ r) = 0%nat -> space_width s = 0%nat.
Proof.
  intros Hsr. destruct (Nat.eq_dec (space_width s) 0) as [E|E]; [exact E|].
  rewrite (space_width_app s r E) in Hsr. contradiction.
Qed.

Lemma lstrip_unfold (s : string) :
  lstrip s =
    match space_width s with
    | 0%nat => s
    | 1%nat => match s with String _ s1 => lstrip s1 | _ => s end
    | 2%nat => match s with String _ (String _ s2) => lstrip s2 | _ => s end
    | _ => match s with
           | String _ (String _ (String _ s3)) => lstrip s3
           | _ => s
           end
    end.
Proof.
  destruct s as [|a s1]; [reflexivity|]. cbn [lstrip].
  destruct (space_width (String a s1)) as [|[|[|n]]]; try reflexivity.
Qed.

Lemma all_space_unfold (s : string) :
  all_space s =
    match s with
    | EmptyString => true
    | _ =>
        match space_width s with
        | 0%nat => false
        | 1%nat => match s with String _ s1 => all_space s1 | _ => false end
        | 2%nat =>
            match s with
            | String _ (String _ s2) => all_space s2
            | _ => false
            end
        | _ =>
            match s with
            | String _ (String _ (String _ s3)) => all_space s3
            | _ => false
            end
        end
    end.
Proof.
  destruct s as [|a s1]; [reflexivity|]. cbn [all_space].
  destruct (space_width (String a s1)) as [|[|[|n]]]; try reflexivity.
Qed.

(** What [lstrip] leaves begins with no white space. *)
Lemma lstrip_head (s : string) : space_width (lstrip s) = 0%nat.
Proof.
  induction s as [s IH] using string_strong_ind.
  rewrite lstrip_unfold.
  destruct (space_width_bytes s) as [Hb _].
  destruct (space_width s) as [|[|[|n]]] eqn:E.
  - exact E.
  - destruct Hb as (a & s1 & ->). apply IH. simpl. lia.
  - destruct Hb as (a & b & s2 & ->). apply IH. simpl. lia.
  - destruct Hb as (a & b & c & s3 & ->). apply IH. simpl. lia.
Qed.

Lemma lstrip_fixed (s : string) : space_width s = 0%nat -> lstrip s = s.
Proof. intros E. rewrite lstrip_unfold, E. reflexivity. Qed.

Lemma lstrip_all_space (s : string) :
  all_space s = true -> lstrip s = EmptyString.
Proof.
  induction s as [s IH] using string_strong_ind.
  rewrite lstrip_unfold, all_space_unfold.
  destruct s as [|a s']; [reflexivity|].
  destruct (space_width_bytes (String a s')) as [Hb _].
  destruct (space_width (String a s')) as [|[|[|n]]] eqn:E.
  - discriminate.
  - apply IH. simpl. lia.
  - destruct Hb as (a0 & b & s2 & [= -> ->]). apply IH. simpl. lia.
  - destruct Hb as (a0 & b & c & s3 & [= -> ->]). apply IH. simpl. lia.
Qed.

Lemma all_space_app (s r : string) :
  all_space s = true -> all_space r = true -> all_space (s ++ r) = true.
Proof.
  intros Hs Hr. induction s as [s IH] using string_strong_ind.
  destruct s as [|a s']; [exact Hr|].
  rewrite all_space_unfold in Hs. rewrite all_space_unfold.
  assert (Hw : space_width (String a s') <> 0%nat)
    by (intros E; rewrite E in Hs; discriminate).
  rewrite (space_width_app _ r Hw).
  destruct (space_width_bytes (String a s')) as [Hb _].
  change ((String a s' ++ r)%string) with (String a (s' ++ r)).
  destruct (space_width (String a s')) as [|[|[|n]]] eqn:E.
  - discriminate.
  - apply IH; [simpl; lia|exact Hs].
  - destruct Hb as (a0 & b & s2 & [= -> ->]).
    apply (IH s2); [simpl; lia|exact Hs].
  - destruct Hb as (a0 & b & c & s3 & [= -> ->]).
    apply (IH s3); [simpl; lia|exact Hs].
Qed.

Lemma rstrip_cons (c : ascii) (s : string) :
  rstrip (String c s) =
    if all_space (String c s) then EmptyString else String c (rstrip s).
Proof. reflexivity. Qed.

(** [rstrip] removes white space from the end, and nothing else. *)
Lemma rstrip_tail (s : string) :
  exists w, s = (rstrip s ++ w)%string /\ all_space w = true.
Proof.
  induction s as [|c s (w & Hs & Hw)]; [exists EmptyString; auto|].
  rewrite rstrip_cons. destruct (all_space (String c s)) eqn:E.
  - exists (String c s). auto.
  - exists w. split; [|exact Hw]. simpl. f_equal. exact Hs.
Qed.

Lemma rstrip_idempotent (s : string) : rstrip (rstrip s) = rstrip s.
Proof.
  induction s as [|c s IH]; [reflexivity|].
  rewrite rstrip_cons. destruct (all_space (String c s)) eqn:E;
    [reflexivity|].
  rewrite rstrip_cons, IH.
  destruct (all_space (String c (rstrip s))) eqn:E'; [|reflexivity].
  destruct (rstrip_tail s) as (w & Hs & Hw).
  pose proof (all_space_app _ _ E' Hw) as Hall.
  change ((String c (rstrip s) ++ w)%string)
    with (String c (rstrip s ++ w)) in Hall.
  rewrite <- Hs in Hall. congruence.
Qed.

Lemma strip_idempotent (s : string) : strip (strip s) = strip s.
Proof.
  unfold strip.
  destruct (rstrip_tail (lstrip s)) as (w & Hs & _).
  pose proof (lstrip_head s) as Hh. rewrite Hs in Hh.
  apply space_width_prefix in Hh.
  rewrite (lstrip_fixed _ Hh). apply rstrip_idempotent.
Qed.

Lemma strip_all_space (s : string) :
  all_space s = true -> strip s = EmptyString.
Proof.
  intros Hs. unfold strip. rewrite (lstrip_all_space s Hs). reflexivity.
Qed.

Lemma sku_of_stripped (r : row) : strip (sku_of r) = sku_of r.
Proof.
  unfold sku_of. destruct (SKU r); [apply strip_idempotent|reflexivity].
Qed.

(** White space that is not ASCII is removed as [str.strip] removes it,
    and what is no white space is kept. *)
Example strip_unicode :
  strip (" " ++ nbsp ++ "SKU1" ++ emsp ++ nel ++ " ") = "SKU1"%string /\
  strip (zwsp ++ "SKU 1" ++ zwsp) = (zwsp ++ "SKU 1" ++ zwsp)%string /\
  strip (nbsp ++ emsp ++ nel) = EmptyString.
Proof. repeat split; reflexivity. Qed.

End StripFacts.

(** ** The batch, task by task *)

Section MoreBatchFacts.

Context {W : Type} `{Browser W}.

(** Every run of the batch loop has one of the shapes of [batch_run]. *)
Lemma iterrows_batch_run (fuel : nat) (df : list row) (w : W) :
  batch_run df (trace_of (iterrows fuel df w))
               (outcome_of (iterrows fuel df w)).
Proof.
  revert w. induction df as [|r rest IH]; intros w; [apply batch_end|].
  destruct (has_text r) eqn:Hr.
  - rewrite (iterrows_text fuel r rest w Hr).
    pose proof (update_price_for_task_run fuel (sku_of r) (FinalPrice r) w)
      as Ht.
    destruct (update_price_for_contained fuel (sku_of r) (FinalPrice r) w)
      as [_ [(Ho & _)|(Ho & _)]];
      destruct (update_price_for fuel (sku_of r) (FinalPrice r) w)
        as [[w1 t1] o1];
      unfold trace_of, outcome_of in Ht, Ho |- *; simpl in Ht, Ho |- *;
      subst o1.
    + specialize (IH w1).
      destruct (iterrows fuel rest w1) as [[w2 t2] o].
      apply batch_next; assumption.
    + apply batch_spent; assumption.
  - rewrite (iterrows_blank fuel r rest w Hr). apply batch_blank, Hr.
Qed.

End MoreBatchFacts.

(** The trace of a batch is the traces of its tasks, one after the other:
    the tasks of the first rows, each of them ended, then nothing more, or
    the task whose loop outlasts the fuel. *)
Lemma batch_run_tasks (df : list row) (tr : trace) (o : outcome unit) :
  batch_run df tr o ->
  exists (ts : list trace) (tail : trace),
    tr = List.concat ts ++ tail /\
    Forall2 (fun r t => has_text r = true /\
                        task_run (sku_of r) (FinalPrice r) t (Val tt))
            (firstn (List.length ts) df) ts /\
    match o with
    | Val _ => tail = [] /\ List.length ts = List.length df
    | Exc e =>
        e = AttributeError /\ tail = [] /\
        exists r, nth_error df (List.length ts) = Some r /\
                  has_text r = false
    | OutOfFuel =>
        exists r, nth_error df (List.length ts) = Some r /\
                  has_text r = true /\
                  task_run (sku_of r) (FinalPrice r) tail OutOfFuel
    end.
Proof.
  induction 1 as [|r rest Hr|r rest tr Hr Ht|r rest tr tr' o Hr Ht Hb IH].
  - exists [], []. repeat split. constructor.
  - exists [], []. repeat split; [constructor|]. exists r. auto.
  - exists [], tr. repeat split; [constructor|]. exists r. auto.
  - destruct IH as (ts & tail & -> & Hall & Ho).
    exists (tr :: ts), tail. split; [simpl; apply app_assoc|].
    split; [simpl; constructor; auto|].
    destruct o as [[]|e|]; simpl.
    + destruct Ho as [-> ->]. auto.
    + exact Ho.
    + exact Ho.
Qed.

Lemma batch_run_attempted (df : list row) (tr : trace) (o : outcome unit) :
  batch_run df tr o ->
  Forall (fun sku => strip sku = sku) (attempted tr).
Proof.
  induction 1 as [|r rest Hr|r rest tr Hr Ht|r rest tr tr' o Hr Ht Hb IH];
    try constructor.
  - destruct (task_run_observed _ _ _ _ Ht) as [-> _].
    constructor; [apply sku_of_stripped|constructor].
  - rewrite attempted_app. apply Forall_app. split; [|exact IH].
    destruct (task_run_observed _ _ _ _ Ht) as [-> _].
    constructor; [apply sku_of_stripped|constructor].
Qed.

(** ** The process *)

Section ProcessTraceFacts.

Lemma session_events_app (a b : list process_event) :
  session_events (a ++ b) = session_events a ++ session_events b.
Proof.
  induction a as [|ev a IH]; simpl; [reflexivity|].
  destruct ev; simpl; rewrite IH; reflexivity.
Qed.

Lemma login_sleeps_app (a b : list process_event) :
  login_sleeps (a ++ b) = login_sleeps a ++ login_sleeps b.
Proof.
  induction a as [|ev a IH]; simpl; [reflexivity|].
  destruct ev; simpl; rewrite IH; reflexivity.
Qed.

Lemma launches_app (a b : list process_event) :
  launches (a ++ b) = launches a ++ launches b.
Proof.
  induction a as [|ev a IH]; simpl; [reflexivity|].
  destruct ev; simpl; rewrite IH; reflexivity.
Qed.

Lemma sheets_read_app (a b : list process_event) :
  sheets_read (a ++ b) = sheets_read a ++ sheets_read b.
Proof.
  induction a as [|ev a IH]; simpl; [reflexivity|].
  destruct ev; simpl; rewrite IH; reflexivity.
Qed.

Lemma sessions_app (a b : list process_event) :
  sessions (a ++ b) = (sessions a + sessions b)%nat.
Proof.
  induction a as [|ev a IH]; simpl; [reflexivity|].
  destruct ev; simpl; rewrite IH; reflexivity.
Qed.

Lemma quit_calls_app (a b : list process_event) :
  quit_calls (a ++ b) = (quit_calls a + quit_calls b)%nat.
Proof.
  induction a as [|ev a IH]; simpl; [reflexivity|].
  destruct ev; simpl; rewrite IH; reflexivity.
Qed.

Lemma session_events_map (tr : trace) :
  session_events (map in_session tr) = tr.
Proof. induction tr as [|ev tr IH]; simpl; [|rewrite IH]; reflexivity. Qed.

(** The events of the task loop are no call made outside it. *)
Lemma in_session_quiet (tr : trace) :
  login_sleeps (map in_session tr) = [] /\
  launches (map in_session tr) = [] /\
  sheets_read (map in_session tr) = [] /\
  sessions (map in_session tr) = O /\
  quit_calls (map in_session tr) = O.
Proof. induction tr as [|ev tr IH]; simpl; auto. Qed.

(** Where an event of the task loop stands in a trace whose events of the
    task loop are all in one stretch. *)
Lemma split_at_session_event (pre post a b : list process_event)
    (tr : trace) (ev : event) :
  session_events pre = [] -> session_events post = [] ->
  pre ++ map in_session tr ++ post = a ++ in_session ev :: b ->
  exists tr1 tr2,
    a = pre ++ map in_session tr1 /\ b = map in_session tr2 ++ post.
Proof.
  intros Hpre Hpost. revert a. induction pre as [|x pre IH]; intros a E.
  - clear Hpre. revert a E. induction tr as [|e tr IH]; intros a E.
    + simpl in E. rewrite E, session_events_app in Hpost.
      simpl in Hpost. destruct (session_events a); discriminate.
    + destruct a as [|y a]; simpl in E.
      * injection E as _ <-. exists [], tr. auto.
      * injection E as <- E. destruct (IH a E) as (tr1 & tr2 & -> & ->).
        exists (e :: tr1), tr2. auto.
  - destruct a as [|y a]; simpl in E.
    + injection E as -> _. discriminate Hpre.
    + injection E as <- E.
      assert (Hpre' : session_events pre = [])
        by (destruct x; simpl in Hpre; try discriminate; exact Hpre).
      destruct (IH Hpre' a E) as (tr1 & tr2 & -> & ->).
      exists tr1, tr2. auto.
Qed.

End ProcessTraceFacts.

Section ProcessFacts.

Context {W : Type} `{Browser W} `{Host W}.

(** [time.sleep] raises [OverflowError] from 9223372037 seconds on, on
    either side of zero, and [ValueError] on the negative lengths short of
    that. *)
Lemma time_sleep_cases (secs : Z) :
  time_sleep secs =
    if (secs <=? -9223372037) || (9223372037 <=? secs)
    then Some OverflowError
    else if secs <? 0 then Some (Exn ValueError) else None.
Proof.
  unfold time_sleep. cbv zeta.
  change (10 ^ 9) with 1000000000.
  change (2 ^ 63) with 9223372036854775808.
  repeat match goal with
         | |- context [?a <? ?b] => destruct (Z.ltb_spec a b)
         | |- context [?a <=? ?b] => destruct (Z.leb_spec a b)
         end; simpl; try reflexivity; lia.
Qed.

(** [main], case by case on what the machine answers. *)
Lemma main_cases (fuel : nat) (args : Namespace) :
  let opts := chrome_options (negb (no_headless args)) in
  let boot := [call_makedirs SELENIUM_PROFILE; Info Launching;
               call_Chrome opts; chrome_running;
               Info (LoginWithin (login_wait args));
               login_sleep (login_wait args)] in
  (os_makedirs SELENIUM_PROFILE = false /\
   main fuel args = ([call_makedirs SELENIUM_PROFILE], Traceback OSError)) \/
  (exists e,
     Chrome opts = Err e /\
     main fuel args =
       ([call_makedirs SELENIUM_PROFILE; Info Launching; call_Chrome opts],
        Traceback (Exn e))) \/
  (exists w e,
     Chrome opts = Ok w /\ time_sleep (login_wait args) = Some e /\
     main fuel args = (boot, Traceback e)) \/
  (exists w,
     Chrome opts = Ok w /\ time_sleep (login_wait args) = None /\
     main fuel args =
       ((boot ++ [call_read_excel (excel args)]) ++
        map in_session
          (trace_of (run fuel (read_excel (excel args)) w)) ++
        match outcome_of (run fuel (read_excel (excel args)) w) with
        | OutOfFuel => []
        | _ => [Info ClosingChrome; call_quit]
        end,
        match outcome_of (run fuel (read_excel (excel args)) w),
              snd (driver_quit
                     (fst (fst (run fuel (read_excel (excel args)) w))))
        with
        | OutOfFuel, _ => Running
        | _, Err e => Traceback (Exn e)
        | Val _, Ok _ => Returned
        | Exc e, Ok _ => Traceback (Exn e)
        end)).
Proof.
  cbn zeta. unfold main, __init__.
  destruct (os_makedirs SELENIUM_PROFILE); [|left; auto].
  right. destruct (Chrome _) as [w|e]; [|left; exists e; auto].
  right. destruct (time_sleep (login_wait args)) as [e|] eqn:Hsleep;
    [left; exists w, e; auto|right; exists w].
  split; [reflexivity|]. split; [reflexivity|].
  unfold try_finally, bot_run, quit, trace_of, outcome_of.
  cbn [excel_path driver].
  destruct (run fuel (read_excel (excel args)) w) as [[w1 tr] o].
  cbn [fst snd excel_path driver].
  destruct o as [[]|e|];
    [| |simpl; rewrite app_nil_r; reflexivity];
    destruct (driver_quit w1) as [w2 [[]|e']]; simpl;
    rewrite <- ?app_assoc; reflexivity.
Qed.

End ProcessFacts.

(** * The claims *)

Section Monotonicity.
Import PyFloat PyFloatFacts GrowthFacts OrderFacts.

Context {W : Type} `{Browser W}.

(** C1. Monotonicity: when a task reads a value below its target and is
    reported as done, the values it passed to [_set_and_apply] are in
    non-decreasing order, there is at least one, and the last one is the
    target itself.  The value read and the target are binary64 numbers,
    as Python floats are. *)
Theorem applied_values_rise_to_target (fuel : nat) (sku : string)
    (target c : spec_float) (w : W) :
  valid c = true -> valid target = true ->
  reads (trace_of (update_price_for fuel sku target w)) = [c] ->
  reported (trace_of (update_price_for fuel sku target w))
    = [(sku, Succeeded)] ->
  (c <? target)%py = true ->
  nondecreasing (applied (trace_of (update_price_for fuel sku target w))) /\
  applied (trace_of (update_price_for fuel sku target w)) <> [] /\
  last (applied (trace_of (update_price_for fuel sku target w))) c = target.
Proof.
  intros Hvc Hvt Hr Hp Hg.
  destruct (task_run_observed _ _ _ _
              (update_price_for_task_run fuel sku target w))
    as [_ [(Hr' & _)|(c' & ltr & lo & Hl & Hr' & _ & -> & _ & Hp' & _)]].
  { rewrite Hr' in Hr. discriminate. }
  rewrite Hr' in Hr. injection Hr as ->.
  rewrite Hp', reported_closing in Hp.
  destruct lo as [[]|e|]; try discriminate.
  destruct (loop_run_done _ _ _ Hl) as [_ Hlast].
  pose proof (loop_run_chain _ _ _ _ Hl) as Hc.
  set (l := applied ltr) in *.
  destruct (float_sign_cases c (proj1 (ltb_not_nan _ _ Hg))) as [Hpos|Hneg].
  - destruct (chain_positive target Hvt c l Hc Hvc Hpos) as [Hnd Hall].
    assert (Hne : l <> []).
    { intros E. rewrite E in Hlast. simpl in Hlast. congruence. }
    split; [eapply nondecreasing_tail, Hnd|]. split; [exact Hne|].
    pose proof (last_In l c Hne) as Hin.
    pose proof (chain_le_target target c l Hc) as Hle.
    rewrite Forall_forall in Hall, Hle.
    specialize (Hall _ Hin). specialize (Hle _ Hin).
    apply compare_eq_positive; [exact Hall|].
    unfold leb, SFleb in Hle. unfold ltb, SFltb in Hlast.
    destruct (SFcompare (last l c) target) as [[]|];
      try discriminate; reflexivity.
  - pose proof (chain_nonpositive target c l Hc Hvc Hneg Hg) as Hlt.
    congruence.
Qed.

End Monotonicity.

(** C1, on the dashboard: from 100 to 105 in three passes. *)
Lemma applied_values_rise_to_target_witness :
  nondecreasing
    (applied (trace_of (update_price_for 3 "SKU1" price_105
                          (one_listing price_100)))) /\
  applied (trace_of (update_price_for 3 "SKU1" price_105
                       (one_listing price_100))) <> [] /\
  last (applied (trace_of (update_price_for 3 "SKU1" price_105
                             (one_listing price_100)))) price_100
    = price_105.
Proof.
  apply (applied_values_rise_to_target 3 "SKU1" price_105 price_100);
    reflexivity.
Defined.

Section NoOvershoot.
Import PyFloat PyFloatFacts.

Context {W : Type} `{Browser W}.

(** C2. No overshoot: in every run of a task, whatever the browser
    answers and however long the loop runs, each value passed to
    [_set_and_apply] is at most the target. *)
Theorem applied_values_never_exceed_target (fuel : nat) (sku : string)
    (target : spec_float) (w : W) :
  Forall (fun v => (v <=? target)%py = true)
         (applied (trace_of (update_price_for fuel sku target w))).
Proof.
  destruct (task_run_observed _ _ _ _
              (update_price_for_task_run fuel sku target w))
    as [_ [(_ & -> & _)|(c & ltr & lo & Hl & _ & _ & -> & _)]].
  - constructor.
  - eapply chain_le_target, loop_run_chain, Hl.
Qed.

End NoOvershoot.

Section MetTarget.
Import PyFloat PyFloatFacts.

Context {W : Type} `{Browser W}.

(** C3. Target already met: when the first read gives a value at or above
    the target, the task applies nothing, types nothing, and is reported
    as done; this needs no pass of the loop, hence no fuel. *)
Theorem met_target_is_left_alone (fuel : nat) (sku : string)
    (target c : spec_float) (w : W) :
  reads (trace_of (update_price_for fuel sku target w)) = [c] ->
  (c >=? target)%py = true ->
  applied (trace_of (update_price_for fuel sku target w)) = [] /\
  typed (trace_of (update_price_for fuel sku target w)) = [] /\
  reported (trace_of (update_price_for fuel sku target w))
    = [(sku, Succeeded)] /\
  outcome_of (update_price_for fuel sku target w) = Val tt.
Proof.
  intros Hr Hc.
  destruct (task_run_observed _ _ _ _
              (update_price_for_task_run fuel sku target w))
    as [_ [(Hr' & _)|(c' & ltr & lo & Hl & Hr' & _ & -> & -> & -> & ->)]].
  - rewrite Hr' in Hr. discriminate.
  - rewrite Hr' in Hr. injection Hr as ->.
    apply leb_not_ltb in Hc.
    inversion Hl; subst; try congruence.
    repeat split; reflexivity.
Qed.

End MetTarget.

(** C3, on the dashboard: the listing shows 100 and the target is 99. *)
Lemma met_target_is_left_alone_witness :
  applied (trace_of (update_price_for 0 "SKU1" price_99
                       (one_listing price_100))) = [] /\
  typed (trace_of (update_price_for 0 "SKU1" price_99
                     (one_listing price_100))) = [] /\
  reported (trace_of (update_price_for 0 "SKU1" price_99
                        (one_listing price_100)))
    = [("SKU1"%string, Succeeded)] /\
  outcome_of (update_price_for 0 "SKU1" price_99 (one_listing price_100))
    = Val tt.
Proof.
  apply (met_target_is_left_alone 0 "SKU1" price_99 price_100);
    reflexivity.
Defined.

Section StepBound.
Import PyFloat PyFloatFacts.

Context {W : Type} `{Browser W}.

(** C4. Step bound: each value applied is at most the product
    [current * 1.0199] as the program computes it, [current] being the
    value read for the first pass and the value applied before for the
    others; it is that product, or the target when the product exceeds
    it. *)
Theorem step_is_bounded_by_growth (fuel : nat) (sku : string)
    (target c : spec_float) (w : W) :
  reads (trace_of (update_price_for fuel sku target w)) = [c] ->
  step_bounded target c
    (applied (trace_of (update_price_for fuel sku target w))).
Proof.
  intros Hr.
  destruct (task_run_observed _ _ _ _
              (update_price_for_task_run fuel sku target w))
    as [_ [(Hr' & _)|(c' & ltr & lo & Hl & Hr' & _ & -> & _)]].
  - rewrite Hr' in Hr. discriminate.
  - rewrite Hr' in Hr. injection Hr as ->.
    eapply chain_step_bounded, loop_run_chain, Hl.
Qed.

End StepBound.

(** C4, on the dashboard: from 100 towards 105. *)
Lemma step_is_bounded_by_growth_witness :
  step_bounded price_105 price_100
    (applied (trace_of (update_price_for 3 "SKU1" price_105
                          (one_listing price_100)))).
Proof.
  apply (step_is_bounded_by_growth 3 "SKU1" price_105 price_100).
  reflexivity.
Defined.

(** C5, at the input that defeats it: the listing shows 0 and the target is
    105.  [0 * 1.0199] is 0, so each pass applies 0 again and the guard
    never fails: whatever the fuel, the loop is still running when it is
    spent, having applied 0 once per unit of fuel. *)
Theorem zero_price_is_stepped_forever (fuel : nat) :
  outcome_of (update_price_for fuel "SKU1" price_105 (one_listing price_0))
    = OutOfFuel /\
  applied (trace_of (update_price_for fuel "SKU1" price_105
                       (one_listing price_0)))
    = repeat price_0 fuel.
Proof.
  rewrite update_price_for_unfold. cbn zeta.
  change (driver_get (LISTING_URL "SKU1") (one_listing price_0))
    with (one_listing price_0, @Ok unit tt).
  cbv iota.
  change (pricing_modal "SKU1" (one_listing price_0))
    with ({| Sim.listings := [("SKU1"%string, price_0)];
             Sim.opened := Some price_0; Sim.field := [] |}, @Ok unit tt).
  cbv iota.
  change (settlement_value
            {| Sim.listings := [("SKU1"%string, price_0)];
               Sim.opened := Some price_0; Sim.field := [] |})
    with ({| Sim.listings := [("SKU1"%string, price_0)];
             Sim.opened := Some price_0; Sim.field := [] |}, Ok price_0).
  cbv iota.
  generalize (@nil string) as typed_so_far.
  assert (Hloop : forall n keys,
            exists p tr,
              stepping n price_0 price_105
                {| Sim.listings := [("SKU1"%string, price_0)];
                   Sim.opened := Some price_0; Sim.field := keys |}
              = (p, tr, OutOfFuel) /\ applied tr = repeat price_0 n).
  { induction n as [|n IH]; intros keys.
    - eexists _, _. split; reflexivity.
    - rewrite stepping_pass by reflexivity. cbn zeta.
      change (next_value price_0 price_105) with price_0.
      destruct (IH (keys ++ [PyFloat.format_2f price_0])%list)
        as (p & tr & E & Ha).
      exists p, (pass price_0 ++ tr).
      split.
      + simpl. simpl in E. rewrite E. reflexivity.
      + simpl. rewrite Ha. reflexivity. }
  intros keys. destruct (Hloop fuel keys) as (p & tr & E & Ha).
  rewrite E. unfold outcome_of, trace_of. simpl.
  split; [reflexivity|]. exact Ha.
Qed.

Section Isolation.

Context {W : Type} `{Browser W}.

(** C6. Isolation.  (1) When a browser interaction raises inside a task,
    in any of the four adapter methods, [update_price_for] returns
    normally and the task is reported as failed with that exception.
    (2) Over a sheet whose SKU cells all hold text, whatever the browser
    answers, [run] never raises: either it returns with every row's task
    attempted and reported, in order, as done or as failed; or the loop of
    one task outlasts the fuel, every task before it having been attempted
    and reported.  A failure is thus a report, after which the next row is
    attempted. *)
Theorem adapter_failures_stay_in_their_task (fuel : nat) :
  (forall (sku : string) (target : spec_float) (w : W) (e : exn),
     In (raised e) (trace_of (update_price_for fuel sku target w)) ->
     reported (trace_of (update_price_for fuel sku target w))
       = [(sku, FailedWith e)] /\
     outcome_of (update_price_for fuel sku target w) = Val tt) /\
  (forall (df : list row) (w : W),
     forallb has_text df = true ->
     (outcome_of (run fuel (Ok df) w) = Val tt /\
      attempted (trace_of (run fuel (Ok df) w)) = map sku_of df /\
      map fst (reported (trace_of (run fuel (Ok df) w))) = map sku_of df) \/
     (outcome_of (run fuel (Ok df) w) = OutOfFuel /\
      exists k, (k < List.length df)%nat /\
        attempted (trace_of (run fuel (Ok df) w))
          = firstn (S k) (map sku_of df) /\
        map fst (reported (trace_of (run fuel (Ok df) w)))
          = firstn k (map sku_of df))).
Proof.
  split.
  { intros sku target w e.
    apply (task_run_raised sku target), update_price_for_task_run. }
  intros df w Hdf. cbn [run].
  destruct (iterrows_app fuel df [] w Hdf)
    as [(w1 & t1 & w2 & t2 & o & E1 & E2 & Ha & Hp)|
        (w1 & t1 & k & E & Hk & Ha & Hp)];
    rewrite app_nil_r in *.
  - left. simpl in E1. injection E1 as _ <- <-.
    rewrite E2, app_nil_r. auto.
  - right. rewrite E. split; [reflexivity|]. exists k. auto.
Qed.

End Isolation.

(** C6, on the dashboard: the second of three tasks fails, its pricing
    modal never showing; the third one is attempted and reported all the
    same. *)
Lemma adapter_failures_stay_in_their_task_witness :
  (reported (trace_of (update_price_for 3 "SKU2" price_105 two_listings))
     = [("SKU2"%string, FailedWith TimeoutException)] /\
   outcome_of (update_price_for 3 "SKU2" price_105 two_listings)
     = Val tt) /\
  outcome_of (run 3 (Ok three_rows) two_listings) = Val tt /\
  attempted (trace_of (run 3 (Ok three_rows) two_listings))
    = ["SKU1"; "SKU2"; "SKU3"]%string /\
  reported (trace_of (run 3 (Ok three_rows) two_listings))
    = [("SKU1", Succeeded); ("SKU2", FailedWith TimeoutException);
       ("SKU3", Succeeded)]%string.
Proof.
  destruct (@adapter_failures_stay_in_their_task Sim.page _ 3)
    as [Htask Hrun].
  split.
  - apply Htask. simpl. auto 10.
  - destruct (Hrun three_rows two_listings eq_refl)
      as [(Ho & Ha & _)|(Ho & _)].
    + split; [exact Ho|]. split; [exact Ha|]. reflexivity.
    + discriminate Ho.
Defined.

Section TrackedValue.
Import PyFloat PyFloatFacts.

Context {W : Type} `{Browser W}.

(** C7, as the program has it: the tracked value is confirmed by a read
    once at most, and no read follows an apply.  After an apply the
    tracked value is the value that was just applied, and the next value
    is computed from it; so, as soon as one value is applied, it is not
    true that every apply is followed by a read. *)
Theorem tracked_value_is_read_once (fuel : nat) (sku : string)
    (target : spec_float) (w : W) :
  (read_calls (trace_of (update_price_for fuel sku target w)) <= 1)%nat /\
  read_after_apply (trace_of (update_price_for fuel sku target w))
    = false /\
  (forall c,
     reads (trace_of (update_price_for fuel sku target w)) = [c] ->
     chain target c
       (applied (trace_of (update_price_for fuel sku target w)))) /\
  (applied (trace_of (update_price_for fuel sku target w)) <> [] ->
   reread_after_apply (trace_of (update_price_for fuel sku target w))
     = false).
Proof.
  pose proof (update_price_for_task_run fuel sku target w) as Ht.
  destruct Ht as [e|e|e|c ltr lo Hl]; simpl.
  - split; [lia|]. split; [reflexivity|]. split; [discriminate|].
    intros Ha. contradiction Ha. reflexivity.
  - split; [lia|]. split; [reflexivity|]. split; [discriminate|].
    intros Ha. contradiction Ha. reflexivity.
  - split; [lia|]. split; [reflexivity|]. split; [discriminate|].
    intros Ha. contradiction Ha. reflexivity.
  - destruct (loop_run_quiet target c ltr lo Hl) as (Hr & Hn & _ & _).
    assert (Hcl : read_calls (closing sku lo) = O /\
                  reads (closing sku lo) = [] /\
                  read_comes_next (closing sku lo) = false)
      by (destruct lo; repeat split; reflexivity).
    destruct Hcl as (Hn' & Hr' & Hnext).
    split; [|split; [|split]].
    + split_trace. rewrite Hn, Hn'. simpl. lia.
    + apply no_read_no_read_after_apply.
      split_trace. rewrite Hn, Hn'. reflexivity.
    + split_trace. rewrite Hr, Hr', applied_closing, !app_nil_r.
      intros c' [= <-]. eapply loop_run_chain, Hl.
    + split_trace. rewrite applied_closing, app_nil_r. intros Ha.
      apply (loop_run_no_reread target c ltr _ lo Hl Ha Hnext).
Qed.

End TrackedValue.

(** C7 as stated fails: from 100 to 105 on the dashboard the task applies
    three values after its single read, and no apply is followed by a
    read. *)
Lemma applied_value_is_not_read_back :
  reread_after_apply
    (trace_of (update_price_for 3 "SKU1" price_105 (one_listing price_100)))
    = false /\
  read_calls
    (trace_of (update_price_for 3 "SKU1" price_105 (one_listing price_100)))
    = 1%nat /\
  List.length
    (applied (trace_of (update_price_for 3 "SKU1" price_105
                          (one_listing price_100)))) = 3%nat.
Proof.
  repeat split; reflexivity.
Qed.

(** C7, on the dashboard: the one read gives 100, and the three values
    applied follow from it. *)
Lemma tracked_value_is_read_once_witness :
  chain price_105 price_100
    (applied (trace_of (update_price_for 3 "SKU1" price_105
                          (one_listing price_100)))) /\
  reread_after_apply
    (trace_of (update_price_for 3 "SKU1" price_105 (one_listing price_100)))
    = false.
Proof.
  destruct (tracked_value_is_read_once 3 "SKU1" price_105
              (one_listing price_100)) as (_ & _ & Hc & Hn).
  split; [apply Hc; reflexivity|apply Hn; discriminate].
Defined.

Section Scenario.
Import PyFloat PyFloatFacts.

Context {W : Type} `{Browser W}.

(** C8, as the program has it: whatever the browser, a task that reads 100
    for the target 105 and is reported as done has made exactly three
    applies, of 100 * 1.0199, of that times 1.0199, and of the target, and
    has typed 101.99, 104.02 and 105.00. *)
Theorem scenario_100_to_105 (fuel : nat) (sku : string) (w : W) :
  reads (trace_of (update_price_for fuel sku price_105 w)) = [price_100] ->
  reported (trace_of (update_price_for fuel sku price_105 w))
    = [(sku, Succeeded)] ->
  applied (trace_of (update_price_for fuel sku price_105 w))
    = [step_1; step_2; price_105] /\
  typed (trace_of (update_price_for fuel sku price_105 w))
    = ["101.99"; "104.02"; "105.00"]%string.
Proof.
  intros Hr Hp.
  destruct (task_run_observed _ _ _ _
              (update_price_for_task_run fuel sku price_105 w))
    as [_ [(Hr' & _)|(c' & ltr & lo & Hl & Hr' & _ & -> & -> & Hp' & _)]].
  - rewrite Hr' in Hr. discriminate.
  - rewrite Hr' in Hr. injection Hr as ->.
    rewrite Hp', reported_closing in Hp.
    destruct lo as [[]|e|]; try discriminate.
    destruct (loop_run_done _ _ _ Hl) as [-> Hlast].
    pose proof (loop_run_chain _ _ _ _ Hl) as Hc.
    enough (applied ltr = [step_1; step_2; price_105]) as ->
        by (split; reflexivity).
    destruct (chain_inv _ _ _ Hc) as [E|(_ & l1 & E & Hc1)];
      rewrite E in Hlast |- *; [discriminate|].
    change (next_value price_100 price_105) with step_1 in *.
    destruct (chain_inv _ _ _ Hc1) as [E1|(_ & l2 & E1 & Hc2)];
      rewrite E1 in Hlast |- *; [discriminate|].
    change (next_value step_1 price_105) with step_2 in *.
    destruct (chain_inv _ _ _ Hc2) as [E2|(_ & l3 & E2 & Hc3)];
      rewrite E2 in Hlast |- *; [discriminate|].
    change (next_value step_2 price_105) with price_105 in *.
    destruct (chain_inv _ _ _ Hc3) as [E3|(Hg & _)];
      [rewrite E3; reflexivity|discriminate].
Qed.

End Scenario.

(** C8, on the dashboard: three units of fuel are enough for the task to
    end. *)
Lemma scenario_100_to_105_witness :
  applied (trace_of (update_price_for 3 "SKU1" price_105
                       (one_listing price_100)))
    = [step_1; step_2; price_105] /\
  typed (trace_of (update_price_for 3 "SKU1" price_105
                     (one_listing price_100)))
    = ["101.99"; "104.02"; "105.00"]%string.
Proof.
  apply (scenario_100_to_105 3 "SKU1" (one_listing price_100));
    reflexivity.
Defined.

(** C8 as stated fails: the second value typed is 104.02, not 103.99; the
    value it stands for is above 104. *)
Lemma scenario_second_step_is_not_103_99 :
  typed (trace_of (update_price_for 3 "SKU1" price_105
                     (one_listing price_100)))
    <> ["101.99"; "103.99"; "105.00"]%string /\
  nth 1 (typed (trace_of (update_price_for 3 "SKU1" price_105
                            (one_listing price_100)))) ""%string
    = "104.02"%string /\
  (PyFloat.of_Z_literal 104 <?
   nth 1 (applied (trace_of (update_price_for 3 "SKU1" price_105
                               (one_listing price_100)))) NaN)%py = true.
Proof.
  split; [|split]; [|reflexivity|reflexivity].
  vm_compute. discriminate.
Qed.

Section InputRows.

Context {W : Type} `{Browser W}.

(** C9 does not hold of the program: rows are not validated.  (1) The
    first row
    whose SKU cell is blank raises [AttributeError] out of [run]: when the
    tasks of the rows before it have ended they are all attempted and
    reported, and no row after it is attempted.  (2) A price that is NaN,
    as a blank price cell is, is not noticed: once the value is read the
    task applies nothing and is reported as done.  (3) When reading the
    sheet raises, [run] raises before any task. *)
Theorem rows_are_not_validated :
  (forall (fuel : nat) (pre post : list row) (r : row) (w : W),
     forallb has_text pre = true ->
     has_text r = false ->
     (outcome_of (run fuel (Ok (pre ++ r :: post)) w) = Exc AttributeError /\
      attempted (trace_of (run fuel (Ok (pre ++ r :: post)) w))
        = map sku_of pre /\
      map fst (reported (trace_of (run fuel (Ok (pre ++ r :: post)) w)))
        = map sku_of pre) \/
     (outcome_of (run fuel (Ok (pre ++ r :: post)) w) = OutOfFuel /\
      exists k, (k < List.length pre)%nat /\
        attempted (trace_of (run fuel (Ok (pre ++ r :: post)) w))
          = firstn (S k) (map sku_of pre))) /\
  (forall (fuel : nat) (sku : string) (c : spec_float) (w : W),
     reads (trace_of (update_price_for fuel sku NaN w)) = [c] ->
     applied (trace_of (update_price_for fuel sku NaN w)) = [] /\
     reported (trace_of (update_price_for fuel sku NaN w))
       = [(sku, Succeeded)]) /\
  (forall (fuel : nat) (e : exn) (w : W),
     run fuel (Err e) w = (w, [], Exc e)).
Proof.
  split; [|split].
  - intros fuel pre post r w Hpre Hr. cbn [run].
    destruct (iterrows_app fuel pre (r :: post) w Hpre)
      as [(w1 & t1 & w2 & t2 & o & E1 & E2 & Ha & Hp)|
          (w1 & t1 & k & E & Hk & Ha & Hp)].
    + left. rewrite (iterrows_blank fuel r post w1 Hr) in E1.
      injection E1 as _ <- <-. rewrite E2, app_nil_r. auto.
    + right. rewrite E. split; [reflexivity|]. exists k. auto.
  - intros fuel sku c w Hr.
    destruct (task_run_observed _ _ _ _
                (update_price_for_task_run fuel sku NaN w))
      as [_ [(Hr' & _)|(c' & ltr & lo & Hl & Hr' & _ & -> & _ & -> & _)]].
    + rewrite Hr' in Hr. discriminate.
    + assert (Hn : forall x, (x <? NaN)%py = false)
        by (intros []; reflexivity).
      inversion Hl; subst; try (rewrite Hn in *; discriminate).
      split; reflexivity.
  - reflexivity.
Qed.

End InputRows.

(** C9 as stated fails: a blank SKU cell in the first row ends the run
    with [AttributeError]; nothing is reported and the good row after it
    is never attempted. *)
Lemma blank_sku_aborts_the_run :
  outcome_of (run 3 (Ok blank_then_good) (one_listing price_100))
    = Exc AttributeError /\
  attempted (trace_of (run 3 (Ok blank_then_good) (one_listing price_100)))
    = [] /\
  reported (trace_of (run 3 (Ok blank_then_good) (one_listing price_100)))
    = [].
Proof.
  repeat split; reflexivity.
Qed.

(** C9, on the dashboard: a good row, then a blank SKU cell, then another
    good row that is never attempted. *)
Lemma rows_are_not_validated_witness :
  outcome_of (run 3 (Ok ([{| SKU := Text "SKU1"; FinalPrice := price_105 |}]
                          ++ {| SKU := Blank; FinalPrice := price_105 |}
                          :: [{| SKU := Text "SKU1";
                                 FinalPrice := price_105 |}]))
                (one_listing price_100)) = Exc AttributeError /\
  attempted (trace_of
    (run 3 (Ok ([{| SKU := Text "SKU1"; FinalPrice := price_105 |}]
                 ++ {| SKU := Blank; FinalPrice := price_105 |}
                 :: [{| SKU := Text "SKU1"; FinalPrice := price_105 |}]))
       (one_listing price_100))) = ["SKU1"%string].
Proof.
  destruct (proj1 (@rows_are_not_validated Sim.page _) 3%nat
              [{| SKU := Text "SKU1"; FinalPrice := price_105 |}]
              [{| SKU := Text "SKU1"; FinalPrice := price_105 |}]
              {| SKU := Blank; FinalPrice := price_105 |}
              (one_listing price_100) eq_refl eq_refl)
    as [(Ho & Ha & _)|(Ho & _)].
  - split; [exact Ho|exact Ha].
  - discriminate Ho.
Defined.

Section TypedText.
Import PyFloat PyFloatFacts.

Context {W : Type} `{Browser W}.

(** C10. Every apply types the [.2f] text of the value passed to
    [_set_and_apply]: the texts typed are those of the values applied, one
    for one and in order, unless the typing itself raised in the last
    apply, in which case the task is reported as failed and every apply
    before it has typed its text.  The value tracked for the next pass is
    the value passed itself, not its text.  For a zero or a finite value
    the text reads back as the value rounded to hundredths, which differs
    from the value by five thousandths at most. *)
Theorem typed_text_is_rounded_value (fuel : nat) (sku : string)
    (target : spec_float) (w : W) :
  (typed (trace_of (update_price_for fuel sku target w))
     = map format_2f
         (applied (trace_of (update_price_for fuel sku target w))) \/
   (exists e,
      reported (trace_of (update_price_for fuel sku target w))
        = [(sku, FailedWith e)] /\
      applied (trace_of (update_price_for fuel sku target w)) <> [] /\
      typed (trace_of (update_price_for fuel sku target w))
        = map format_2f
            (removelast
               (applied (trace_of (update_price_for fuel sku target w)))))) /\
  (forall c,
     reads (trace_of (update_price_for fuel sku target w)) = [c] ->
     chain target c
       (applied (trace_of (update_price_for fuel sku target w)))) /\
  (forall v,
     In v (applied (trace_of (update_price_for fuel sku target w))) ->
     finite v = true ->
     exists q, amount (format_2f v) = Some q /\
               (q == sent_value v)%Q /\
               (Qabs (to_Q v - q) <= 1 # 200)%Q).
Proof.
  destruct (task_run_observed _ _ _ _
              (update_price_for_task_run fuel sku target w))
    as [_ [(Hr & -> & -> & _)|
           (c & ltr & lo & Hl & Hr & _ & -> & -> & -> & _)]].
  - split; [left; reflexivity|]. split.
    + intros c Hc. rewrite Hr in Hc. discriminate.
    + intros v [].
  - split; [|split].
    + destruct (loop_run_typed_all _ _ _ _ Hl) as [Ht|(e & -> & Hne & Ht)];
        [left; exact Ht|right].
      exists e. rewrite reported_closing. auto.
    + intros c' Hc. rewrite Hr in Hc. injection Hc as <-.
      eapply loop_run_chain, Hl.
    + intros v _. apply amount_format_2f_finite.
Qed.

End TypedText.

(** C10, on the dashboard: from 100 to 105 each of the three applies types
    its text; the second value applied, 104.0196..., is typed as 104.02,
    which reads back as 10402 hundredths, and is tracked unrounded. *)
Lemma typed_text_is_rounded_value_witness :
  typed (trace_of (update_price_for 3 "SKU1" price_105
                     (one_listing price_100)))
    = map PyFloat.format_2f
        (applied (trace_of (update_price_for 3 "SKU1" price_105
                              (one_listing price_100)))) /\
  typed (trace_of (update_price_for 3 "SKU1" price_105
                     (one_listing price_100)))
    = ["101.99"; "104.02"; "105.00"]%string /\
  chain price_105 price_100
    (applied (trace_of (update_price_for 3 "SKU1" price_105
                          (one_listing price_100)))) /\
  (exists q, amount "104.02" = Some q /\
             (q == PyFloat.sent_value step_2)%Q /\
             (Qabs (PyFloat.to_Q step_2 - q) <= 1 # 200)%Q) /\
  ~ (PyFloat.to_Q step_2 == PyFloat.sent_value step_2)%Q.
Proof.
  destruct (typed_text_is_rounded_value 3 "SKU1" price_105
              (one_listing price_100)) as (Ht & Hc & Hq).
  split; [|split; [reflexivity|split; [apply Hc; reflexivity|]]].
  - destruct Ht as [Ht|(e & He & _)]; [exact Ht|].
    vm_compute in He. discriminate He.
  - split; [|vm_compute; discriminate].
    apply (Hq step_2); [vm_compute; auto|reflexivity].
Defined.

(** * Further properties *)

Section TaskProperties.
Import PyFloat PyFloatFacts GrowthFacts OrderFacts.

Context {W : Type} `{Browser W}.


(** X2. The log of a task is told by what it did: the line that announces
    the navigation, the starting line when a value was read, one line per
    value passed to [_set_and_apply], in order and carrying its [.2f]
    text, and the closing line of the report. *)
Theorem log_follows_the_task (fuel : nat) (sku : string)
    (target : spec_float) (w : W) :
  logged (trace_of (update_price_for fuel sku target w))
    = Navigating sku
      :: map (fun c => Starting (format_2f c) (format_2f target))
             (reads (trace_of (update_price_for fuel sku target w)))
      ++ map (fun v => Bumping (format_2f v))
             (applied (trace_of (update_price_for fuel sku target w)))
      ++ map closing_line
             (reported (trace_of (update_price_for fuel sku target w))).
Proof.
  eapply task_run_logged, update_price_for_task_run.
Qed.

(** X3. Raise only: from a positive value read, in every run of the task,
    ended or not, failed or not, no value applied is below the value
    read or below the value applied before it, and all are positive. *)
Theorem price_is_never_lowered (fuel : nat) (sku : string)
    (target c : spec_float) (w : W) :
  valid c = true -> valid target = true ->
  positive_float c = true ->
  reads (trace_of (update_price_for fuel sku target w)) = [c] ->
  nondecreasing
    (c :: applied (trace_of (update_price_for fuel sku target w))) /\
  Forall (fun v => positive_float v = true)
         (applied (trace_of (update_price_for fuel sku target w))).
Proof.
  intros Hvc Hvt Hp Hr.
  destruct (task_run_loop _ _ _ _ c
              (update_price_for_task_run fuel sku target w) Hr)
    as (ltr & lo & Hl & -> & _).
  apply (chain_positive target Hvt c); trivial.
  eapply loop_run_chain, Hl.
Qed.

(** X4. No pass is wasted on a normal price: from a positive normal value
    read, each value applied is strictly above the value read or the
    value applied before it. *)
Theorem each_apply_raises_a_normal_price (fuel : nat) (sku : string)
    (target c : spec_float) (w : W) :
  valid c = true -> valid target = true ->
  normal_positive c = true ->
  reads (trace_of (update_price_for fuel sku target w)) = [c] ->
  increasing (c :: applied (trace_of (update_price_for fuel sku target w))).
Proof.
  intros Hvc Hvt Hn Hr.
  destruct (task_run_loop _ _ _ _ c
              (update_price_for_task_run fuel sku target w) Hr)
    as (ltr & lo & Hl & -> & _).
  apply (chain_increasing target); trivial.
  eapply loop_run_chain, Hl.
Qed.

(** X5. A value read that is zero or negative and below the target is
    never brought to it: whatever the fuel and the browser, the task is
    not reported as done, its loop is still running or a browser
    interaction has raised; each value applied is at most the one before
    it and still below the target. *)
Theorem nonpositive_price_never_reaches_target (fuel : nat) (sku : string)
    (target c : spec_float) (w : W) :
  valid c = true -> nonpositive_float c = true ->
  (c <? target)%py = true ->
  reads (trace_of (update_price_for fuel sku target w)) = [c] ->
  (outcome_of (update_price_for fuel sku target w) = OutOfFuel \/
   exists e, reported (trace_of (update_price_for fuel sku target w))
             = [(sku, FailedWith e)]) /\
  nonincreasing
    (c :: applied (trace_of (update_price_for fuel sku target w))) /\
  (last (applied (trace_of (update_price_for fuel sku target w))) c
     <? target)%py = true.
Proof.
  intros Hvc Hn Hg Hr.
  destruct (task_run_loop _ _ _ _ c
              (update_price_for_task_run fuel sku target w) Hr)
    as (ltr & lo & Hl & -> & _ & -> & ->).
  pose proof (loop_run_chain _ _ _ _ Hl) as Hc.
  pose proof (chain_nonpositive target c _ Hc Hvc Hn Hg) as Hlast.
  split; [|split; [apply (chain_nonincreasing target); trivial|exact Hlast]].
  rewrite reported_closing. destruct lo as [[]|e|].
  - destruct (loop_run_done _ _ _ Hl) as [_ Hdone]. congruence.
  - right. exists e. reflexivity.
  - left. reflexivity.
Qed.

(** X6. A task that reads a positive normal value ends and is reported,
    as done or as failed, as soon as the fuel exceeds the count of
    binary64 numbers between the value read and the target: the loop
    cannot go on for ever. *)
Theorem normal_price_task_is_reported (fuel : nat) (sku : string)
    (target c : spec_float) (w : W) :
  valid c = true -> valid target = true ->
  normal_positive c = true ->
  reads (trace_of (update_price_for fuel sku target w)) = [c] ->
  rank target - rank c < Z.of_nat fuel ->
  outcome_of (update_price_for fuel sku target w) = Val tt /\
  exists v, reported (trace_of (update_price_for fuel sku target w))
            = [(sku, v)].
Proof.
  intros Hvc Hvt Hn Hr Hfuel.
  pose proof (task_ends_from_a_normal_price target Hvt fuel sku c w
                Hvc Hn Hr Hfuel) as Ho.
  split; [exact Ho|].
  destruct (update_price_for_contained fuel sku target w)
    as [_ [(_ & Hv)|(Ho' & _)]]; [exact Hv|congruence].
Qed.

(** X7. When a task that has read a value below its target is reported as
    done, every value applied has been typed, and the last text typed is
    the [.2f] text of the target. *)
Theorem done_task_has_typed_the_target (fuel : nat) (sku : string)
    (target c : spec_float) (w : W) :
  valid c = true -> valid target = true ->
  reads (trace_of (update_price_for fuel sku target w)) = [c] ->
  reported (trace_of (update_price_for fuel sku target w))
    = [(sku, Succeeded)] ->
  (c <? target)%py = true ->
  typed (trace_of (update_price_for fuel sku target w))
    = map format_2f
        (applied (trace_of (update_price_for fuel sku target w))) /\
  last (typed (trace_of (update_price_for fuel sku target w))) EmptyString
    = format_2f target.
Proof.
  intros Hvc Hvt Hr Hp Hg.
  destruct (task_run_loop _ _ _ _ c
              (update_price_for_task_run fuel sku target w) Hr)
    as (ltr & lo & Hl & -> & -> & Hp' & _).
  rewrite Hp', reported_closing in Hp.
  destruct lo as [[]|e|]; try discriminate.
  destruct (loop_run_done _ _ _ Hl) as [Ht Hlast].
  pose proof (loop_run_chain _ _ _ _ Hl) as Hc.
  destruct (chain_reaches_target target Hvt c _ Hc Hvc Hg Hlast)
    as [Hne Htarget].
  split; [exact Ht|]. rewrite Ht, <- Htarget.
  destruct (applied ltr) as [|a l]; [contradiction Hne; reflexivity|].
  rewrite (last_nonempty a l c a). apply last_map_cons.
Qed.

(** X8. A read that gives NaN is not noticed: the comparison with the
    target is false, so nothing is applied or typed and the task is
    reported as done. *)
Theorem nan_read_is_reported_done (fuel : nat) (sku : string)
    (target c : spec_float) (w : W) :
  reads (trace_of (update_price_for fuel sku target w)) = [c] ->
  is_nan c = true ->
  applied (trace_of (update_price_for fuel sku target w)) = [] /\
  typed (trace_of (update_price_for fuel sku target w)) = [] /\
  reported (trace_of (update_price_for fuel sku target w))
    = [(sku, Succeeded)].
Proof.
  intros Hr Hc.
  destruct (task_run_loop _ _ _ _ c
              (update_price_for_task_run fuel sku target w) Hr)
    as (ltr & lo & Hl & -> & -> & -> & _).
  destruct c; try discriminate.
  inversion Hl; subst; try discriminate. repeat split; reflexivity.
Qed.

(** X9. No overshoot in what is typed: the amount each applied value is
    typed as, its value rounded to hundredths, is at most the amount the
    target is written as. *)
Theorem typed_amount_is_at_most_the_target (fuel : nat) (sku : string)
    (target c : spec_float) (w : W) :
  valid c = true -> valid target = true -> finite target = true ->
  reads (trace_of (update_price_for fuel sku target w)) = [c] ->
  Forall (fun v => finite v = true ->
                   (sent_value v <= sent_value target)%Q)
         (applied (trace_of (update_price_for fuel sku target w))).
Proof.
  intros Hvc Hvt Hft Hr.
  destruct (task_run_loop _ _ _ _ c
              (update_price_for_task_run fuel sku target w) Hr)
    as (ltr & lo & Hl & -> & _).
  pose proof (loop_run_chain _ _ _ _ Hl) as Hc.
  pose proof (chain_valid target c _ Hc Hvc Hvt) as Hv.
  pose proof (chain_le_target target c _ Hc) as Hle.
  rewrite Forall_forall in Hv, Hle |- *.
  intros v Hin Hfv. apply sent_value_mono; auto.
Qed.

(** X10. Towards a finite target, a positive value read is only ever
    raised to positive finite numbers: what is typed is a number written
    with digits, never [inf] or [nan]. *)
Theorem positive_price_is_applied_as_a_number (fuel : nat) (sku : string)
    (target c : spec_float) (w : W) :
  valid c = true -> valid target = true -> finite target = true ->
  positive_float c = true ->
  reads (trace_of (update_price_for fuel sku target w)) = [c] ->
  Forall (fun v => finite v = true /\ positive_float v = true)
         (applied (trace_of (update_price_for fuel sku target w))).
Proof.
  intros Hvc Hvt Hft Hp Hr.
  destruct (task_run_loop _ _ _ _ c
              (update_price_for_task_run fuel sku target w) Hr)
    as (ltr & lo & Hl & -> & _).
  pose proof (loop_run_chain _ _ _ _ Hl) as Hc.
  destruct (chain_positive target Hvt c _ Hc Hvc Hp) as [_ Hpos].
  pose proof (chain_le_target target c _ Hc) as Hle.
  rewrite Forall_forall in Hpos, Hle |- *.
  intros v Hin. specialize (Hpos v Hin). specialize (Hle v Hin).
  split; [|exact Hpos].
  destruct v as [?|[]| |[] ? ?]; try discriminate; try reflexivity.
  destruct target as [?|?| |[] ? ?]; discriminate.
Qed.

End TaskProperties.

(** X3, on the dashboard: from 100 towards 105. *)
Lemma price_is_never_lowered_witness :
  nondecreasing
    (price_100 :: applied (trace_of (update_price_for 3 "SKU1" price_105
                                       (one_listing price_100)))) /\
  Forall (fun v => PyFloat.positive_float v = true)
         (applied (trace_of (update_price_for 3 "SKU1" price_105
                               (one_listing price_100)))).
Proof.
  apply (price_is_never_lowered 3 "SKU1" price_105 price_100);
    reflexivity.
Defined.

(** X4, on the dashboard: from 100 towards 105. *)
Lemma each_apply_raises_a_normal_price_witness :
  increasing
    (price_100 :: applied (trace_of (update_price_for 3 "SKU1" price_105
                                       (one_listing price_100)))).
Proof.
  apply (each_apply_raises_a_normal_price 3 "SKU1" price_105 price_100);
    reflexivity.
Defined.

(** X5, on the dashboard: the listing shows -100 and the target is 105;
    after two passes the price is lower and the loop is still running. *)
Lemma nonpositive_price_never_reaches_target_witness :
  (outcome_of (update_price_for 2 "SKU1" price_105
                 (one_listing price_minus_100)) = OutOfFuel \/
   exists e, reported (trace_of (update_price_for 2 "SKU1" price_105
                                   (one_listing price_minus_100)))
             = [("SKU1"%string, FailedWith e)]) /\
  nonincreasing
    (price_minus_100
       :: applied (trace_of (update_price_for 2 "SKU1" price_105
                               (one_listing price_minus_100)))) /\
  (last (applied (trace_of (update_price_for 2 "SKU1" price_105
                              (one_listing price_minus_100))))
        price_minus_100 <? price_105)%py = true.
Proof.
  apply (nonpositive_price_never_reaches_target 2 "SKU1" price_105
           price_minus_100); reflexivity.
Defined.

(** X6, on the dashboard: the target is the second number above 100, and
    three units of fuel are more than enough. *)
Lemma normal_price_task_is_reported_witness :
  outcome_of (update_price_for 3 "SKU1" price_100_and_2_ulp
                (one_listing price_100)) = Val tt /\
  exists v, reported (trace_of (update_price_for 3 "SKU1"
                                  price_100_and_2_ulp
                                  (one_listing price_100)))
            = [("SKU1"%string, v)].
Proof.
  apply (normal_price_task_is_reported 3 "SKU1" price_100_and_2_ulp
           price_100); reflexivity.
Defined.

(** X7, on the dashboard: from 100 to 105 the last text typed is
    105.00. *)
Lemma done_task_has_typed_the_target_witness :
  typed (trace_of (update_price_for 3 "SKU1" price_105
                     (one_listing price_100)))
    = map PyFloat.format_2f
        (applied (trace_of (update_price_for 3 "SKU1" price_105
                              (one_listing price_100)))) /\
  last (typed (trace_of (update_price_for 3 "SKU1" price_105
                           (one_listing price_100)))) EmptyString
    = PyFloat.format_2f price_105.
Proof.
  apply (done_task_has_typed_the_target 3 "SKU1" price_105 price_100);
    reflexivity.
Defined.

(** X8, on the dashboard: the field of the listing holds NaN. *)
Lemma nan_read_is_reported_done_witness :
  applied (trace_of (update_price_for 0 "SKU1" price_105
                       (one_listing NaN))) = [] /\
  typed (trace_of (update_price_for 0 "SKU1" price_105
                     (one_listing NaN))) = [] /\
  reported (trace_of (update_price_for 0 "SKU1" price_105
                        (one_listing NaN)))
    = [("SKU1"%string, Succeeded)].
Proof.
  apply (nan_read_is_reported_done 0 "SKU1" price_105 NaN); reflexivity.
Defined.

(** X9, on the dashboard: from 100 to 105, no amount typed is above
    105.00. *)
Lemma typed_amount_is_at_most_the_target_witness :
  Forall (fun v => finite v = true ->
                   (PyFloat.sent_value v <= PyFloat.sent_value price_105)%Q)
         (applied (trace_of (update_price_for 3 "SKU1" price_105
                               (one_listing price_100)))).
Proof.
  apply (typed_amount_is_at_most_the_target 3 "SKU1" price_105 price_100);
    reflexivity.
Defined.

(** X10, on the dashboard: from 100 towards 105. *)
Lemma positive_price_is_applied_as_a_number_witness :
  Forall (fun v => finite v = true /\ PyFloat.positive_float v = true)
         (applied (trace_of (update_price_for 3 "SKU1" price_105
                               (one_listing price_100)))).
Proof.
  apply (positive_price_is_applied_as_a_number 3 "SKU1" price_105
           price_100); reflexivity.
Defined.

Section BatchProperties.

Context {W : Type} `{Browser W}.

(** X11. One task at a time, in the order of the rows: the trace of [run]
    is the traces of the tasks of the first rows, one after the other and
    each of them ended with its report, followed by nothing when all the
    rows are done or when the next row has a blank SKU cell (which raises
    [AttributeError]), or by the trace of the next row's task when its
    loop outlasts the fuel. *)
Theorem run_is_one_task_after_the_other (fuel : nat) (df : list row)
    (w : W) :
  exists (ts : list trace) (tail : trace),
    trace_of (run fuel (Ok df) w) = List.concat ts ++ tail /\
    Forall2 (fun r t => has_text r = true /\
                        task_run (sku_of r) (FinalPrice r) t (Val tt))
            (firstn (List.length ts) df) ts /\
    match outcome_of (run fuel (Ok df) w) with
    | Val _ => tail = [] /\ List.length ts = List.length df
    | Exc e =>
        e = AttributeError /\ tail = [] /\
        exists r, nth_error df (List.length ts) = Some r /\
                  has_text r = false
    | OutOfFuel =>
        exists r, nth_error df (List.length ts) = Some r /\
                  has_text r = true /\
                  task_run (sku_of r) (FinalPrice r) tail OutOfFuel
    end.
Proof.
  cbn [run]. apply batch_run_tasks, iterrows_batch_run.
Qed.

(** X12. Every task is run with a stripped SKU: whatever the sheet, a SKU
    that [_open_listing] is called with has no white space at either end,
    ASCII or not, that is, [str.strip] changes nothing of it. *)
Theorem attempted_skus_are_stripped (fuel : nat) (sheet : reply (list row))
    (w : W) :
  Forall (fun sku => strip sku = sku)
         (attempted (trace_of (run fuel sheet w))).
Proof.
  destruct sheet as [df|e]; [|constructor].
  cbn [run]. eapply batch_run_attempted, iterrows_batch_run.
Qed.

(** X13. A SKU cell that holds nothing but white space, ASCII or not, is
    not taken for a blank one: its task is run, with the empty string for
    SKU. *)
Theorem space_only_sku_is_attempted_as_empty (fuel : nat) (s : string)
    (p : spec_float) (rest : list row) (w : W) :
  all_space s = true ->
  exists skus,
    attempted (trace_of (run fuel (Ok ({| SKU := Text s; FinalPrice := p |}
                                         :: rest)) w))
      = EmptyString :: skus.
Proof.
  intros Hs. cbn [run]. rewrite iterrows_text by reflexivity.
  unfold sku_of. cbn [SKU FinalPrice]. rewrite (strip_all_space s Hs).
  destruct (update_price_for_contained fuel EmptyString p w) as [Ha _].
  destruct (update_price_for fuel EmptyString p w) as [[w1 t1] o1].
  unfold trace_of in Ha |- *. simpl in Ha.
  destruct o1 as [[]|e|].
  - destruct (iterrows fuel rest w1) as [[w2 t2] o2]. simpl.
    rewrite attempted_app, Ha. eexists. reflexivity.
  - simpl. rewrite Ha. eexists. reflexivity.
  - simpl. rewrite Ha. eexists. reflexivity.
Qed.

End BatchProperties.

(** X13, on the dashboard: a cell of a space, a no-break space and an em
    space. *)
Lemma space_only_sku_is_attempted_as_empty_witness :
  exists skus,
    attempted (trace_of (run 3 (Ok ({| SKU := Text (" " ++ nbsp ++ emsp);
                                       FinalPrice := price_105 |} :: one_row))
                           (one_listing price_100)))
      = EmptyString :: skus.
Proof.
  apply (space_only_sku_is_attempted_as_empty 3 (" " ++ nbsp ++ emsp)
           price_105 one_row (one_listing price_100)).
  reflexivity.
Defined.

Ltac observe tr :=
  let Hs := fresh in
  let Hl := fresh in
  let Hr := fresh in
  let Hn := fresh in
  let Hq := fresh in
  destruct (in_session_quiet tr) as (Hs & Hl & Hr & Hn & Hq);
  rewrite ?session_events_app, ?login_sleeps_app, ?launches_app,
    ?sheets_read_app, ?sessions_app, ?quit_calls_app, ?session_events_map,
    ?Hs, ?Hl, ?Hr, ?Hn, ?Hq.

Section ProcessProperties.

Context {W : Type} `{Browser W} `{Host W}.

(** X14. The session is quit when the run is over: Chrome is started once
    at most and quit no more often than started; and once [run] has been
    entered, however it ends, returning or raising, [driver.quit] is
    called exactly once, as the last thing [main] does. *)
Theorem session_is_quit_when_run_ends (fuel : nat) (args : Namespace) :
  (quit_calls (fst (main fuel args)) <= sessions (fst (main fuel args))
   <= 1)%nat /\
  (sheets_read (fst (main fuel args)) <> [] ->
   snd (main fuel args) <> Running ->
   quit_calls (fst (main fuel args)) = 1%nat /\
   last (fst (main fuel args)) chrome_running = call_quit).
Proof.
  destruct (main_cases fuel args)
    as [(_ & ->)|[(e & _ & ->)|[(w & e & _ & _ & ->)|(w & _ & _ & ->)]]];
    cbn [fst snd];
    try (split; [simpl; lia|intros Hr; contradiction Hr; reflexivity]).
  set (r := run fuel (read_excel (excel args)) w).
  split.
  - observe (trace_of r). destruct (outcome_of r); simpl; lia.
  - intros _ Ho.
    destruct (outcome_of r) as [[]|e|]; try (contradiction Ho; reflexivity);
      (split; [observe (trace_of r); reflexivity|]);
      change [Info ClosingChrome; call_quit]
        with ([Info ClosingChrome] ++ [call_quit]);
      rewrite !app_assoc; apply last_last.
Qed.

(** X15. A login wait that [time.sleep] refuses leaves Chrome running:
    for a negative wait, or one of 9223372037 seconds or more, the call
    raises in [__init__] once Chrome is started ([ValueError], or
    [OverflowError] from 9223372037 seconds on, on either side of zero),
    so [main] never enters its [try]: no sheet is read, no task is run and
    [driver.quit] is never called. *)
Theorem refused_login_wait_leaves_chrome_running (fuel : nat)
    (args : Namespace) (w : W) :
  os_makedirs SELENIUM_PROFILE = true ->
  Chrome (chrome_options (negb (no_headless args))) = Ok w ->
  login_wait args < 0 \/ 9223372037 <= login_wait args ->
  snd (main fuel args)
    = Traceback (if (-9223372037 <? login_wait args)
                    && (login_wait args <? 0)
                 then Exn ValueError else OverflowError) /\
  sessions (fst (main fuel args)) = 1%nat /\
  quit_calls (fst (main fuel args)) = O /\
  sheets_read (fst (main fuel args)) = [] /\
  session_events (fst (main fuel args)) = [].
Proof.
  intros Hm Hc Hwait.
  destruct (main_cases fuel args)
    as [(Hm' & _)|[(e & Hc' & _)|[(w' & e & _ & Hs & ->)|(w' & _ & Hs & _)]]];
    try congruence;
    rewrite time_sleep_cases in Hs;
    destruct (Z.leb_spec (login_wait args) (-9223372037)),
             (Z.leb_spec 9223372037 (login_wait args)),
             (Z.ltb_spec (login_wait args) 0),
             (Z.ltb_spec (-9223372037) (login_wait args));
    simpl in Hs |- *; try discriminate; try lia;
    injection Hs as <-; repeat split; reflexivity.
Qed.

(** X16. The order of a run: whatever the task loop does comes after
    Chrome was started, once, with the options of [__init__], after the
    login wait was slept, once and for the length asked, which
    [time.sleep] accepts, and after the sheet named on the command line
    was read; it comes before [driver.quit]; and Chrome is not started,
    nor the login wait slept, nor a sheet read after it.  The fixed delays
    that the adapter methods sleep inside a task are no login wait and are
    not counted. *)
Theorem tasks_run_inside_the_session (fuel : nat) (args : Namespace)
    (a b : list process_event) (ev : event) :
  fst (main fuel args) = a ++ in_session ev :: b ->
  launches a = [chrome_options (negb (no_headless args))] /\
  sessions a = 1%nat /\
  login_sleeps a = [login_wait args] /\
  0 <= login_wait args < 9223372037 /\
  sheets_read a = [excel args] /\
  quit_calls a = O /\
  launches b = [] /\ sessions b = O /\ login_sleeps b = [] /\
  sheets_read b = [].
Proof.
  destruct (main_cases fuel args)
    as [(_ & ->)|[(e & _ & ->)|[(w & e & _ & _ & ->)|(w & _ & Hs & ->)]]];
    cbn [fst]; intros E;
    try (apply (f_equal session_events) in E;
         rewrite session_events_app in E; simpl in E;
         destruct (session_events a); discriminate).
  assert (Hwait : 0 <= login_wait args < 9223372037).
  { rewrite time_sleep_cases in Hs.
    destruct (Z.leb_spec (login_wait args) (-9223372037)),
             (Z.leb_spec 9223372037 (login_wait args)),
             (Z.ltb_spec (login_wait args) 0);
      simpl in Hs; try discriminate; lia. }
  apply split_at_session_event in E as (tr1 & tr2 & -> & ->);
    [|reflexivity|destruct (outcome_of _); reflexivity].
  observe tr1. observe tr2.
  destruct (outcome_of _); repeat split; trivial; apply Hwait.
Qed.

(** X17. When the session cannot be established, because the profile
    directory cannot be made or Chrome does not start, [main] raises at
    once: no login wait is slept, no sheet is read, no task is run and
    nothing is quit. *)
Theorem no_session_no_task (fuel : nat) (args : Namespace) :
  (os_makedirs SELENIUM_PROFILE = false \/
   exists e, Chrome (chrome_options (negb (no_headless args))) = Err e) ->
  (exists e, snd (main fuel args) = Traceback e) /\
  sessions (fst (main fuel args)) = O /\
  login_sleeps (fst (main fuel args)) = [] /\
  sheets_read (fst (main fuel args)) = [] /\
  session_events (fst (main fuel args)) = [] /\
  quit_calls (fst (main fuel args)) = O.
Proof.
  intros [Hm|(e & He)]; unfold main, __init__.
  - rewrite Hm. cbn [fst snd].
    split; [eexists; reflexivity|repeat split; reflexivity].
  - destruct (os_makedirs SELENIUM_PROFILE); [rewrite He|]; cbn [fst snd];
      (split; [eexists; reflexivity|repeat split; reflexivity]).
Qed.

(** X18. The window is hidden unless [--no-headless] is given: Chrome is
    started at most once, and the arguments it is started with always
    name the profile directory and hold [--headless=new] exactly when the
    flag is absent. *)
Theorem headless_unless_asked_otherwise (fuel : nat) (args : Namespace) :
  (List.length (launches (fst (main fuel args))) <= 1)%nat /\
  Forall (fun opts =>
            (In "--headless=new"%string (arguments opts)
             <-> no_headless args = false) /\
            In ("--user-data-dir=" ++ SELENIUM_PROFILE)%string
               (arguments opts))
         (launches (fst (main fuel args))).
Proof.
  assert (Hopts :
    (In "--headless=new"%string
        (arguments (chrome_options (negb (no_headless args))))
     <-> no_headless args = false) /\
    In ("--user-data-dir=" ++ SELENIUM_PROFILE)%string
       (arguments (chrome_options (negb (no_headless args))))).
  { destruct (no_headless args); simpl; split; auto; split; auto.
    - intros [E|[E|[E|[]]]]; discriminate.
    - discriminate. }
  destruct (main_cases fuel args)
    as [(_ & ->)|[(e & _ & ->)|[(w & e & _ & _ & ->)|(w & _ & _ & ->)]]];
    cbn [fst].
  - split; [simpl; lia|constructor].
  - split; [simpl; lia|]. simpl. constructor; [exact Hopts|constructor].
  - split; [simpl; lia|]. simpl. constructor; [exact Hopts|constructor].
  - observe (trace_of (run fuel (read_excel (excel args)) w)).
    assert (E : launches
                  match outcome_of (run fuel (read_excel (excel args)) w)
                  with
                  | OutOfFuel => []
                  | _ => [Info ClosingChrome; call_quit]
                  end = []) by (destruct (outcome_of _); reflexivity).
    rewrite E. simpl. split; [lia|].
    constructor; [exact Hopts|constructor].
Qed.

(** X19. [main] is [run] inside the session: once Chrome is started and
    the login wait is one [time.sleep] accepts, neither negative nor of
    9223372037 seconds or more, the events of the task loop are those of
    [run] over the sheet named on the command line, in the browser as
    Chrome gave it; [main] returns only if [run] returned, an exception
    that leaves [run] leaves [main] too unless [driver.quit] raises
    another, and [main] is still running exactly when [run] is. *)
Theorem main_is_run_inside_the_session (fuel : nat) (args : Namespace)
    (w : W) :
  os_makedirs SELENIUM_PROFILE = true ->
  Chrome (chrome_options (negb (no_headless args))) = Ok w ->
  0 <= login_wait args < 9223372037 ->
  session_events (fst (main fuel args))
    = trace_of (run fuel (read_excel (excel args)) w) /\
  (snd (main fuel args) = Returned ->
   outcome_of (run fuel (read_excel (excel args)) w) = Val tt) /\
  (forall e,
     outcome_of (run fuel (read_excel (excel args)) w) = Exc e ->
     exists e', snd (main fuel args) = Traceback (Exn e')) /\
  (snd (main fuel args) = Running <->
   outcome_of (run fuel (read_excel (excel args)) w) = OutOfFuel).
Proof.
  intros Hm Hc Hwait.
  destruct (main_cases fuel args)
    as [(Hm' & _)|[(e & Hc' & _)|[(w' & e & _ & Hs & _)|(w' & Hc' & _ & ->)]]];
    try congruence.
  { rewrite time_sleep_cases in Hs.
    destruct (Z.leb_spec (login_wait args) (-9223372037)),
             (Z.leb_spec 9223372037 (login_wait args)),
             (Z.ltb_spec (login_wait args) 0);
      simpl in Hs; try discriminate; lia. }
  assert (w' = w) as -> by congruence.
  set (r := run fuel (read_excel (excel args)) w).
  cbn [fst snd]. split.
  { observe (trace_of r). destruct (outcome_of r); simpl;
      rewrite app_nil_r; reflexivity. }
  destruct (outcome_of r) as [[]|e|];
    destruct (snd (driver_quit (fst (fst r)))) as [[]|e'];
    (split; [try discriminate; reflexivity|]);
    (split; [intros e0; try discriminate; intros _; eexists; reflexivity|]);
    split; try discriminate; reflexivity.
Qed.

End ProcessProperties.

(** X14, on the machine of the examples: the one task is done and Chrome
    is quit last. *)
Lemma session_is_quit_when_run_ends_witness :
  quit_calls (fst (@main _ _ desk 3 no_option)) = 1%nat /\
  last (fst (@main _ _ desk 3 no_option)) chrome_running = call_quit.
Proof.
  destruct (@session_is_quit_when_run_ends _ _ desk 3 no_option)
    as [_ Hquit].
  apply Hquit; vm_compute; discriminate.
Defined.

(** X15, on the machine of the examples, with [--login-wait -1] and with
    [--login-wait 9223372037]. *)
Lemma refused_login_wait_leaves_chrome_running_witness :
  (snd (@main _ _ desk 3 negative_wait) = Traceback (Exn ValueError) /\
   sessions (fst (@main _ _ desk 3 negative_wait)) = 1%nat /\
   quit_calls (fst (@main _ _ desk 3 negative_wait)) = O /\
   sheets_read (fst (@main _ _ desk 3 negative_wait)) = [] /\
   session_events (fst (@main _ _ desk 3 negative_wait)) = []) /\
  (snd (@main _ _ desk 3 endless_wait) = Traceback OverflowError /\
   sessions (fst (@main _ _ desk 3 endless_wait)) = 1%nat /\
   quit_calls (fst (@main _ _ desk 3 endless_wait)) = O /\
   sheets_read (fst (@main _ _ desk 3 endless_wait)) = [] /\
   session_events (fst (@main _ _ desk 3 endless_wait)) = []).
Proof.
  split.
  - apply (@refused_login_wait_leaves_chrome_running _ _ desk 3
             negative_wait (one_listing price_100));
      [reflexivity|reflexivity|left; reflexivity].
  - apply (@refused_login_wait_leaves_chrome_running _ _ desk 3
             endless_wait (one_listing price_100));
      [reflexivity|reflexivity|right; vm_compute; discriminate].
Defined.

(** X16, on the machine of the examples: the first event of the task loop
    is the eighth of the process. *)
Lemma tasks_run_inside_the_session_witness :
  launches (firstn 7 (fst (@main _ _ desk 3 no_option)))
    = [chrome_options true] /\
  sessions (firstn 7 (fst (@main _ _ desk 3 no_option))) = 1%nat /\
  login_sleeps (firstn 7 (fst (@main _ _ desk 3 no_option))) = [60] /\
  0 <= 60 < 9223372037 /\
  sheets_read (firstn 7 (fst (@main _ _ desk 3 no_option)))
    = [EXCEL_PATH] /\
  quit_calls (firstn 7 (fst (@main _ _ desk 3 no_option))) = O /\
  launches (skipn 8 (fst (@main _ _ desk 3 no_option))) = [] /\
  sessions (skipn 8 (fst (@main _ _ desk 3 no_option))) = O /\
  login_sleeps (skipn 8 (fst (@main _ _ desk 3 no_option))) = [] /\
  sheets_read (skipn 8 (fst (@main _ _ desk 3 no_option))) = [].
Proof.
  apply (@tasks_run_inside_the_session _ _ desk 3 no_option
           (firstn 7 (fst (@main _ _ desk 3 no_option)))
           (skipn 8 (fst (@main _ _ desk 3 no_option)))
           (call_open_listing "SKU1")).
  vm_compute. reflexivity.
Defined.

(** X17, on a machine where Chrome does not start. *)
Lemma no_session_no_task_witness :
  (exists e, snd (@main _ _ no_chrome 3 no_option) = Traceback e) /\
  sessions (fst (@main _ _ no_chrome 3 no_option)) = O /\
  login_sleeps (fst (@main _ _ no_chrome 3 no_option)) = [] /\
  sheets_read (fst (@main _ _ no_chrome 3 no_option)) = [] /\
  session_events (fst (@main _ _ no_chrome 3 no_option)) = [] /\
  quit_calls (fst (@main _ _ no_chrome 3 no_option)) = O.
Proof.
  apply (@no_session_no_task _ _ no_chrome 3 no_option).
  right. exists WebDriverException. reflexivity.
Defined.

(** X19, on the machine of the examples. *)
Lemma main_is_run_inside_the_session_witness :
  session_events (fst (@main _ _ desk 3 no_option))
    = trace_of (run 3 (Ok one_row) (one_listing price_100)) /\
  snd (@main _ _ desk 3 no_option) = Returned.
Proof.
  assert (Hwait : 0 <= login_wait no_option < 9223372037)
    by (simpl; lia).
  destruct (@main_is_run_inside_the_session _ _ desk 3 no_option
              (one_listing price_100) eq_refl eq_refl Hwait)
    as (Hs & _).
  split; [exact Hs|vm_compute; reflexivity].
Defined.
